(** * LocalChain smart contracts: a shallow embedding and its properties

    The development follows the layout of the repository:

    - [Js]: the fragment of JavaScript values the contracts put on the chain
      (object literals, spread, truthiness, numbers as IEEE-754 doubles);
    - the contract runtime: a state-and-exception monad over a world made of
      the keyed store, the chain, the host clock and the log of the calls a
      procedure makes on its injected capabilities;
    - [Token], [PrivateToken] (smart-contracts/token.js, private-token.js);
    - [BondingCurve] (smart-contracts/bonding-curve.js);
    - [WishList] (smart-contracts/wishlist.js);
    - [ChatAgent] (smart-contracts/chat.js). *)

From Stdlib Require Import ZArith Floats Lia Uint63.
From stdpp Require Import gmap strings list fin_maps pretty sorting.

Set Warnings "-inexact-float,-register-all".
Set Default Proof Using "Type".

Local Open Scope string_scope.

(** ** JavaScript values *)

Module Js.

(** Numbers are binary64 floats, as in the language; [Undefined] and [Null]
    are kept apart because optional arguments default to either. *)
Inductive value :=
| Undefined
| Null
| Bool (b : bool)
| Num (x : float)
| Str (s : string)
| Arr (xs : list value)
| Obj (fields : list (string * value)).

(** An object is its list of own properties in insertion order. This is
    the order in which the language enumerates them for keys that are not
    integer-like (those come first, in numeric order); and the objects have
    no prototype: a name inherited from [Object.prototype], [__proto__]
    among them, is not a key of this model. The object literals of the
    contracts have neither kind of key; a statement about an object a caller
    supplies says so where it depends on it (see [plain]). *)
Definition object := list (string * value).

(** [o[k] = v] for a key of the model: an existing property keeps its
    position and takes the new value, a new property goes last. *)
Fixpoint set (k : string) (v : value) (o : object) : object :=
  match o with
  | [] => [(k, v)]
  | (k', v') :: o' =>
      if String.eqb k k' then (k, v) :: o' else (k', v') :: set k v o'
  end.

(** [o[k]] for a key of the model, [undefined] when the property is
    absent. *)
Fixpoint get (k : string) (o : object) : value :=
  match o with
  | [] => Undefined
  | (k', v') :: o' => if String.eqb k k' then v' else get k o'
  end.

(** The names every object inherits from [Object.prototype]. *)
Definition inherited_names : list string :=
  ["constructor"; "hasOwnProperty"; "isPrototypeOf"; "propertyIsEnumerable";
   "toLocaleString"; "toString"; "valueOf"; "__proto__";
   "__defineGetter__"; "__defineSetter__"; "__lookupGetter__"; "__lookupSetter__"].

(** A key written with digits only. The integer-like keys, which the
    language enumerates before the others, are among these. *)
Definition is_digit (c : Ascii.ascii) : bool :=
  (48 <=? Ascii.nat_of_ascii c)%nat && (Ascii.nat_of_ascii c <=? 57)%nat.

Fixpoint all_digits (k : string) : bool :=
  match k with
  | EmptyString => true
  | String c k' => is_digit c && all_digits k'
  end.

Definition integer_like (k : string) : bool :=
  negb (String.eqb k "") && all_digits k.

(** A key of the model of objects. *)
Definition ordinary_key (k : string) : Prop :=
  (k ∉ inherited_names) /\ integer_like k = false.

(** A value the model holds as the language does: the keys of every object
    in it, at every depth, are distinct keys of the model. What a caller
    builds with ordinary property names is of this kind. *)
Fixpoint plain (v : value) : Prop :=
  match v with
  | Obj fields =>
      NoDup (map fst fields)
      /\ (fix each (fields : list (string * value)) : Prop :=
            match fields with
            | [] => True
            | (k, v') :: rest => ordinary_key k /\ plain v' /\ each rest
            end) fields
  | _ => True
  end.

(** [{...o, ...src}]: the properties of [src] are defined on [o] from left
    to right, so a later property overrides an earlier one. *)
Definition spread (o src : object) : object :=
  fold_left (fun acc kv => set (fst kv) (snd kv) acc) src o.

(** An object literal [{k1: v1, ..., kn: vn}]. *)
Definition literal (fields : list (string * value)) : object :=
  spread [] fields.

(** [Date.now()] yields an integral number of milliseconds; as a number it
    is the double with that value (exact below 2^53). *)
Definition ms (z : Z) : float := PrimFloat.of_uint63 (Uint63.of_Z z).

(** [!!s] for a string. *)
Definition truthy (s : string) : bool := negb (String.eqb s "").

(** [!!o] for a value that is [null] or a string. *)
Definition truthy_opt (o : option string) : bool :=
  match o with
  | Some s => truthy s
  | None => false
  end.

(** [!!n] for an integral number. *)
Definition truthy_int (z : Z) : bool := negb (Z.eqb z 0).

(** [!!v] for any value: [undefined], [null], [false], [0], [NaN] and the
    empty string are falsy. *)
Definition is_truthy (v : value) : bool :=
  match v with
  | Undefined | Null => false
  | Bool b => b
  | Num x => negb (PrimFloat.eqb x 0 || PrimFloat.is_nan x)
  | Str s => truthy s
  | Arr _ | Obj _ => true
  end.

(** [v || d] *)
Definition or_else (v d : value) : value := if is_truthy v then v else d.

(** [{ name = d } = args]: the default of a destructured field applies when
    the field is [undefined]. *)
Definition default_to (d v : value) : value :=
  match v with
  | Undefined => d
  | _ => v
  end.

End Js.

(** ** Errors raised by the procedures

    One constructor per [throw new Error(...)] of the contracts; the data a
    message interpolates is carried by the constructor. *)

Inductive error :=
| TransferAmountMustBePositive      (* 'Transfer amount must be positive' *)
| MintAmountMustBePositive          (* 'Mint amount must be positive' *)
| BurnAmountMustBePositive          (* 'Burn amount must be positive' *)
| InsufficientBalance (available : float)
                                    (* `Insufficient balance. Available: ${...}` *)
| UnknownCurveType (curveType : string)
                                    (* `Unknown curve type: ${...}` *)
| MissingRequiredFields (fields : string)
                                    (* `Missing required fields: ${...}` *)
| WishListNotFound (user : string)  (* `Wish list not found for user ${...}` *)
| ItemNotFound (itemId : string)    (* `Item ${...} not found in wish list` *)
| ItemNotAvailable (status : string)
                                    (* `Item is not available. Current status: ${...}` *)
| ItemAlreadyReserved               (* 'Item is already reserved' *)
| CannotReserveOwnItem              (* 'Cannot reserve your own item' *)
| CannotSellMoreThanExist           (* 'Cannot sell more tokens than exist' *)
| MissingItemFields                 (* 'Item must have name and description' *)
| InvalidStatus                     (* `Invalid status. Must be one of: ...` *)
| InvalidRole                       (* 'Invalid role. Must be: user, assistant, or system' *)
| ThreadNotOwned                    (* 'Thread does not belong to this user' *)
| ThreadNotFound (threadId : string)
                                    (* `Thread ${...} not found` *)
| DuplicateMessageId (id : string)  (* `Duplicate message ID found: ${...}` *)
| InvalidMessageFormat (id : string)
                                    (* `Invalid message format: ${...}` *)
| NotFound (key : string).          (* the store has no record under the key *)

Inductive outcome (A : Type) :=
| Ok (a : A)
| Throw (e : error).
Arguments Ok {A} a.
Arguments Throw {A} e.

(** ** The contract runtime

    A procedure receives a reader and closes over [storage] and [chain]. Its
    effects are the reads through the reader, the writes through
    [storage.saveData], the blocks it appends through [chain.addBlock], and
    the calls to [Date.now()] and [Math.random()]. *)

(** Modelled from the spec: lib/chain.js is not part of the sources. The chain
    is the sequence of appended blocks, oldest first. A block either registers
    a storage write ([{op:'write', id, contentDigest}], the digest left
    abstract) or carries the payload a procedure passed to [addBlock]. *)
Inductive block :=
| WriteBlock (id : string)
| DataBlock (data : Js.object).

(** The calls a procedure makes on its capabilities, in program order. *)
Inductive event :=
| EGet (key : string)
| ESave (key : string) (encrypted : bool)
| EAddBlock (data : Js.object).

Record World (S : Type) := mkWorld {
  storage : S;                (* the records held by the store *)
  chain : list block;         (* the chain, oldest block first *)
  events : list event;        (* capability calls so far, oldest first *)
  tick : nat;                 (* number of clock or entropy draws so far *)
  clock : nat -> Z;           (* what the i-th draw returns as [Date.now()] *)
  entropy : nat -> string;    (* ... as [Math.random().toString(36).substr(2, 9)] *)
}.
Arguments mkWorld {S}.
Arguments storage {S}.
Arguments chain {S}.
Arguments events {S}.
Arguments tick {S}.
Arguments clock {S}.
Arguments entropy {S}.

Definition M (S A : Type) : Type := World S -> outcome A * World S.

(** A table is one family of keys of the store together with the type of the
    records kept under them. *)
Record Table (S V : Type) := mkTable {
  select : S -> gmap string V;
  update : gmap string V -> S -> S;
}.
Arguments mkTable {S V}.
Arguments select {S V}.
Arguments update {S V}.

Section Runtime.
Context {S : Type}.

Definition ret {A} (a : A) : M S A := fun w => (Ok a, w).

Definition bind {A B} (m : M S A) (f : A -> M S B) : M S B :=
  fun w =>
    match m w with
    | (Ok a, w') => f a w'
    | (Throw e, w') => (Throw e, w')
    end.

Definition throw {A} (e : error) : M S A := fun w => (Throw e, w).

Definition log (e : event) (w : World S) : World S :=
  mkWorld (storage w) (chain w) (events w ++ [e]) (tick w) (clock w) (entropy w).

(** [Date.now()] *)
Definition now : M S Z := fun w =>
  (Ok (clock w (tick w)),
   mkWorld (storage w) (chain w) (events w) (Datatypes.S (tick w)) (clock w) (entropy w)).

(** [Math.random().toString(36).substr(2, 9)] *)
Definition random : M S string := fun w =>
  (Ok (entropy w (tick w)),
   mkWorld (storage w) (chain w) (events w) (Datatypes.S (tick w)) (clock w) (entropy w)).

(** Modelled from the spec: lib/contract.js is not part of the sources. The
    read view exposes [get(key)] as [storage.loadData(key)], with an absent
    record read as a falsy value ([None]). *)
Definition get {V} (t : Table S V) (key : string) : M S (option V) := fun w =>
  (Ok (select t (storage w) !! key), log (EGet key) w).

(** Modelled from the spec: lib/storage.js is not part of the sources.
    [saveData(id, data, {encrypted})] persists the record under [id] and
    registers the write on the chain; a later [loadData(id)] returns the
    saved value. The store of the world holds, under each key, the value
    [loadData] returns: the form of the record at rest (plain or sealed in
    an envelope) is below this interface, and [encrypted] is kept in the log
    of calls only. The world follows the runs in which the store accepts
    every write; the failures the specification gives [saveData] (no key
    material, I/O) do not occur in it, so in this model a procedure throws
    only from its own [throw] statements. *)
Definition saveData {V} (t : Table S V) (key : string) (v : V) (encrypted : bool)
  : M S unit := fun w =>
  (Ok tt,
   mkWorld (update t (<[key := v]> (select t (storage w))) (storage w))
           (chain w ++ [WriteBlock key])
           (events w ++ [ESave key encrypted])
           (tick w) (clock w) (entropy w)).

(** Modelled from the spec: [chain.addBlock(data)] appends one block that
    carries [data]. As for [saveData], only the runs in which the chain
    accepts the block are followed. *)
Definition addBlock (data : Js.object) : M S unit := fun w =>
  (Ok tt,
   mkWorld (storage w) (chain w ++ [DataBlock data])
           (events w ++ [EAddBlock data])
           (tick w) (clock w) (entropy w)).

End Runtime.

Declare Scope proc_scope.
Delimit Scope proc_scope with proc.
Notation "x <- c1 ;; c2" := (bind c1 (fun x => c2))
  (at level 100, c1 at next level, right associativity) : proc_scope.
Notation "c1 ;; c2" := (bind c1 (fun _ => c2))
  (at level 100, right associativity) : proc_scope.
Local Open Scope proc_scope.

(** What a run did on the capabilities. *)
Definition is_get (e : event) : bool :=
  match e with EGet _ => true | _ => false end.
Definition is_save (e : event) : bool :=
  match e with ESave _ _ => true | _ => false end.
Definition is_addBlock (e : event) : bool :=
  match e with EAddBlock _ => true | _ => false end.

Definition count (p : event -> bool) (l : list event) : nat :=
  length (filter (fun e => p e = true) l).

Definition reads (l : list event) : nat := count is_get l.
Definition writes (l : list event) : nat := count is_save l.
Definition appended (l : list event) : nat := count is_addBlock l.

(** The blocks of a chain that carry a procedure's payload. *)
Definition data_blocks (c : list block) : list Js.object :=
  omap (fun b => match b with DataBlock d => Some d | WriteBlock _ => None end) c.

(** ** Token balances (shared by [Token] and [PrivateToken]) *)

Local Open Scope float_scope.

(** A record under [balance:<address>]. The default a procedure falls back
    on, [{ balance: 0 }], has neither [address] nor [updated]. *)
Record Balance := mkBalance {
  address : option string;
  balance : float;
  updated : option Z;
}.

(** The token contracts only touch [balance:*] keys. *)
Definition balances : Table (gmap string Balance) Balance :=
  mkTable (fun s => s) (fun m _ => m).

(** [(await reader.get(key)) || { balance: 0 }] *)
Definition or_zero (o : option Balance) : Balance :=
  match o with
  | Some b => b
  | None => mkBalance None 0 None
  end.

(** [`balance:${address}`] *)
Definition balance_key (a : string) : string := "balance:" +:+ a.

Record TransferArgs := mkTransferArgs {
  t_from : string;
  t_to : string;
  t_amount : float;
}.

Record MintArgs := mkMintArgs {
  m_to : string;
  m_amount : float;
  m_bridgeTxHash : Js.value;
}.

Record BurnArgs := mkBurnArgs {
  b_from : string;
  b_amount : float;
  b_bridgeAddress : Js.value;
}.

Module Token.

(** smart-contracts/token.js, [transferProc] *)
Definition transferProc (args : TransferArgs) : M (gmap string Balance) Js.object :=
  let from := t_from args in
  let to := t_to args in
  let amount := t_amount args in
  if amount <=? 0 then throw TransferAmountMustBePositive else
  fromBalance <- get balances (balance_key from) ;;
  let fromBalance := or_zero fromBalance in
  if balance fromBalance <? amount
  then throw (InsufficientBalance (balance fromBalance)) else
  toBalance <- get balances (balance_key to) ;;
  let toBalance := or_zero toBalance in
  t1 <- now ;;
  let newFromBalance :=
    mkBalance (Some from) (balance fromBalance - amount) (Some t1) in
  t2 <- now ;;
  let newToBalance :=
    mkBalance (Some to) (balance toBalance + amount) (Some t2) in
  saveData balances (balance_key from) newFromBalance false ;;
  saveData balances (balance_key to) newToBalance false ;;
  t3 <- now ;;
  t4 <- now ;;
  r <- random ;;
  let tx := Js.literal
    [("type", Js.Str "transfer");
     ("from", Js.Str from);
     ("to", Js.Str to);
     ("amount", Js.Num amount);
     ("timestamp", Js.Num (Js.ms t3));
     ("txId", Js.Str ("tx-" +:+ pretty t4 +:+ "-" +:+ r))] in
  addBlock (Js.spread (Js.literal [("type", Js.Str "token-transfer")]) tx) ;;
  ret (Js.literal
    [("success", Js.Bool true);
     ("txId", Js.get "txId" tx);
     ("fromBalance", Js.Num (balance newFromBalance));
     ("toBalance", Js.Num (balance newToBalance))]).

(** smart-contracts/token.js, [mintProc] *)
Definition mintProc (args : MintArgs) : M (gmap string Balance) Js.object :=
  let to := m_to args in
  let amount := m_amount args in
  let bridgeTxHash := m_bridgeTxHash args in
  if amount <=? 0 then throw MintAmountMustBePositive else
  balance0 <- get balances (balance_key to) ;;
  let balance0 := or_zero balance0 in
  t1 <- now ;;
  let newBalance := mkBalance (Some to) (balance balance0 + amount) (Some t1) in
  saveData balances (balance_key to) newBalance false ;;
  t2 <- now ;;
  t3 <- now ;;
  r <- random ;;
  let tx := Js.literal
    [("type", Js.Str "mint");
     ("to", Js.Str to);
     ("amount", Js.Num amount);
     ("bridgeTxHash", bridgeTxHash);
     ("timestamp", Js.Num (Js.ms t2));
     ("txId", Js.Str ("mint-" +:+ pretty t3 +:+ "-" +:+ r))] in
  addBlock (Js.spread (Js.literal [("type", Js.Str "token-mint")]) tx) ;;
  ret (Js.literal
    [("success", Js.Bool true);
     ("txId", Js.get "txId" tx);
     ("balance", Js.Num (balance newBalance))]).

(** smart-contracts/token.js, [burnProc] *)
Definition burnProc (args : BurnArgs) : M (gmap string Balance) Js.object :=
  let from := b_from args in
  let amount := b_amount args in
  let bridgeAddress := b_bridgeAddress args in
  if amount <=? 0 then throw BurnAmountMustBePositive else
  balance0 <- get balances (balance_key from) ;;
  let balance0 := or_zero balance0 in
  if balance balance0 <? amount
  then throw (InsufficientBalance (balance balance0)) else
  t1 <- now ;;
  let newBalance := mkBalance (Some from) (balance balance0 - amount) (Some t1) in
  saveData balances (balance_key from) newBalance false ;;
  t2 <- now ;;
  t3 <- now ;;
  r <- random ;;
  let tx := Js.literal
    [("type", Js.Str "burn");
     ("from", Js.Str from);
     ("amount", Js.Num amount);
     ("bridgeAddress", bridgeAddress);
     ("timestamp", Js.Num (Js.ms t2));
     ("txId", Js.Str ("burn-" +:+ pretty t3 +:+ "-" +:+ r))] in
  addBlock (Js.spread (Js.literal [("type", Js.Str "token-burn")]) tx) ;;
  ret (Js.literal
    [("success", Js.Bool true);
     ("txId", Js.get "txId" tx);
     ("balance", Js.Num (balance newBalance))]).

(** [getBalance(address)]: [balance ? balance.balance : 0] on [loadData]. *)
Definition getBalance (s : gmap string Balance) (a : string) : float :=
  match s !! balance_key a with
  | Some b => balance b
  | None => 0
  end.

End Token.

Module PrivateToken.

(** smart-contracts/private-token.js, [transferProc] *)
Definition transferProc (args : TransferArgs) : M (gmap string Balance) Js.object :=
  let from := t_from args in
  let to := t_to args in
  let amount := t_amount args in
  if amount <=? 0 then throw TransferAmountMustBePositive else
  fromBalance <- get balances (balance_key from) ;;
  let fromBalance := or_zero fromBalance in
  if balance fromBalance <? amount
  then throw (InsufficientBalance (balance fromBalance)) else
  toBalance <- get balances (balance_key to) ;;
  let toBalance := or_zero toBalance in
  t1 <- now ;;
  let newFromBalance :=
    mkBalance (Some from) (balance fromBalance - amount) (Some t1) in
  t2 <- now ;;
  let newToBalance :=
    mkBalance (Some to) (balance toBalance + amount) (Some t2) in
  saveData balances (balance_key from) newFromBalance true ;;
  saveData balances (balance_key to) newToBalance true ;;
  ret (Js.literal
    [("success", Js.Bool true);
     ("fromBalance", Js.Num (balance newFromBalance));
     ("toBalance", Js.Num (balance newToBalance))]).

(** smart-contracts/private-token.js, [mintProc] *)
Definition mintProc (args : MintArgs) : M (gmap string Balance) Js.object :=
  let to := m_to args in
  let amount := m_amount args in
  if amount <=? 0 then throw MintAmountMustBePositive else
  balance0 <- get balances (balance_key to) ;;
  let balance0 := or_zero balance0 in
  t1 <- now ;;
  let newBalance := mkBalance (Some to) (balance balance0 + amount) (Some t1) in
  saveData balances (balance_key to) newBalance true ;;
  ret (Js.literal
    [("success", Js.Bool true);
     ("balance", Js.Num (balance newBalance))]).

(** smart-contracts/private-token.js, [burnProc] *)
Definition burnProc (args : BurnArgs) : M (gmap string Balance) Js.object :=
  let from := b_from args in
  let amount := b_amount args in
  if amount <=? 0 then throw BurnAmountMustBePositive else
  balance0 <- get balances (balance_key from) ;;
  let balance0 := or_zero balance0 in
  if balance balance0 <? amount
  then throw (InsufficientBalance (balance balance0)) else
  t1 <- now ;;
  let newBalance := mkBalance (Some from) (balance balance0 - amount) (Some t1) in
  saveData balances (balance_key from) newBalance true ;;
  ret (Js.literal
    [("success", Js.Bool true);
     ("balance", Js.Num (balance newBalance))]).

(** smart-contracts/private-token.js, [getBalance(address)]:
    [balance ? balance.balance : 0] on [loadData], which decrypts. *)
Definition getBalance (s : gmap string Balance) (a : string) : float :=
  match s !! balance_key a with
  | Some b => balance b
  | None => 0
  end.

End PrivateToken.

(** ** Procedures with errors of their own

    The buy and sell contracts of bonding-curve.js and the wish-list query
    throw four errors beside the ones above. Their procedures run in the
    same world; a failure is one of the errors above ([Raised]) or one of
    the four. *)

Inductive failure :=
| Raised (e : error)
| PaymentAmountMustBePositive       (* 'Payment amount must be positive' *)
| TokenAmountMustBePositive         (* 'Token amount must be positive' *)
| CannotSellMoreThanTotalSupply     (* 'Cannot sell more tokens than total supply' *)
| MissingRequiredField (field : string).
                                    (* `Missing required field: ${...}` *)

Inductive result (A : Type) :=
| Returns (a : A)
| Fails (e : failure).
Arguments Returns {A} a.
Arguments Fails {A} e.

Definition MF (S A : Type) : Type := World S -> result A * World S.

Section Failing.
Context {S : Type}.

Definition returns {A} (a : A) : MF S A := fun w => (Returns a, w).

Definition fails {A} (e : failure) : MF S A := fun w => (Fails e, w).

Definition and_then {A B} (m : MF S A) (f : A -> MF S B) : MF S B :=
  fun w =>
    match m w with
    | (Returns a, w') => f a w'
    | (Fails e, w') => (Fails e, w')
    end.

(** A call on the runtime ([reader.get], [storage.saveData],
    [chain.addBlock], [Date.now()], [Math.random()]). *)
Definition call {A} (m : M S A) : MF S A :=
  fun w =>
    match m w with
    | (Ok a, w') => (Returns a, w')
    | (Throw e, w') => (Fails (Raised e), w')
    end.

(** The value of a pure function that may throw. *)
Definition value {A} (o : outcome A) : MF S A :=
  fun w =>
    match o with
    | Ok a => (Returns a, w)
    | Throw e => (Fails (Raised e), w)
    end.

End Failing.

Declare Scope contract_scope.
Delimit Scope contract_scope with contract.
Notation "x <- c1 ;; c2" := (and_then c1 (fun x => c2))
  (at level 100, c1 at next level, right associativity) : contract_scope.
Notation "c1 ;; c2" := (and_then c1 (fun _ => c2))
  (at level 100, right associativity) : contract_scope.

(** ** Bonding curve (smart-contracts/bonding-curve.js) *)

Module BondingCurve.

(** The private fields of a [BondingCurve] instance that pricing reads. *)
Record Curve := mkCurve {
  curveType : string;
  k : float;   (* constant multiplier *)
  n : float;   (* polynomial exponent *)
  r : float;   (* exponential rate *)
}.

(** [new BondingCurve(token)] with the default options. *)
Definition default_curve : Curve := mkCurve "linear" 0.001 2 0.01.

Definition supported (c : Curve) : bool :=
  String.eqb (curveType c) "linear"
  || String.eqb (curveType c) "polynomial"
  || String.eqb (curveType c) "exponential".

Section Pricing.
(** [Math.pow] and [Math.exp] are host functions; the language leaves their
    results implementation-approximated, so they are parameters here. *)
Variable Math_pow : float -> float -> float.
Variable Math_exp : float -> float.
Variable c : Curve.

(** [calculatePrice(supply)] *)
Definition calculatePrice (supply : float) : outcome float :=
  if String.eqb (curveType c) "linear" then
    Ok (k c * supply)
  else if String.eqb (curveType c) "polynomial" then
    Ok (k c * Math_pow supply (n c))
  else if String.eqb (curveType c) "exponential" then
    Ok (k c * Math_exp (r c * supply))
  else Throw (UnknownCurveType (curveType c)).

(** [calculateIntegral(supply1, supply2)] *)
Definition calculateIntegral (supply1 supply2 : float) : outcome float :=
  if String.eqb (curveType c) "linear" then
    Ok ((k c / 2) * (supply2 * supply2 - supply1 * supply1))
  else if String.eqb (curveType c) "polynomial" then
    Ok ((k c / (n c + 1))
        * (Math_pow supply2 (n c + 1) - Math_pow supply1 (n c + 1)))
  else if String.eqb (curveType c) "exponential" then
    Ok ((k c / r c)
        * (Math_exp (r c * supply2) - Math_exp (r c * supply1)))
  else Throw (UnknownCurveType (curveType c)).

Definition tolerance : float := 0.0001.
Definition maxIterations : nat := 100.

(** The [for] loop of [calculateTokensForPayment] with [remaining]
    iterations left, and the [return] that follows it. *)
Fixpoint bisect (currentSupply paymentAmount : float) (remaining : nat)
    (low high : float) : outcome float :=
  match remaining with
  | O => Ok ((low + high) / 2 - currentSupply)
  | Datatypes.S remaining' =>
      let mid := (low + high) / 2 in
      match calculateIntegral currentSupply mid with
      | Throw e => Throw e
      | Ok cost =>
          if abs (cost - paymentAmount) <? tolerance then Ok (mid - currentSupply)
          else if cost <? paymentAmount
               then bisect currentSupply paymentAmount remaining' mid high
               else bisect currentSupply paymentAmount remaining' low mid
      end
  end.

(** [calculateTokensForPayment(currentSupply, paymentAmount)] *)
Definition calculateTokensForPayment (currentSupply paymentAmount : float)
  : outcome float :=
  bisect currentSupply paymentAmount maxIterations
         currentSupply (currentSupply + paymentAmount / k c).

(** [calculatePaymentForTokens(currentSupply, tokenAmount)] *)
Definition calculatePaymentForTokens (currentSupply tokenAmount : float)
  : outcome float :=
  calculateIntegral currentSupply (currentSupply + tokenAmount).

(** [calculatePaymentForSale(currentSupply, tokenAmount)] *)
Definition calculatePaymentForSale (currentSupply tokenAmount : float)
  : outcome float :=
  let newSupply := currentSupply - tokenAmount in
  if newSupply <? 0 then Throw CannotSellMoreThanExist
  else calculateIntegral newSupply currentSupply.

(** Bisection as the specification words it, stated apart from [bisect]:
    the bracket [(low, high)] after [i] halvings. It starts as
    [(currentSupply, currentSupply + paymentAmount / k)]; while the cost of
    the midpoint [(low + high) / 2] is not within 1e-4 of the payment, the
    midpoint replaces the lower end when it costs less than the payment and
    the upper end otherwise. *)
Inductive bracket (currentSupply paymentAmount : float)
  : nat -> float -> float -> Prop :=
| bracket_init :
    bracket currentSupply paymentAmount 0
            currentSupply (currentSupply + paymentAmount / k c)
| bracket_low i low high cost :
    bracket currentSupply paymentAmount i low high ->
    calculateIntegral currentSupply ((low + high) / 2) = Ok cost ->
    (abs (cost - paymentAmount) <? 0.0001) = false ->
    (cost <? paymentAmount) = true ->
    bracket currentSupply paymentAmount (Datatypes.S i) ((low + high) / 2) high
| bracket_high i low high cost :
    bracket currentSupply paymentAmount i low high ->
    calculateIntegral currentSupply ((low + high) / 2) = Ok cost ->
    (abs (cost - paymentAmount) <? 0.0001) = false ->
    (cost <? paymentAmount) = false ->
    bracket currentSupply paymentAmount (Datatypes.S i) low ((low + high) / 2).

End Pricing.

(** A host whose [Math.pow] and [Math.exp] are never consulted, to run the
    linear curve. *)
Definition no_pow (_ _ : float) : float := nan.
Definition no_exp (_ : float) : float := nan.

(** *** The buy and sell contracts

    The curve works on the storage and the chain of its token
    ([token._getStorage()], [token._getChain()]). Beside the [balance:*]
    records it keeps the supply and the payment reserve, each under a key of
    its own. *)

(** The record under ['bonding-curve:supply']; the default [{ supply: 0 }]
    has no [updated]. *)
Record SupplyData := mkSupplyData {
  sd_supply : float;
  sd_updated : option Z;
}.

(** The record under ['bonding-curve:payments']; the default is
    [{ total: 0 }]. *)
Record PaymentData := mkPaymentData {
  pd_total : float;
  pd_updated : option Z;
}.

(** The three key families never overlap, so the store is three typed
    tables. *)
Record Store := mkStore {
  cs_balances : gmap string Balance;
  cs_supply : gmap string SupplyData;
  cs_payments : gmap string PaymentData;
}.

Definition balance_table : Table Store Balance :=
  mkTable cs_balances (fun m s => mkStore m (cs_supply s) (cs_payments s)).
Definition supply_table : Table Store SupplyData :=
  mkTable cs_supply (fun m s => mkStore (cs_balances s) m (cs_payments s)).
Definition payments_table : Table Store PaymentData :=
  mkTable cs_payments (fun m s => mkStore (cs_balances s) (cs_supply s) m).

Definition supply_key : string := "bonding-curve:supply".
Definition payments_key : string := "bonding-curve:payments".

(** [(await reader.get('bonding-curve:supply')) || { supply: 0 }] *)
Definition or_no_supply (o : option SupplyData) : SupplyData :=
  match o with
  | Some d => d
  | None => mkSupplyData 0 None
  end.

(** [(await reader.get('bonding-curve:payments')) || { total: 0 }] *)
Definition or_no_payments (o : option PaymentData) : PaymentData :=
  match o with
  | Some d => d
  | None => mkPaymentData 0 None
  end.

(** [Math.max(a, b)]: NaN if either argument is NaN, and [+0] is larger than
    [-0]. *)
Definition Math_max (a b : float) : float :=
  if is_nan a || is_nan b then nan
  else if a <? b then b
  else if b <? a then a
  else match classify a with
       | NZero => b
       | _ => a
       end.

Record BuyArgs := mkBuyArgs {
  buy_buyer : string;
  buy_paymentAmount : float;
}.

Record BuyResult := mkBuyResult {
  bought_success : bool;
  bought_txId : string;
  bought_tokenAmount : float;
  bought_paymentAmount : float;
  bought_price : float;
  bought_newSupply : float;
  bought_buyerBalance : float;
}.

Record SellArgs := mkSellArgs {
  sell_seller : string;
  sell_tokenAmount : float;
}.

Record SellResult := mkSellResult {
  sold_success : bool;
  sold_txId : string;
  sold_tokenAmount : float;
  sold_paymentAmount : float;
  sold_price : float;
  sold_newSupply : float;
  sold_sellerBalance : float;
}.

Section Contracts.
Variable Math_pow : float -> float -> float.
Variable Math_exp : float -> float.
Variable c : Curve.

Local Open Scope contract_scope.

(** [buyProc]: the user pays and receives tokens. *)
Definition buyProc (args : BuyArgs) : MF Store BuyResult :=
  let buyer := buy_buyer args in
  let paymentAmount := buy_paymentAmount args in
  if paymentAmount <=? 0 then fails PaymentAmountMustBePositive else
  supplyData <- call (get supply_table supply_key) ;;
  let currentSupply := sd_supply (or_no_supply supplyData) in
  tokenAmount <-
    value (calculateTokensForPayment Math_pow Math_exp c currentSupply paymentAmount) ;;
  if tokenAmount <=? 0 then fails TokenAmountMustBePositive else
  actualPrice <-
    value (calculatePaymentForTokens Math_pow Math_exp c currentSupply tokenAmount) ;;
  let newSupply := currentSupply + tokenAmount in
  t1 <- call now ;;
  call (saveData supply_table supply_key (mkSupplyData newSupply (Some t1)) false) ;;
  buyerBalance <- call (get balance_table (balance_key buyer)) ;;
  let buyerBalance := or_zero buyerBalance in
  t2 <- call now ;;
  call (saveData balance_table (balance_key buyer)
          (mkBalance (Some buyer) (balance buyerBalance + tokenAmount) (Some t2))
          false) ;;
  paymentData <- call (get payments_table payments_key) ;;
  let paymentData := or_no_payments paymentData in
  t3 <- call now ;;
  call (saveData payments_table payments_key
          (mkPaymentData (pd_total paymentData + actualPrice) (Some t3)) false) ;;
  t4 <- call now ;;
  t5 <- call now ;;
  rnd <- call random ;;
  let txId := "buy-" +:+ pretty t5 +:+ "-" +:+ rnd in
  let tx := Js.literal
    [("type", Js.Str "bonding-curve-buy");
     ("buyer", Js.Str buyer);
     ("paymentAmount", Js.Num actualPrice);
     ("tokenAmount", Js.Num tokenAmount);
     ("price", Js.Num (actualPrice / tokenAmount));
     ("supplyBefore", Js.Num currentSupply);
     ("supplyAfter", Js.Num newSupply);
     ("timestamp", Js.Num (Js.ms t4));
     ("txId", Js.Str txId)] in
  call (addBlock tx) ;;
  returns (mkBuyResult true txId tokenAmount actualPrice (actualPrice / tokenAmount)
             newSupply (balance buyerBalance + tokenAmount)).

(** [sellProc]: the user sells tokens and receives payment. *)
Definition sellProc (args : SellArgs) : MF Store SellResult :=
  let seller := sell_seller args in
  let tokenAmount := sell_tokenAmount args in
  if tokenAmount <=? 0 then fails TokenAmountMustBePositive else
  sellerBalance <- call (get balance_table (balance_key seller)) ;;
  let sellerBalance := or_zero sellerBalance in
  if balance sellerBalance <? tokenAmount
  then fails (Raised (InsufficientBalance (balance sellerBalance))) else
  supplyData <- call (get supply_table supply_key) ;;
  let currentSupply := sd_supply (or_no_supply supplyData) in
  if currentSupply <? tokenAmount then fails CannotSellMoreThanTotalSupply else
  paymentAmount <-
    value (calculatePaymentForSale Math_pow Math_exp c currentSupply tokenAmount) ;;
  let newSupply := currentSupply - tokenAmount in
  t1 <- call now ;;
  call (saveData supply_table supply_key (mkSupplyData newSupply (Some t1)) false) ;;
  t2 <- call now ;;
  call (saveData balance_table (balance_key seller)
          (mkBalance (Some seller) (balance sellerBalance - tokenAmount) (Some t2))
          false) ;;
  paymentData <- call (get payments_table payments_key) ;;
  let paymentData := or_no_payments paymentData in
  let newPaymentTotal := Math_max 0 (pd_total paymentData - paymentAmount) in
  t3 <- call now ;;
  call (saveData payments_table payments_key
          (mkPaymentData newPaymentTotal (Some t3)) false) ;;
  t4 <- call now ;;
  t5 <- call now ;;
  rnd <- call random ;;
  let txId := "sell-" +:+ pretty t5 +:+ "-" +:+ rnd in
  let tx := Js.literal
    [("type", Js.Str "bonding-curve-sell");
     ("seller", Js.Str seller);
     ("paymentAmount", Js.Num paymentAmount);
     ("tokenAmount", Js.Num tokenAmount);
     ("price", Js.Num (paymentAmount / tokenAmount));
     ("supplyBefore", Js.Num currentSupply);
     ("supplyAfter", Js.Num newSupply);
     ("timestamp", Js.Num (Js.ms t4));
     ("txId", Js.Str txId)] in
  call (addBlock tx) ;;
  returns (mkSellResult true txId tokenAmount paymentAmount (paymentAmount / tokenAmount)
             newSupply (balance sellerBalance - tokenAmount)).

(** [getSupply()]: [supplyData ? supplyData.supply : 0] on [loadData]. *)
Definition getSupply (s : Store) : float :=
  match cs_supply s !! supply_key with
  | Some supplyData => sd_supply supplyData
  | None => 0
  end.

(** [getCurrentPrice()] *)
Definition getCurrentPrice (s : Store) : outcome float :=
  let currentSupply :=
    match cs_supply s !! supply_key with
    | Some supplyData => sd_supply supplyData
    | None => 0
    end in
  calculatePrice Math_pow Math_exp c currentSupply.

(** [getPaymentReserve()] *)
Definition getPaymentReserve (s : Store) : float :=
  match cs_payments s !! payments_key with
  | Some paymentData => pd_total paymentData
  | None => 0
  end.

End Contracts.

End BondingCurve.


(** ** Wish list (smart-contracts/wishlist.js) *)

Module WishList.

Record Item := mkItem {
  item_id : string;
  item_name : string;
  item_description : string;
  item_url : Js.value;
  item_price : Js.value;
  item_priority : string;
  item_status : string;
  item_reservedBy : option string;   (* [null] or the reserver *)
  item_reservedAt : option Z;        (* [null] or a [Date.now()] *)
  item_createdAt : Z;
  item_metadata : Js.value;
}.

(** The record under [wishlist:<userId>]. *)
Record List := mkList {
  wl_userId : string;
  wl_items : list Item;
  wl_createdAt : Z;
  wl_updatedAt : Z;
}.

Record Reservation := mkReservation {
  rv_itemId : string;
  rv_ownerId : string;
  rv_itemName : string;
  rv_reservedAt : Z;
  rv_status : string;
}.

(** The record under [reservations:<userId>]. *)
Record Reservations := mkReservations {
  rs_userId : string;
  rs_reservations : list Reservation;
  rs_createdAt : Z;
  rs_updatedAt : Z;
}.

(** The two key families the contract uses never overlap ([wishlist:...]
    against [reservations:...]), so the store is a pair of typed tables. *)
Record Store := mkStore {
  wishlists : gmap string List;
  reservations : gmap string Reservations;
}.

Definition wishlist_table : Table Store List :=
  mkTable wishlists (fun m s => mkStore m (reservations s)).
Definition reservations_table : Table Store Reservations :=
  mkTable reservations (fun m s => mkStore (wishlists s) m).

(** [`wishlist:${userId}`] and [`reservations:${userId}`] *)
Definition wishlist_key (u : string) : string := "wishlist:" +:+ u.
Definition reservations_key (u : string) : string := "reservations:" +:+ u.

(** The [item] argument of [addItem]. *)
Record ItemInput := mkItemInput {
  in_name : string;
  in_description : string;
  in_url : Js.value;
  in_price : Js.value;
  in_priority : string;
  in_metadata : Js.value;
}.

Record AddItemArgs := mkAddItemArgs {
  a_userId : string;
  a_item : option ItemInput;
}.

Record AddItemResult := mkAddItemResult {
  ar_success : bool;
  ar_item : Item;
  ar_itemId : string;
  ar_totalItems : nat;
}.

(** [addItemProc] *)
Definition addItemProc (args : AddItemArgs) : M Store AddItemResult :=
  let userId := a_userId args in
  match a_item args with
  | None => throw (MissingRequiredFields "userId, item")
  | Some item =>
  if negb (Js.truthy userId) then throw (MissingRequiredFields "userId, item") else
  if negb (Js.truthy (in_name item)) || negb (Js.truthy (in_description item))
  then throw MissingItemFields else
  stored <- get wishlist_table (wishlist_key userId) ;;
  wishList <- match stored with
              | Some wl => ret wl
              | None => t1 <- now ;; t2 <- now ;; ret (mkList userId [] t1 t2)
              end ;;
  t3 <- now ;;
  rnd <- random ;;
  t4 <- now ;;
  let newItem := mkItem
    ("item-" +:+ pretty t3 +:+ "-" +:+ rnd)
    (in_name item)
    (in_description item)
    (Js.or_else (in_url item) Js.Null)
    (Js.or_else (in_price item) Js.Null)
    (if Js.truthy (in_priority item) then in_priority item else "medium")
    "available"
    None
    None
    t4
    (Js.or_else (in_metadata item) (Js.Obj [])) in
  t5 <- now ;;
  let wishList :=
    mkList (wl_userId wishList) (wl_items wishList ++ [newItem])
           (wl_createdAt wishList) t5 in
  saveData wishlist_table (wishlist_key userId) wishList false ;;
  t6 <- now ;;
  addBlock (Js.literal
    [("type", Js.Str "wishlist-item-added");
     ("userId", Js.Str userId);
     ("itemId", Js.Str (item_id newItem));
     ("itemName", Js.Str (item_name newItem));
     ("timestamp", Js.Num (Js.ms t6))]) ;;
  ret (mkAddItemResult true newItem (item_id newItem) (length (wl_items wishList)))
  end.

Record ReserveArgs := mkReserveArgs {
  r_ownerId : string;
  r_itemId : string;
  r_reservedBy : string;
}.

Record ReserveResult := mkReserveResult {
  rr_success : bool;
  rr_item : Item;
  rr_ownerId : string;
  rr_reservedBy : string;
  rr_reservedAt : option Z;
}.

(** [wishList.items.findIndex((item) => item.id === itemId)] together with
    [wishList.items[itemIndex]]; [None] stands for index [-1]. *)
Definition findItem (itemId : string) (items : list Item) : option (nat * Item) :=
  list_find (fun item => item_id item = itemId) items.

(** [reserveItemProc]. The found [item] is an element of [wishList.items]:
    assigning its fields changes the list that is saved. *)
Definition reserveItemProc (args : ReserveArgs) : M Store ReserveResult :=
  let ownerId := r_ownerId args in
  let itemId := r_itemId args in
  let reservedBy := r_reservedBy args in
  if negb (Js.truthy ownerId) || negb (Js.truthy itemId)
     || negb (Js.truthy reservedBy)
  then throw (MissingRequiredFields "ownerId, itemId, reservedBy") else
  wishList <- get wishlist_table (wishlist_key ownerId) ;;
  match wishList with
  | None => throw (WishListNotFound ownerId)
  | Some wishList =>
  match findItem itemId (wl_items wishList) with
  | None => throw (ItemNotFound itemId)
  | Some (itemIndex, item) =>
  if negb (String.eqb (item_status item) "available")
  then throw (ItemNotAvailable (item_status item)) else
  if Js.truthy_opt (item_reservedBy item) then throw ItemAlreadyReserved else
  if String.eqb ownerId reservedBy then throw CannotReserveOwnItem else
  t1 <- now ;;
  let item := mkItem (item_id item) (item_name item) (item_description item)
    (item_url item) (item_price item) (item_priority item)
    "reserved" (Some reservedBy) (Some t1)
    (item_createdAt item) (item_metadata item) in
  t2 <- now ;;
  let wishList :=
    mkList (wl_userId wishList) (<[itemIndex := item]> (wl_items wishList))
           (wl_createdAt wishList) t2 in
  saveData wishlist_table (wishlist_key ownerId) wishList false ;;
  stored <- get reservations_table (reservations_key reservedBy) ;;
  reserverReservations <-
    match stored with
    | Some rs => ret rs
    | None => t3 <- now ;; t4 <- now ;; ret (mkReservations reservedBy [] t3 t4)
    end ;;
  t5 <- now ;;
  t6 <- now ;;
  let reserverReservations :=
    mkReservations (rs_userId reserverReservations)
      (rs_reservations reserverReservations
         ++ [mkReservation itemId ownerId (item_name item) t5 "reserved"])
      (rs_createdAt reserverReservations) t6 in
  saveData reservations_table (reservations_key reservedBy)
           reserverReservations false ;;
  t7 <- now ;;
  addBlock (Js.literal
    [("type", Js.Str "wishlist-item-reserved");
     ("ownerId", Js.Str ownerId);
     ("itemId", Js.Str itemId);
     ("reservedBy", Js.Str reservedBy);
     ("itemName", Js.Str (item_name item));
     ("timestamp", Js.Num (Js.ms t7))]) ;;
  ret (mkReserveResult true item ownerId reservedBy (item_reservedAt item))
  end
  end.

Record UpdateStatusArgs := mkUpdateStatusArgs {
  u_userId : string;
  u_itemId : string;
  u_status : string;
}.

Record UpdateStatusResult := mkUpdateStatusResult {
  ur_success : bool;
  ur_item : Item;
  ur_oldStatus : string;
  ur_newStatus : string;
}.

Definition validStatuses : list string :=
  ["available"; "reserved"; "fulfilled"; "cancelled"].

Definition set_status (status : string) (item : Item) : Item :=
  mkItem (item_id item) (item_name item) (item_description item)
    (item_url item) (item_price item) (item_priority item)
    status (item_reservedBy item) (item_reservedAt item)
    (item_createdAt item) (item_metadata item).

Definition clear_reservation (item : Item) : Item :=
  mkItem (item_id item) (item_name item) (item_description item)
    (item_url item) (item_price item) (item_priority item)
    (item_status item) None None
    (item_createdAt item) (item_metadata item).

Definition set_reservation_status (status : string) (rv : Reservation) : Reservation :=
  mkReservation (rv_itemId rv) (rv_ownerId rv) (rv_itemName rv)
    (rv_reservedAt rv) status.

(** [reserverReservations.reservations.find((r) => r.itemId === itemId)] *)
Definition findReservation (itemId : string) (l : list Reservation)
  : option (nat * Reservation) :=
  list_find (fun rv => rv_itemId rv = itemId) l.

(** The block of [updateStatusProc] that tells the reserver: runs only for
    a truthy [item.reservedBy]. *)
Definition notify_reserver (itemId status : string) (item : Item) : M Store unit :=
  match item_reservedBy item with
  | Some reserver =>
      if Js.truthy reserver then
        reserverReservations <- get reservations_table (reservations_key reserver) ;;
        match reserverReservations with
        | Some rs =>
            match findReservation itemId (rs_reservations rs) with
            | Some (j, reservation) =>
                t <- now ;;
                saveData reservations_table (reservations_key reserver)
                  (mkReservations (rs_userId rs)
                     (<[j := set_reservation_status status reservation]>
                        (rs_reservations rs))
                     (rs_createdAt rs) t)
                  false
            | None => ret tt
            end
        | None => ret tt
        end
      else ret tt
  | None => ret tt
  end.

(** [updateStatusProc] *)
Definition updateStatusProc (args : UpdateStatusArgs) : M Store UpdateStatusResult :=
  let userId := u_userId args in
  let itemId := u_itemId args in
  let status := u_status args in
  if negb (Js.truthy userId) || negb (Js.truthy itemId) || negb (Js.truthy status)
  then throw (MissingRequiredFields "userId, itemId, status") else
  if negb (bool_decide (status ∈ validStatuses)) then throw InvalidStatus else
  wishList <- get wishlist_table (wishlist_key userId) ;;
  match wishList with
  | None => throw (WishListNotFound userId)
  | Some wishList =>
  match findItem itemId (wl_items wishList) with
  | None => throw (ItemNotFound itemId)
  | Some (itemIndex, item) =>
  let oldStatus := item_status item in
  let item := set_status status item in
  t1 <- now ;;
  item <-
    (if String.eqb status "fulfilled" || String.eqb status "cancelled" then
       notify_reserver itemId status item ;;
       ret (clear_reservation item)
     else ret item) ;;
  let wishList :=
    mkList (wl_userId wishList) (<[itemIndex := item]> (wl_items wishList))
           (wl_createdAt wishList) t1 in
  saveData wishlist_table (wishlist_key userId) wishList false ;;
  t2 <- now ;;
  addBlock (Js.literal
    [("type", Js.Str "wishlist-status-updated");
     ("userId", Js.Str userId);
     ("itemId", Js.Str itemId);
     ("oldStatus", Js.Str oldStatus);
     ("newStatus", Js.Str status);
     ("timestamp", Js.Num (Js.ms t2))]) ;;
  ret (mkUpdateStatusResult true item oldStatus status)
  end
  end.

(** [(await getReservations(userId)).reservations] *)
Definition getReservations (s : Store) (userId : string) : list Reservation :=
  match reservations s !! reservations_key userId with
  | Some rs => rs_reservations rs
  | None => []
  end.

(** *** The query [getWishListProc] *)

Record GetWishListArgs := mkGetWishListArgs {
  gw_userId : string;
  gw_statusFilter : option string;    (* [null] or a status *)
}.

Record WishListView := mkWishListView {
  wv_userId : string;
  wv_items : list Item;
  wv_totalItems : nat;
  wv_totalAllItems : option nat;      (* absent when the user has no list *)
  wv_createdAt : Z;
  wv_updatedAt : Z;
}.

(** The names every object inherits from [Object.prototype]: looked up in
    the literal [priorityOrder] they yield a function or an object, not
    [undefined]. *)
Definition inherited_names : list string := Js.inherited_names.

(** [priorityOrder[p] || 2] for [priorityOrder = { high: 3, medium: 2, low: 1 }],
    as the number it is in a subtraction; [None] is NaN, which an inherited
    name gives. *)
Definition priorityOrder (p : string) : option Z :=
  if String.eqb p "high" then Some 3%Z
  else if String.eqb p "medium" then Some 2%Z
  else if String.eqb p "low" then Some 1%Z
  else if bool_decide (p ∈ inherited_names) then None
  else Some 2%Z.

(** The comparator passed to [items.sort]; [None] is NaN. *)
Definition compare_items (a b : Item) : option Z :=
  match priorityOrder (item_priority b), priorityOrder (item_priority a) with
  | Some pb, Some pa =>
      let priorityDiff := (pb - pa)%Z in
      if negb (priorityDiff =? 0)%Z then Some priorityDiff
      else Some (item_createdAt a - item_createdAt b)%Z
  | _, _ => None
  end.

(** [items.sort(comparator)]. The sort of the language is stable and reads a
    NaN from the comparator as [+0]. Where the comparator is consistent (no
    priority is an inherited name) the result is the stable ordering,
    computed here by insertion; elsewhere the language leaves the order to
    the implementation. *)
Definition precedes (a b : Item) : bool :=
  match compare_items a b with
  | Some v => (v <=? 0)%Z
  | None => true
  end.

Fixpoint insert_item (a : Item) (l : list Item) : list Item :=
  match l with
  | [] => [a]
  | b :: l' => if precedes a b then a :: b :: l' else b :: insert_item a l'
  end.

Fixpoint sort_items (l : list Item) : list Item :=
  match l with
  | [] => []
  | a :: l' => insert_item a (sort_items l')
  end.

Section Query.
Local Open Scope contract_scope.

(** [getWishListProc] *)
Definition getWishListProc (args : GetWishListArgs) : MF Store WishListView :=
  let userId := gw_userId args in
  let statusFilter := gw_statusFilter args in
  if negb (Js.truthy userId) then fails (MissingRequiredField "userId") else
  wishList <- call (get wishlist_table (wishlist_key userId)) ;;
  match wishList with
  | None =>
      t1 <- call now ;;
      t2 <- call now ;;
      returns (mkWishListView userId [] 0 None t1 t2)
  | Some wishList =>
      let items := wl_items wishList in
      let items :=
        match statusFilter with
        | Some status =>
            if Js.truthy status
            then filter (fun item => item_status item = status) items
            else items
        | None => items
        end in
      let items := sort_items items in
      returns (mkWishListView (wl_userId wishList) items (length items)
                 (Some (length (wl_items wishList)))
                 (wl_createdAt wishList) (wl_updatedAt wishList))
  end.

End Query.

End WishList.

(** ** Chat (smart-contracts/chat.js) *)

Module ChatAgent.

Record Message := mkMessage {
  msg_id : string;
  msg_threadId : string;
  msg_role : string;
  msg_content : string;
  msg_timestamp : Z;
  msg_metadata : Js.value;
}.

(** The record under [thread:<threadId>]. *)
Record Thread := mkThread {
  th_threadId : string;
  th_userId : string;
  th_messages : list Message;
  th_createdAt : Z;
  th_updatedAt : Z;
  th_context : Js.value;
}.

(** The record under [user:<userId>:threads]. *)
Record UserThreads := mkUserThreads {
  ut_threads : list string;
}.

(** [thread:...] keys and [user:...] keys never overlap, so the store is a
    pair of typed tables. *)
Record Store := mkStore {
  threads : gmap string Thread;
  userThreads : gmap string UserThreads;
}.

Definition thread_table : Table Store Thread :=
  mkTable threads (fun m s => mkStore m (userThreads s)).
Definition userThreads_table : Table Store UserThreads :=
  mkTable userThreads (fun m s => mkStore (threads s) m).

(** [`thread:${threadId}`] and [`user:${userId}:threads`] *)
Definition thread_key (t : string) : string := "thread:" +:+ t.
Definition userThreads_key (u : string) : string := "user:" +:+ u +:+ ":threads".

Record SendArgs := mkSendArgs {
  s_threadId : string;
  s_userId : string;
  s_role : string;
  s_content : string;
  s_metadata : Js.value;
}.

Record SendResult := mkSendResult {
  sr_success : bool;
  sr_message : Message;
  sr_threadId : string;
  sr_messageCount : nat;
}.

Definition roles : list string := ["user"; "assistant"; "system"].

(** [sendMessageProc] *)
Definition sendMessageProc (args : SendArgs) : M Store SendResult :=
  let threadId := s_threadId args in
  let userId := s_userId args in
  let role := s_role args in
  let content := s_content args in
  let metadata := Js.default_to (Js.Obj []) (s_metadata args) in
  if negb (Js.truthy threadId) || negb (Js.truthy userId)
     || negb (Js.truthy role) || negb (Js.truthy content)
  then throw (MissingRequiredFields "threadId, userId, role, content") else
  if negb (bool_decide (role ∈ roles)) then throw InvalidRole else
  stored <- get thread_table (thread_key threadId) ;;
  thread <- match stored with
            | Some th => ret th
            | None =>
                t1 <- now ;; t2 <- now ;;
                ret (mkThread threadId userId [] t1 t2 (Js.Obj []))
            end ;;
  if negb (String.eqb (th_userId thread) userId) then throw ThreadNotOwned else
  t3 <- now ;;
  rnd <- random ;;
  t4 <- now ;;
  let message :=
    mkMessage ("msg-" +:+ pretty t3 +:+ "-" +:+ rnd) threadId role content t4
              metadata in
  t5 <- now ;;
  let thread :=
    mkThread (th_threadId thread) (th_userId thread)
             (th_messages thread ++ [message])
             (th_createdAt thread) t5 (th_context thread) in
  saveData thread_table (thread_key threadId) thread false ;;
  stored <- get userThreads_table (userThreads_key userId) ;;
  let userThreads := match stored with
                     | Some ut => ut
                     | None => mkUserThreads []
                     end in
  (if negb (bool_decide (threadId ∈ ut_threads userThreads)) then
     saveData userThreads_table (userThreads_key userId)
              (mkUserThreads (ut_threads userThreads ++ [threadId])) false
   else ret tt) ;;
  addBlock (Js.literal
    [("type", Js.Str "chat-message");
     ("threadId", Js.Str threadId);
     ("userId", Js.Str userId);
     ("messageId", Js.Str (msg_id message));
     ("role", Js.Str role);
     ("timestamp", Js.Num (Js.ms (msg_timestamp message)))]) ;;
  ret (mkSendResult true message threadId (length (th_messages thread))).

Record GetArgs := mkGetArgs {
  g_threadId : string;
  g_userId : string;
  g_limit : option Z;     (* [null] or an integral number *)
}.

Record Conversation := mkConversation {
  cv_threadId : string;
  cv_userId : string;
  cv_messages : list Message;
  cv_context : Js.value;
  cv_createdAt : Z;
  cv_updatedAt : Z;
  cv_messageCount : nat;
  cv_totalMessages : nat;
}.

(** [[...messages].sort((a, b) => a.timestamp - b.timestamp)]. The sort of
    the language is stable; on integral timestamps the comparator is a total
    preorder, so the result is the stable ordering by timestamp, computed
    here by insertion. *)
Fixpoint insert_by_timestamp (m : Message) (l : list Message) : list Message :=
  match l with
  | [] => [m]
  | m' :: l' =>
      if (msg_timestamp m <=? msg_timestamp m')%Z then m :: m' :: l'
      else m' :: insert_by_timestamp m l'
  end.

Fixpoint sort_by_timestamp (l : list Message) : list Message :=
  match l with
  | [] => []
  | m :: l' => insert_by_timestamp m (sort_by_timestamp l')
  end.

(** [!msg.timestamp || !msg.role || !msg.content] *)
Definition malformed (m : Message) : bool :=
  negb (Js.truthy_int (msg_timestamp m))
  || negb (Js.truthy (msg_role m))
  || negb (Js.truthy (msg_content m)).

(** The loop over [sortedMessages] with the set [messageIds]. *)
Fixpoint check_messages (messageIds : gset string) (l : list Message)
  : outcome unit :=
  match l with
  | [] => Ok tt
  | m :: l' =>
      if bool_decide (msg_id m ∈ messageIds) then Throw (DuplicateMessageId (msg_id m))
      else if malformed m then Throw (InvalidMessageFormat (msg_id m))
      else check_messages ({[msg_id m]} ∪ messageIds) l'
  end.

(** [a.slice(start)] for an integral [start]: a negative [start] counts from
    the end. *)
Definition slice {A} (start : Z) (a : list A) : list A :=
  let len := Z.of_nat (length a) in
  let from := if (start <? 0)%Z then Z.max (len + start) 0 else Z.min start len in
  drop (Z.to_nat from) a.

(** [getConversationProc] *)
Definition getConversationProc (args : GetArgs) : M Store Conversation :=
  let threadId := g_threadId args in
  let userId := g_userId args in
  let limit := g_limit args in
  if negb (Js.truthy threadId) || negb (Js.truthy userId)
  then throw (MissingRequiredFields "threadId, userId") else
  thread <- get thread_table (thread_key threadId) ;;
  match thread with
  | None => throw (ThreadNotFound threadId)
  | Some thread =>
  if negb (String.eqb (th_userId thread) userId) then throw ThreadNotOwned else
  let messages := th_messages thread in
  let sortedMessages := sort_by_timestamp messages in
  match check_messages ∅ sortedMessages with
  | Throw e => throw e
  | Ok _ =>
  let limitedMessages :=
    match limit with
    | Some l => if Js.truthy_int l then slice (- l) sortedMessages else sortedMessages
    | None => sortedMessages
    end in
  ret (mkConversation threadId userId limitedMessages
         (Js.or_else (th_context thread) (Js.Obj []))
         (th_createdAt thread) (th_updatedAt thread)
         (length messages) (length messages))
  end
  end.

(** [getUserThreads(userId)] *)
Definition getUserThreads (s : Store) (userId : string) : list string :=
  match userThreads s !! userThreads_key userId with
  | Some ut => ut_threads ut
  | None => []
  end.

(** *** The conversation context *)

(** [mergeContext(target, source)] of [updateContextProc]: every key of
    [source] is assigned into [target]; where both hold a plain object (not
    [null], not an array) under the key, the two are merged into a copy of
    the target's. This is the merge for a [source] whose keys, at every
    depth, are keys of the model of objects: distinct, not integer-like and
    not inherited from [Object.prototype] (an own [__proto__] key of a
    parsed object would be assigned to the prototype). *)
Fixpoint merge_into (target : Js.object) (source : Js.value) {struct source}
  : Js.object :=
  match source with
  | Js.Obj fields =>
      (fix assign (target : Js.object) (fields : list (string * Js.value))
           {struct fields} : Js.object :=
         match fields with
         | [] => target
         | (key, v) :: rest =>
             assign
               (match v, Js.get key target with
                | Js.Obj _, Js.Obj inner =>
                    Js.set key (Js.Obj (merge_into inner v)) target
                | _, _ => Js.set key v target
                end)
               rest
         end) target fields
  | _ => target
  end.

Definition mergeContext (target source : Js.object) : Js.object :=
  merge_into target (Js.Obj source).

(** [mergeContext(thread.context || {}, context)] as the context the thread
    is saved with, for a thread whose context is an object or falsy, as the
    contract creates and saves it. A stored string, number, [true] or array
    is outside the model (the assignments of [mergeContext] throw on the
    first three and add properties to an array): the last case of the match
    is not a statement about the code. *)
Definition merged_context (stored : Js.value) (context : Js.object) : Js.value :=
  match Js.or_else stored (Js.Obj []) with
  | Js.Obj target => Js.Obj (mergeContext target context)
  | other => other
  end.

Record ContextArgs := mkContextArgs {
  c_threadId : string;
  c_userId : string;
  c_context : option Js.object;       (* [null] or a plain object *)
}.

Record ContextResult := mkContextResult {
  cr_success : bool;
  cr_threadId : string;
  cr_context : Js.value;
}.

(** [updateContextProc] *)
Definition updateContextProc (args : ContextArgs) : M Store ContextResult :=
  let threadId := c_threadId args in
  let userId := c_userId args in
  match c_context args with
  | None => throw (MissingRequiredFields "threadId, userId, context")
  | Some context =>
  if negb (Js.truthy threadId) || negb (Js.truthy userId)
  then throw (MissingRequiredFields "threadId, userId, context") else
  stored <- get thread_table (thread_key threadId) ;;
  thread <- match stored with
            | Some th => ret th
            | None =>
                t1 <- now ;; t2 <- now ;;
                ret (mkThread threadId userId [] t1 t2 (Js.Obj []))
            end ;;
  if negb (String.eqb (th_userId thread) userId) then throw ThreadNotOwned else
  let merged := merged_context (th_context thread) context in
  t3 <- now ;;
  let thread :=
    mkThread (th_threadId thread) (th_userId thread) (th_messages thread)
             (th_createdAt thread) t3 merged in
  saveData thread_table (thread_key threadId) thread false ;;
  t4 <- now ;;
  addBlock (Js.literal
    [("type", Js.Str "chat-context-update");
     ("threadId", Js.Str threadId);
     ("userId", Js.Str userId);
     ("timestamp", Js.Num (Js.ms t4))]) ;;
  ret (mkContextResult true threadId merged)
  end.

Record CreatedThread := mkCreatedThread {
  ct_threadId : string;
  ct_userId : string;
  ct_createdAt : Z;
}.

(** Modelled from the spec: lib/contract.js is not part of the sources.
    [contract.execute(args)] invokes the procedure on a read view with the
    arguments and propagates its result or failure unchanged. *)
Definition execute {Args A} (procedure : Args -> M Store A) (args : Args)
  : M Store A :=
  procedure args.

(** [updateContext(threadId, userId, context)]: the execution identifier
    draws the clock. *)
Definition updateContext (threadId userId : string) (context : option Js.object)
  : M Store ContextResult :=
  t <- now ;;
  execute updateContextProc (mkContextArgs threadId userId context).

(** [createThread(userId, initialContext)] *)
Definition createThread (userId : string) (initialContext : Js.object)
  : M Store CreatedThread :=
  t1 <- now ;;
  rnd <- random ;;
  let threadId := "thread-" +:+ pretty t1 +:+ "-" +:+ rnd in
  (if (0 <? length initialContext)%nat
   then updateContext threadId userId (Some initialContext) ;; ret tt
   else ret tt) ;;
  t2 <- now ;;
  ret (mkCreatedThread threadId userId t2).

Record ThreadMetadata := mkThreadMetadata {
  tm_threadId : string;
  tm_userId : string;
  tm_messageCount : nat;
  tm_createdAt : Z;
  tm_updatedAt : Z;
  tm_context : Js.value;
}.

(** [getThreadMetadata(threadId, userId)]; [Ok None] is [null]. *)
Definition getThreadMetadata (s : Store) (threadId userId : string)
  : outcome (option ThreadMetadata) :=
  match threads s !! thread_key threadId with
  | None => Ok None
  | Some thread =>
      if negb (String.eqb (th_userId thread) userId) then Throw ThreadNotOwned
      else Ok (Some (mkThreadMetadata (th_threadId thread) (th_userId thread)
                       (length (th_messages thread))
                       (th_createdAt thread) (th_updatedAt thread)
                       (Js.or_else (th_context thread) (Js.Obj []))))
  end.

End ChatAgent.



(** ** Vocabulary of the statements *)

(** The six bundled token procedures, with their arguments. *)
Inductive procedure :=
| TokenTransfer (args : TransferArgs)
| TokenMint (args : MintArgs)
| TokenBurn (args : BurnArgs)
| PrivateTransfer (args : TransferArgs)
| PrivateMint (args : MintArgs)
| PrivateBurn (args : BurnArgs).

Definition run (p : procedure) : M (gmap string Balance) Js.object :=
  match p with
  | TokenTransfer args => Token.transferProc args
  | TokenMint args => Token.mintProc args
  | TokenBurn args => Token.burnProc args
  | PrivateTransfer args => PrivateToken.transferProc args
  | PrivateMint args => PrivateToken.mintProc args
  | PrivateBurn args => PrivateToken.burnProc args
  end.

(** Balance reads, balance writes and appended blocks of one execution. *)
Record Profile := mkProfile {
  p_reads : nat;
  p_writes : nat;
  p_blocks : nat;
}.

Definition profile_of (l : list event) : Profile :=
  mkProfile (reads l) (writes l) (appended l).

(** What each procedure does when it succeeds. *)
Definition profile (p : procedure) : Profile :=
  match p with
  | TokenTransfer _ => mkProfile 2 2 1
  | TokenMint _ | TokenBurn _ => mkProfile 1 1 1
  | PrivateTransfer _ => mkProfile 2 2 0
  | PrivateMint _ | PrivateBurn _ => mkProfile 1 1 0
  end.

(** The calls a run added to the log. *)
Definition events_since {S} (w w' : World S) : list event :=
  drop (length (events w)) (events w').

(** The blocks a run added to the chain. *)
Definition chain_since {S} (w w' : World S) : list block :=
  drop (length (chain w)) (chain w').

(** A positive amount, as a predicate on doubles: [0 < a]. *)
Definition is_positive (a : float) : bool := 0 <? a.

(** A world to run the examples in: empty chain, a clock that starts at
    1700000000000 ms and advances by one per draw. *)
Definition world0 {S} (s : S) : World S :=
  mkWorld s [] [] 0 (fun i => Z.of_nat i + 1700000000000)%Z (fun _ => "k3j9x2m1q").

(** alice holds 100, bob holds 0. *)
Definition alice_bob : gmap string Balance :=
  <["balance:alice" := mkBalance (Some "alice") 100 (Some 0%Z)]>
  (<["balance:bob" := mkBalance (Some "bob") 0 (Some 0%Z)]> ∅).

(** The run of examples/example-usdc-bridge.js: mint 1000 to alice, alice
    sends 250 to bob, bob sends 100 back, alice burns 500. *)
Definition bridge_scenario : M (gmap string Balance) unit :=
  Token.mintProc (mkMintArgs "0xAlice456" 1000 (Js.Str "0xEthereumTxHash123...")) ;;
  Token.transferProc (mkTransferArgs "0xAlice456" "0xBob789" 250) ;;
  Token.transferProc (mkTransferArgs "0xBob789" "0xAlice456" 100) ;;
  Token.burnProc (mkBurnArgs "0xAlice456" 500 (Js.Str "0xEthereumWithdrawAddress...")) ;;
  ret tt.

(** *** Wish list *)

(** The run of examples/example-wishlist.js, in short: alice adds an item,
    bob reserves it, charlie tries to reserve it too. *)
Definition wishlist_scenario : M WishList.Store (outcome WishList.ReserveResult) :=
  added <- WishList.addItemProc
             (WishList.mkAddItemArgs "user-alice"
                (Some (WishList.mkItemInput "MacBook Pro"
                         "16-inch MacBook Pro with M3 chip"
                         (Js.Str "https://example.com/macbook") (Js.Num 2499)
                         "high" Js.Undefined))) ;;
  WishList.reserveItemProc
    (WishList.mkReserveArgs "user-alice" (WishList.ar_itemId added) "user-bob") ;;
  fun w =>
    (Ok (fst (WishList.reserveItemProc
                (WishList.mkReserveArgs "user-alice" (WishList.ar_itemId added)
                   "user-charlie") w)), w).

(** A required field of [reserveItem] is missing (falsy). *)
Definition reserve_missing_fields (args : WishList.ReserveArgs) : Prop :=
  Js.truthy (WishList.r_ownerId args) = false
  \/ Js.truthy (WishList.r_itemId args) = false
  \/ Js.truthy (WishList.r_reservedBy args) = false.

(** The owner has no wish list. *)
Definition wishlist_absent (s : WishList.Store) (ownerId : string) : Prop :=
  WishList.wishlists s !! WishList.wishlist_key ownerId = None.

(** The owner's wish list holds [item] under [itemId], at index [i]; it is
    the first item with that id. *)
Definition listed (s : WishList.Store) (ownerId itemId : string)
    (i : nat) (item : WishList.Item) : Prop :=
  exists wl,
    WishList.wishlists s !! WishList.wishlist_key ownerId = Some wl
    /\ WishList.findItem itemId (WishList.wl_items wl) = Some (i, item).

(** The owner has a wish list and no item of it has the id. *)
Definition item_not_listed (s : WishList.Store) (ownerId itemId : string) : Prop :=
  exists wl,
    WishList.wishlists s !! WishList.wishlist_key ownerId = Some wl
    /\ forall item, item ∈ WishList.wl_items wl -> WishList.item_id item <> itemId.

(** The five reasons the reservation is refused for. *)
Definition reserve_refused (s : WishList.Store) (args : WishList.ReserveArgs) : Prop :=
  let ownerId := WishList.r_ownerId args in
  let itemId := WishList.r_itemId args in
  wishlist_absent s ownerId
  \/ item_not_listed s ownerId itemId
  \/ (exists i item, listed s ownerId itemId i item
                     /\ WishList.item_status item <> "available")
  \/ (exists i item, listed s ownerId itemId i item
                     /\ Js.truthy_opt (WishList.item_reservedBy item) = true)
  \/ WishList.r_reservedBy args = ownerId.

(** The same two conditions as boolean tests on the store. *)
Definition reserve_missing_fieldsb (args : WishList.ReserveArgs) : bool :=
  negb (Js.truthy (WishList.r_ownerId args))
  || negb (Js.truthy (WishList.r_itemId args))
  || negb (Js.truthy (WishList.r_reservedBy args)).

Definition reserve_refusedb (s : WishList.Store) (args : WishList.ReserveArgs) : bool :=
  match WishList.wishlists s !! WishList.wishlist_key (WishList.r_ownerId args) with
  | None => true
  | Some wl =>
      match WishList.findItem (WishList.r_itemId args) (WishList.wl_items wl) with
      | None => true
      | Some (_, item) =>
          negb (String.eqb (WishList.item_status item) "available")
          || Js.truthy_opt (WishList.item_reservedBy item)
          || String.eqb (WishList.r_reservedBy args) (WishList.r_ownerId args)
      end
  end.



(** alice's wish list with one available item. *)
Definition macbook : WishList.Item :=
  WishList.mkItem "item-1" "MacBook Pro" "16-inch MacBook Pro with M3 chip"
    (Js.Str "https://example.com/macbook") (Js.Num 2499) "high"
    "available" None None 1700000000000%Z (Js.Obj []).

Definition alice_wishes : WishList.Store :=
  WishList.mkStore
    (<["wishlist:user-alice" :=
         WishList.mkList "user-alice" [macbook] 1700000000000%Z 1700000000000%Z]> ∅)
    ∅.

(** ... after bob has reserved the item. *)
Definition reserved_world : World WishList.Store :=
  snd (WishList.reserveItemProc
         (WishList.mkReserveArgs "user-alice" "item-1" "user-bob")
         (world0 alice_wishes)).

(** *** Chat *)

(** Nondecreasing timestamps. *)
Definition by_timestamp (a b : ChatAgent.Message) : Prop :=
  (ChatAgent.msg_timestamp a <= ChatAgent.msg_timestamp b)%Z.

(** A required field of [sendMessage] is missing (falsy). *)
Definition send_missing_fields (args : ChatAgent.SendArgs) : Prop :=
  Js.truthy (ChatAgent.s_threadId args) = false
  \/ Js.truthy (ChatAgent.s_userId args) = false
  \/ Js.truthy (ChatAgent.s_role args) = false
  \/ Js.truthy (ChatAgent.s_content args) = false.

(** Two messages share an id. *)
Definition duplicate_ids (l : list ChatAgent.Message) : Prop :=
  ~ NoDup (ChatAgent.msg_id <$> l).

(** Some message lacks a timestamp, a role or a content. *)
Definition some_malformed (l : list ChatAgent.Message) : Prop :=
  Exists (fun m => ChatAgent.malformed m = true) l.

(** The last [n] entries of a list. *)
Definition last_n {A} (n : nat) (l : list A) : list A :=
  drop (length l - n) l.

(** A user and the assistant exchange two messages in a new thread, then the
    conversation is read back. *)
Definition chat_scenario : M ChatAgent.Store ChatAgent.Conversation :=
  ChatAgent.sendMessageProc
    (ChatAgent.mkSendArgs "thread-1" "user-123" "user"
       "Hello! I need help with my project." (Js.Obj [])) ;;
  ChatAgent.sendMessageProc
    (ChatAgent.mkSendArgs "thread-1" "user-123" "assistant"
       "Could you tell me more?" (Js.Obj [])) ;;
  ChatAgent.getConversationProc (ChatAgent.mkGetArgs "thread-1" "user-123" None).

(** A thread of user-123 with three messages stored out of order. *)
Definition hello : ChatAgent.Message :=
  ChatAgent.mkMessage "msg-1" "thread-1" "user"
    "Hello! I need help with my project." 1700000000001%Z (Js.Obj []).
Definition reply : ChatAgent.Message :=
  ChatAgent.mkMessage "msg-2" "thread-1" "assistant"
    "Could you tell me more?" 1700000000005%Z (Js.Obj []).
Definition followup : ChatAgent.Message :=
  ChatAgent.mkMessage "msg-3" "thread-1" "user"
    "I am building a storage system." 1700000000009%Z (Js.Obj []).

Definition one_thread : ChatAgent.Store :=
  ChatAgent.mkStore
    (<["thread:thread-1" :=
         ChatAgent.mkThread "thread-1" "user-123" [reply; followup; hello]
           1700000000000%Z 1700000000009%Z (Js.Obj [])]> ∅)
    (<["user:user-123:threads" := ChatAgent.mkUserThreads ["thread-1"]]> ∅).

Definition no_threads : ChatAgent.Store := ChatAgent.mkStore ∅ ∅.



(** ** Vocabulary of the further properties *)

Local Close Scope float_scope.

(** The addresses a procedure acts on. *)
Definition parties (p : procedure) : list string :=
  match p with
  | TokenTransfer a | PrivateTransfer a => [t_from a; t_to a]
  | TokenMint a | PrivateMint a => [m_to a]
  | TokenBurn a | PrivateBurn a => [b_from a]
  end.

(** The errors the guards of the token procedures throw. *)
Definition guard_error (e : error) : Prop :=
  match e with
  | TransferAmountMustBePositive | MintAmountMustBePositive
  | BurnAmountMustBePositive | InsufficientBalance _ => True
  | _ => False
  end.

(** Whether the procedure is one of the private token. *)
Definition is_private (p : procedure) : bool :=
  match p with
  | PrivateTransfer _ | PrivateMint _ | PrivateBurn _ => true
  | _ => false
  end.


(** The [type] of the block a procedure appends: that of its [tx], which
    the spread puts in place of the tag of the literal. The private token
    appends no block. *)
Definition block_type (p : procedure) : option string :=
  match p with
  | TokenTransfer _ => Some "transfer"
  | TokenMint _ => Some "mint"
  | TokenBurn _ => Some "burn"
  | _ => None
  end.

(** Whether a run returned. *)
Definition succeeded {A} (o : outcome A) : bool :=
  match o with
  | Ok _ => true
  | Throw _ => false
  end.


(** No stored balance is below zero. *)
Definition no_negative_balance (s : gmap string Balance) : Prop :=
  forall key b, s !! key = Some b -> (balance b <? 0)%float = false.

(** Whether a run with errors of its own returned. *)
Definition returned {A} (r : result A) : bool :=
  match r with Returns _ => true | Fails _ => false end.

(** The curve of a token with no record yet. *)
Definition new_curve : BondingCurve.Store := BondingCurve.mkStore ∅ ∅ ∅.

(** alice holds all 100 tokens sold so far; the reserve holds 5. *)
Definition alice_holds_100 : BondingCurve.Store :=
  BondingCurve.mkStore
    (<["balance:alice" := mkBalance (Some "alice") 100 (Some 1700000000000%Z)]> ∅)
    (<["bonding-curve:supply" :=
         BondingCurve.mkSupplyData 100 (Some 1700000000000%Z)]> ∅)
    (<["bonding-curve:payments" :=
         BondingCurve.mkPaymentData 5 (Some 1700000000000%Z)]> ∅).

(** The items of a user's wish list, none for a user without a list. *)
Definition items_of (s : WishList.Store) (userId : string) : list WishList.Item :=
  match WishList.wishlists s !! WishList.wishlist_key userId with
  | Some wl => WishList.wl_items wl
  | None => []
  end.

(** The input of [addItem] lacks what the two guards ask for. *)
Definition add_refused (args : WishList.AddItemArgs) : Prop :=
  Js.truthy (WishList.a_userId args) = false
  \/ match WishList.a_item args with
     | None => True
     | Some item =>
         Js.truthy (WishList.in_name item) = false
         \/ Js.truthy (WishList.in_description item) = false
     end.

(** The item as a reservation leaves it. *)
Definition reserve_item (reservedBy : string) (reservedAt : Z) (item : WishList.Item)
  : WishList.Item :=
  WishList.mkItem (WishList.item_id item) (WishList.item_name item)
    (WishList.item_description item) (WishList.item_url item)
    (WishList.item_price item) (WishList.item_priority item)
    "reserved" (Some reservedBy) (Some reservedAt)
    (WishList.item_createdAt item) (WishList.item_metadata item).

(** The fields [updateStatus] asks for. *)
Definition update_missing_fieldsb (args : WishList.UpdateStatusArgs) : bool :=
  negb (Js.truthy (WishList.u_userId args))
  || negb (Js.truthy (WishList.u_itemId args))
  || negb (Js.truthy (WishList.u_status args)).

(** alice's list with three items, in the order they were added. *)
Definition books : WishList.Item :=
  WishList.mkItem "item-2" "Books" "A box of books" Js.Null Js.Null "low"
    "available" None None 1700000000001%Z (Js.Obj []).

Definition headphones : WishList.Item :=
  WishList.mkItem "item-3" "Headphones" "Noise-cancelling headphones" Js.Null
    (Js.Num 399) "medium" "reserved" (Some "user-bob") (Some 1700000000003%Z)
    1700000000002%Z (Js.Obj []).

Definition three_wishes : WishList.Store :=
  WishList.mkStore
    (<["wishlist:user-alice" :=
         WishList.mkList "user-alice" [books; headphones; macbook]
           1700000000000%Z 1700000000003%Z]> ∅)
    ∅.

(** The priority is not one of the names every object inherits. *)
Definition ordinary_priority (item : WishList.Item) : Prop :=
  WishList.item_priority item ∉ WishList.inherited_names.

(** The rank of a priority: high 3, medium 2, low 1, anything else 2. *)
Definition rank (item : WishList.Item) : Z :=
  if String.eqb (WishList.item_priority item) "high" then 3
  else if String.eqb (WishList.item_priority item) "low" then 1
  else 2.

(** Higher rank first, and the older item first among equal ranks. *)
Definition by_priority (a b : WishList.Item) : Prop :=
  (rank b < rank a)%Z
  \/ (rank a = rank b /\ (WishList.item_createdAt a <= WishList.item_createdAt b)%Z).

(** The items the query keeps. *)
Definition selected (statusFilter : option string) (items : list WishList.Item)
  : list WishList.Item :=
  match statusFilter with
  | Some status =>
      if Js.truthy status
      then filter (fun item => WishList.item_status item = status) items
      else items
  | None => items
  end.

(** The messages of a thread, none for a thread that is not stored. *)
Definition messages_of (s : ChatAgent.Store) (threadId : string)
  : list ChatAgent.Message :=
  match ChatAgent.threads s !! ChatAgent.thread_key threadId with
  | Some th => ChatAgent.th_messages th
  | None => []
  end.

(** The fields [sendMessage] asks for. *)
Definition send_missing_fieldsb (args : ChatAgent.SendArgs) : bool :=
  negb (Js.truthy (ChatAgent.s_threadId args))
  || negb (Js.truthy (ChatAgent.s_userId args))
  || negb (Js.truthy (ChatAgent.s_role args))
  || negb (Js.truthy (ChatAgent.s_content args)).

(** The stored thread does not keep the caller out: there is none, or the
    caller owns it. *)
Definition may_write (s : ChatAgent.Store) (threadId userId : string) : Prop :=
  match ChatAgent.threads s !! ChatAgent.thread_key threadId with
  | Some th => ChatAgent.th_userId th = userId
  | None => True
  end.

(** The context of a thread, [{}] for a thread that is not stored. *)
Definition context_of (s : ChatAgent.Store) (threadId : string) : Js.value :=
  match ChatAgent.threads s !! ChatAgent.thread_key threadId with
  | Some th => ChatAgent.th_context th
  | None => Js.Obj []
  end.

(** What the merge assigns under [key] when the source holds [v] there. *)
Definition merged_value (v old : Js.value) : Js.value :=
  match v, old with
  | Js.Obj s, Js.Obj t => Js.Obj (ChatAgent.mergeContext t s)
  | _, _ => v
  end.

(** The identifier [createThread] gives the next thread in a world. *)
Definition next_thread_id (w : World ChatAgent.Store) : string :=
  "thread-" +:+ pretty (clock w (tick w)) +:+ "-" +:+ entropy w (S (tick w)).

(** user-123 asks once more in the stored thread. *)
Definition ask_more : ChatAgent.SendArgs :=
  ChatAgent.mkSendArgs "thread-1" "user-123" "user" "Which cipher is used?" (Js.Obj []).

(** The message of a successful send. *)
Definition sent_message (r : outcome ChatAgent.SendResult * World ChatAgent.Store)
  : option ChatAgent.Message :=
  match fst r with
  | Ok res => Some (ChatAgent.sr_message res)
  | Throw _ => None
  end.

(** A stored context ... *)
Definition profile_context : Js.object :=
  [("user", Js.Obj [("name", Js.Str "alice"); ("language", Js.Str "en")]);
   ("topic", Js.Str "storage")].

(** ... and an update of it. *)
Definition language_update : Js.object :=
  [("user", Js.Obj [("language", Js.Str "fr")]); ("urgent", Js.Bool true)].

(** * Properties *)

Local Close Scope float_scope.

(** ** Comparisons on doubles *)

Lemma SFcompare_antisym x y :
  SFcompare y x = option_map CompOpp (SFcompare x y).
Proof.
  destruct x as [sx|sx| |sx mx ex], y as [sy|sy| |sy my ey]; simpl;
    try reflexivity;
    try (destruct sx; reflexivity); try (destruct sy; reflexivity);
    try (destruct sx, sy; reflexivity).
  change (Pos.compare_cont Eq my mx) with (my ?= mx)%positive.
  change (Pos.compare_cont Eq mx my) with (mx ?= my)%positive.
  rewrite (Z.compare_antisym ex ey), (Pos.compare_antisym mx my).
  destruct sx, sy; simpl; try reflexivity;
    destruct (ex ?= ey)%Z; simpl; try reflexivity;
    destruct (mx ?= my)%positive; reflexivity.
Qed.

(** A positive amount does not satisfy [amount <= 0]. *)
Lemma positive_not_leb_zero (a : float) :
  is_positive a = true -> (a <=? 0)%float = false.
Proof.
  unfold is_positive. rewrite FloatAxioms.ltb_spec, FloatAxioms.leb_spec.
  unfold SFltb, SFleb. rewrite (SFcompare_antisym (Prim2SF 0) (Prim2SF a)).
  destruct (SFcompare (Prim2SF 0) (Prim2SF a)) as [[]|]; simpl; congruence.
Qed.

(** [a <= b] excludes [b < a]. *)
Lemma leb_not_ltb (a b : float) : (a <=? b)%float = true -> (b <? a)%float = false.
Proof.
  rewrite FloatAxioms.ltb_spec, FloatAxioms.leb_spec.
  unfold SFltb, SFleb. rewrite (SFcompare_antisym (Prim2SF a) (Prim2SF b)).
  destruct (SFcompare (Prim2SF a) (Prim2SF b)) as [[]|]; simpl; congruence.
Qed.

(** Away from NaN, [a <= 0] is the negation of [0 < a]. *)
Lemma leb_zero_not_positive (a : float) :
  is_nan a = false -> (a <=? 0)%float = negb (is_positive a).
Proof.
  unfold is_positive, is_nan. rewrite FloatAxioms.ltb_spec, FloatAxioms.leb_spec, FloatAxioms.eqb_spec.
  unfold SFltb, SFleb, SFeqb.
  rewrite (SFcompare_antisym (Prim2SF 0) (Prim2SF a)).
  change (Prim2SF 0) with (S754_zero false).
  destruct (Prim2SF a) as [s|s| |s m e]; simpl;
    try (destruct s; simpl; congruence); congruence.
Qed.

(** ** Keys *)

Lemma append_cancel_l (s a b : string) : s +:+ a = s +:+ b -> a = b.
Proof.
  induction s as [| c s IH]; intros H; [exact H |].
  injection H as H. auto.
Qed.

Lemma balance_key_inj (a b : string) : balance_key a = balance_key b -> a = b.
Proof. apply append_cancel_l. Qed.

(** ** Token procedures *)

Ltac run_proc :=
  cbn [bind get saveData addBlock now random ret throw log balances
       storage chain events tick clock entropy select update fst snd].
Tactic Notation "run_proc" "in" hyp(H) :=
  cbn [bind get saveData addBlock now random ret throw log balances
       storage chain events tick clock entropy select update fst snd] in H.

(** A transfer that passes both guards: the two writes, the block, the
    result. *)
Lemma transferProc_passes (args : TransferArgs) (w : World (gmap string Balance)) :
  (t_amount args <=? 0)%float = false ->
  (balance (or_zero (storage w !! balance_key (t_from args))) <? t_amount args)%float = false ->
  exists res d t1 t2,
    Token.transferProc args w
    = (Ok res,
       mkWorld
         (<[balance_key (t_to args) :=
              mkBalance (Some (t_to args))
                (balance (or_zero (storage w !! balance_key (t_to args))) + t_amount args)%float
                (Some t2)]>
          (<[balance_key (t_from args) :=
               mkBalance (Some (t_from args))
                 (balance (or_zero (storage w !! balance_key (t_from args))) - t_amount args)%float
                 (Some t1)]> (storage w)))
         (chain w ++ [WriteBlock (balance_key (t_from args));
                      WriteBlock (balance_key (t_to args));
                      DataBlock d])
         (events w ++ [EGet (balance_key (t_from args));
                       EGet (balance_key (t_to args));
                       ESave (balance_key (t_from args)) false;
                       ESave (balance_key (t_to args)) false;
                       EAddBlock d])
         (5 + tick w)%nat (clock w) (entropy w))
    /\ Js.get "type" d = Js.Str "transfer"
    /\ Js.get "amount" d = Js.Num (t_amount args).
Proof.
  intros Hpos Hbal. unfold Token.transferProc. rewrite Hpos.
  run_proc. rewrite Hbal. run_proc.
  do 4 eexists. split; [| split].
  - rewrite <- !app_assoc. cbn [app]. reflexivity.
  - reflexivity.
  - reflexivity.
Qed.

Lemma events_since_app {S} (w w' : World S) (l : list event) :
  events w' = (events w ++ l)%list -> events_since w w' = l.
Proof. intros H. unfold events_since. rewrite H. apply drop_app_length. Qed.

Lemma chain_since_app {S} (w w' : World S) (l : list block) :
  chain w' = (chain w ++ l)%list -> chain_since w w' = l.
Proof. intros H. unfold chain_since. rewrite H. apply drop_app_length. Qed.

Ltac on_guard H :=
  match type of H with
  | context [if ?b then _ else _] =>
      let E := fresh "E" in destruct b eqn:E; [try discriminate H | try discriminate H]
  end.

(** Evaluate a closed run in place. *)
Ltac eval_run t :=
  let E := fresh "E" in
  let rw := fresh "rw" in
  remember t as rw eqn:E; vm_compute in E; subst rw.

Ltac finish_profile H :=
  injection H as _ <-; unfold profile_of;
  erewrite events_since_app
    by (cbn [events]; rewrite <- ?app_assoc; cbn [app]; reflexivity);
  reflexivity.

(** C2 (as amended): on success, a transfer reads two balances and writes
    two, a mint or a burn reads one and writes one; each procedure of
    [Token] appends one block and each procedure of [PrivateToken] appends
    none. *)
Theorem token_procedures_profile (p : procedure) (w w' : World (gmap string Balance))
    (res : Js.object) :
  run p w = (Ok res, w') ->
  profile_of (events_since w w') = profile p.
Proof.
  intros H. destruct p as [a|a|a|a|a|a]; cbn [run] in H.
  - unfold Token.transferProc in H. on_guard H. run_proc in H. on_guard H.
    finish_profile H.
  - unfold Token.mintProc in H. on_guard H. run_proc in H. finish_profile H.
  - unfold Token.burnProc in H. on_guard H. run_proc in H. on_guard H.
    finish_profile H.
  - unfold PrivateToken.transferProc in H. on_guard H. run_proc in H. on_guard H.
    finish_profile H.
  - unfold PrivateToken.mintProc in H. on_guard H. run_proc in H. finish_profile H.
  - unfold PrivateToken.burnProc in H. on_guard H. run_proc in H. on_guard H.
    finish_profile H.
Qed.

Lemma token_procedures_profile_witness :
  exists res w',
    run (TokenBurn (mkBurnArgs "alice" 30%float (Js.Str "0xWithdraw"))) (world0 alice_bob)
    = (Ok res, w')
    /\ profile_of (events_since (world0 alice_bob) w') = mkProfile 1 1 1.
Proof.
  destruct (run (TokenBurn (mkBurnArgs "alice" 30%float (Js.Str "0xWithdraw")))
                (world0 alice_bob)) as [[res | e] w'] eqn:E.
  - exists res, w'. split; [reflexivity |].
    exact (token_procedures_profile _ _ _ _ E).
  - exfalso. vm_compute in E. discriminate E.
Defined.

(** C2 (as stated) fails: a successful mint reads one balance and writes
    one, not two and two. *)
Lemma mint_reads_and_writes_once :
  exists res w',
    run (TokenMint (mkMintArgs "alice" 1000%float (Js.Str "0xEthereumTxHash123")))
        (world0 alice_bob) = (Ok res, w')
    /\ profile_of (events_since (world0 alice_bob) w') <> mkProfile 2 2 1.
Proof.
  eval_run (run (TokenMint (mkMintArgs "alice" 1000%float (Js.Str "0xEthereumTxHash123")))
                (world0 alice_bob)).
  eexists _, _. split; [reflexivity |].
  vm_compute. discriminate.
Qed.

(** A mint checks positivity only: it never fails for an insufficient
    balance. *)
Lemma mint_never_insufficient (args : MintArgs) (w w' : World (gmap string Balance))
    (b : float) :
  Token.mintProc args w <> (Throw (InsufficientBalance b), w')
  /\ PrivateToken.mintProc args w <> (Throw (InsufficientBalance b), w').
Proof.
  split; intros H.
  - unfold Token.mintProc in H. on_guard H.
  - unfold PrivateToken.mintProc in H. on_guard H.
Qed.

(** C1: alice at 100 transfers 40 to bob at 0. The balances become 60 and
    40 and one block is appended whose [amount] is 40, but the spread of
    [tx] overrides the tag: the block's [type] is 'transfer', not
    'token-transfer'. *)
Theorem transfer_block_type_is_overridden :
  exists res w' d,
    Token.transferProc (mkTransferArgs "alice" "bob" 40%float) (world0 alice_bob)
    = (Ok res, w')
    /\ Token.getBalance (storage w') "alice" = 60%float
    /\ Token.getBalance (storage w') "bob" = 40%float
    /\ data_blocks (chain w') = [d]
    /\ Js.get "amount" d = Js.Num 40%float
    /\ Js.get "type" d = Js.Str "transfer"
    /\ Js.get "type" d <> Js.Str "token-transfer".
Proof.
  eval_run (Token.transferProc (mkTransferArgs "alice" "bob" 40%float) (world0 alice_bob)).
  eexists _, _, _. split; [reflexivity |].
  split; [vm_compute; reflexivity |].
  split; [vm_compute; reflexivity |].
  split; [vm_compute; reflexivity |].
  split; [vm_compute; reflexivity |].
  split; [vm_compute; reflexivity |].
  vm_compute. discriminate.
Qed.

(** Every block a successful [Token] transfer appends is tagged
    'transfer'. *)
Lemma transfer_block_type_always (args : TransferArgs)
    (w w' : World (gmap string Balance)) (res : Js.object) :
  Token.transferProc args w = (Ok res, w') ->
  exists d, data_blocks (chain_since w w') = [d]
            /\ Js.get "type" d = Js.Str "transfer"
            /\ Js.get "amount" d = Js.Num (t_amount args).
Proof.
  intros H. unfold Token.transferProc in H. on_guard H. run_proc in H. on_guard H.
  injection H as _ <-.
  erewrite chain_since_app by (simpl; rewrite <- ?app_assoc; simpl; reflexivity).
  eexists. split; [reflexivity |]. split; reflexivity.
Qed.

(** Apart from the tag, a transfer of a positive amount within the sender's
    balance does what C1 says: the sender's record is saved with the balance
    less the amount, the receiver's with the balance plus the amount (in
    double arithmetic), and one block carries the amount. *)
Lemma transfer_moves_amount (args : TransferArgs) (w : World (gmap string Balance)) :
  is_positive (t_amount args) = true ->
  (t_amount args <=? balance (or_zero (storage w !! balance_key (t_from args))))%float = true ->
  exists res w' d,
    Token.transferProc args w = (Ok res, w')
    /\ (t_from args <> t_to args ->
        Token.getBalance (storage w') (t_from args)
        = (balance (or_zero (storage w !! balance_key (t_from args))) - t_amount args)%float)
    /\ Token.getBalance (storage w') (t_to args)
       = (balance (or_zero (storage w !! balance_key (t_to args))) + t_amount args)%float
    /\ writes (events_since w w') = 2
    /\ data_blocks (chain_since w w') = [d]
    /\ Js.get "amount" d = Js.Num (t_amount args).
Proof.
  intros Hpos Hle.
  destruct (transferProc_passes args w) as (res & d & t1 & t2 & Hrun & Hty & Ham).
  - apply positive_not_leb_zero, Hpos.
  - apply leb_not_ltb, Hle.
  - eexists res, _, d. split; [exact Hrun |].
    unfold Token.getBalance; simpl. repeat split.
    + intros Hne. rewrite lookup_insert_ne.
      * rewrite lookup_insert_eq. reflexivity.
      * intros Heq. apply Hne. symmetry. exact (balance_key_inj _ _ Heq).
    + rewrite lookup_insert_eq. reflexivity.
    + erewrite events_since_app by (simpl; reflexivity). reflexivity.
    + erewrite chain_since_app by (simpl; reflexivity). reflexivity.
    + exact Ham.
Qed.

(** The first guard of a transfer is [amount <= 0]. *)
Lemma transfer_rejects_nonpositive (args : TransferArgs)
    (w : World (gmap string Balance)) :
  (exists w', Token.transferProc args w = (Throw TransferAmountMustBePositive, w'))
  <-> (t_amount args <=? 0)%float = true.
Proof.
  unfold Token.transferProc. split.
  - intros [w' H]. on_guard H; [reflexivity |].
    run_proc in H. on_guard H.
  - intros ->. eexists. reflexivity.
Qed.

(** Past the first guard, the second is [balance < amount]. *)
Lemma transfer_rejects_insufficient (args : TransferArgs)
    (w : World (gmap string Balance)) :
  (t_amount args <=? 0)%float = false ->
  (exists b w', Token.transferProc args w = (Throw (InsufficientBalance b), w'))
  <-> (balance (or_zero (storage w !! balance_key (t_from args))) <? t_amount args)%float = true.
Proof.
  intros Hpos. unfold Token.transferProc. rewrite Hpos. run_proc. split.
  - intros (b & w' & H). on_guard H. reflexivity.
  - intros ->. eexists _, _. reflexivity.
Qed.

(** A transfer that fails has written no balance and appended no block:
    store and chain are as before, at most one read was logged. *)
Lemma transfer_failure_leaves_state (args : TransferArgs)
    (w w' : World (gmap string Balance)) (e : error) :
  Token.transferProc args w = (Throw e, w')
  \/ PrivateToken.transferProc args w = (Throw e, w') ->
  storage w' = storage w /\ chain w' = chain w
  /\ writes (events_since w w') = 0 /\ appended (events_since w w') = 0.
Proof.
  intros [H | H].
  - unfold Token.transferProc in H. on_guard H.
    + injection H as _ <-. unfold events_since. rewrite drop_all. auto.
    + run_proc in H. on_guard H. injection H as _ <-. simpl.
      erewrite events_since_app by (simpl; reflexivity). auto.
  - unfold PrivateToken.transferProc in H. on_guard H.
    + injection H as _ <-. unfold events_since. rewrite drop_all. auto.
    + run_proc in H. on_guard H. injection H as _ <-. simpl.
      erewrite events_since_app by (simpl; reflexivity). auto.
Qed.

(** Away from NaN, a transfer is rejected as not positive exactly when the
    amount is not positive. *)
Lemma transfer_rejects_iff_not_positive (args : TransferArgs)
    (w : World (gmap string Balance)) :
  is_nan (t_amount args) = false ->
  (exists w', Token.transferProc args w = (Throw TransferAmountMustBePositive, w'))
  <-> is_positive (t_amount args) = false.
Proof.
  intros Hnan. rewrite transfer_rejects_nonpositive.
  rewrite (leb_zero_not_positive _ Hnan).
  destruct (is_positive (t_amount args)); simpl; split; congruence.
Qed.

(** C3: NaN is not a positive amount, yet neither guard of the transfer
    stops it ([NaN <= 0] and [balance < NaN] are both false): the transfer
    succeeds, writes NaN into both balances and appends a block. The same
    holds for the transfer of [PrivateToken]. *)
Theorem transfer_accepts_nan :
  is_positive nan = false
  /\ (exists res w',
        Token.transferProc (mkTransferArgs "alice" "bob" nan) (world0 alice_bob)
        = (Ok res, w')
        /\ Token.getBalance (storage w') "alice" = nan
        /\ Token.getBalance (storage w') "bob" = nan
        /\ writes (events w') = 2 /\ appended (events w') = 1)
  /\ (exists res w',
        PrivateToken.transferProc (mkTransferArgs "alice" "bob" nan) (world0 alice_bob)
        = (Ok res, w')
        /\ Token.getBalance (storage w') "alice" = nan
        /\ Token.getBalance (storage w') "bob" = nan
        /\ writes (events w') = 2).
Proof.
  split; [reflexivity |]. split.
  - eval_run (Token.transferProc (mkTransferArgs "alice" "bob" nan) (world0 alice_bob)).
    eexists _, _. split; [reflexivity |].
    repeat split; vm_compute; reflexivity.
  - eval_run (PrivateToken.transferProc (mkTransferArgs "alice" "bob" nan)
                (world0 alice_bob)).
    eexists _, _. split; [reflexivity |].
    repeat split; vm_compute; reflexivity.
Qed.

(** The bridge example ends with alice at 350 and bob at 150, and four
    blocks appended by the procedures. *)
Example bridge_scenario_balances :
  let w := snd (bridge_scenario (world0 ∅)) in
  fst (bridge_scenario (world0 ∅)) = Ok tt
  /\ Token.getBalance (storage w) "0xAlice456" = 350%float
  /\ Token.getBalance (storage w) "0xBob789" = 150%float
  /\ length (data_blocks (chain w)) = 4.
Proof. vm_compute. repeat split; reflexivity. Qed.

(** ** Bonding curve *)

Section BisectionFacts.
Variable Math_pow : float -> float -> float.
Variable Math_exp : float -> float.
Variable c : BondingCurve.Curve.

Local Abbreviation calculateIntegral :=
  (BondingCurve.calculateIntegral Math_pow Math_exp c) (only parsing).
Local Abbreviation bisect := (BondingCurve.bisect Math_pow Math_exp c) (only parsing).
Local Abbreviation bracket := (BondingCurve.bracket Math_pow Math_exp c) (only parsing).

(** One iteration of the loop. *)
Lemma bisect_S (cs pay : float) (remaining : nat) (low high : float) :
  bisect cs pay (S remaining) low high
  = match calculateIntegral cs ((low + high) / 2)%float with
    | Throw e => Throw e
    | Ok cost =>
        if (abs (cost - pay) <? BondingCurve.tolerance)%float
        then Ok ((low + high) / 2 - cs)%float
        else if (cost <? pay)%float
             then bisect cs pay remaining ((low + high) / 2)%float high
             else bisect cs pay remaining low ((low + high) / 2)%float
    end.
Proof. reflexivity. Qed.

(** On a supported curve the integral is a number. *)
Lemma calculateIntegral_supported (s1 s2 : float) :
  BondingCurve.supported c = true ->
  exists cost, calculateIntegral s1 s2 = Ok cost.
Proof.
  unfold BondingCurve.supported, BondingCurve.calculateIntegral.
  destruct (String.eqb _ "linear"); [eauto |].
  destruct (String.eqb _ "polynomial"); [eauto |].
  destruct (String.eqb _ "exponential"); [eauto | discriminate].
Qed.

(** On any other curve type the inversion throws in its first iteration. *)
Lemma calculateTokensForPayment_unsupported (cs pay : float) :
  BondingCurve.supported c = false ->
  BondingCurve.calculateTokensForPayment Math_pow Math_exp c cs pay
  = Throw (UnknownCurveType (BondingCurve.curveType c)).
Proof.
  unfold BondingCurve.supported, BondingCurve.calculateTokensForPayment.
  change BondingCurve.maxIterations with (S 99). rewrite bisect_S.
  unfold BondingCurve.calculateIntegral.
  destruct (String.eqb _ "linear"); [discriminate |].
  destruct (String.eqb _ "polynomial"); [discriminate |].
  destruct (String.eqb _ "exponential"); [discriminate | reflexivity].
Qed.

(** The bracket after [i] iterations is unique. *)
Lemma bracket_functional (cs pay : float) (i : nat) (low high low' high' : float) :
  bracket cs pay i low high -> bracket cs pay i low' high' ->
  low = low' /\ high = high'.
Proof.
  intros H. revert low' high'.
  induction H as [| i low high cost H IH Hc Ht Hlt | i low high cost H IH Hc Ht Hlt];
    intros low' high' H'; inversion H' as [| j l h co Hj Hco Hto Hlo | j l h co Hj Hco Hto Hlo];
    subst; try (split; reflexivity);
    destruct (IH _ _ Hj) as [-> ->]; rewrite Hc in Hco; injection Hco as <-;
    first [split; reflexivity | congruence].
Qed.

(** No bracket before the [i]-th had a midpoint within the tolerance. *)
Lemma bracket_earlier (cs pay : float) (i : nat) (low high : float) :
  bracket cs pay i low high ->
  forall j lowj highj cost,
    j < i ->
    bracket cs pay j lowj highj ->
    calculateIntegral cs ((lowj + highj) / 2)%float = Ok cost ->
    (abs (cost - pay) <? 0.0001)%float = false.
Proof.
  induction 1 as [| i low high cost H IH Hc Ht Hlt | i low high cost H IH Hc Ht Hlt];
    intros j lowj highj costj Hj Hbj Hcj; [lia | |];
    (destruct (Nat.eq_dec j i) as [-> | Hne];
     [destruct (bracket_functional _ _ _ _ _ _ _ Hbj H) as [-> ->];
      rewrite Hc in Hcj; injection Hcj as <-; exact Ht
     | apply (IH j lowj highj costj); [lia | assumption | assumption]]).
Qed.

(** C5: the inversion halves its bracket at most 100 times, and it is a
    bisection: the bracket starts as
    [(currentSupply, currentSupply + paymentAmount / k)] and each step
    replaces one end by the midpoint [(low + high) / 2], the lower end when
    the midpoint costs less than the payment. It returns
    [(low + high) / 2 - currentSupply] from the first bracket whose midpoint
    costs the payment within 1e-4 ([|cost - paymentAmount| < 0.0001]), no
    earlier bracket having such a midpoint; if none of the first 100
    brackets does, it returns the midpoint of the bracket left after the
    100th halving, minus the current supply. *)
Theorem calculateTokensForPayment_bisection (cs pay : float) :
  BondingCurve.supported c = true ->
  exists i low high,
    bracket cs pay i low high
    /\ i <= 100
    /\ (forall j lowj highj cost,
          j < i ->
          bracket cs pay j lowj highj ->
          calculateIntegral cs ((lowj + highj) / 2)%float = Ok cost ->
          (abs (cost - pay) <? 0.0001)%float = false)
    /\ ((i < 100
         /\ exists cost,
              calculateIntegral cs ((low + high) / 2)%float = Ok cost
              /\ (abs (cost - pay) <? 0.0001)%float = true
              /\ BondingCurve.calculateTokensForPayment Math_pow Math_exp c cs pay
                 = Ok ((low + high) / 2 - cs)%float)
        \/ (i = 100
            /\ BondingCurve.calculateTokensForPayment Math_pow Math_exp c cs pay
               = Ok ((low + high) / 2 - cs)%float)).
Proof.
  intros Hs. unfold BondingCurve.calculateTokensForPayment.
  (* the loop from any reachable bracket, by induction on the iterations left *)
  assert (Hloop : forall remaining i low0 high0,
             i + remaining = 100 ->
             bracket cs pay i low0 high0 ->
             exists j low high,
               bracket cs pay j low high
               /\ j <= 100
               /\ ((j < 100
                    /\ exists cost,
                         calculateIntegral cs ((low + high) / 2)%float = Ok cost
                         /\ (abs (cost - pay) <? 0.0001)%float = true
                         /\ bisect cs pay remaining low0 high0
                            = Ok ((low + high) / 2 - cs)%float)
                   \/ (j = 100
                       /\ bisect cs pay remaining low0 high0
                          = Ok ((low + high) / 2 - cs)%float))).
  { induction remaining as [| remaining IH]; intros i low0 high0 Hi Hb.
    - exists i, low0, high0. split; [exact Hb |]. split; [lia |].
      right. split; [lia | reflexivity].
    - rewrite bisect_S.
      destruct (calculateIntegral_supported cs ((low0 + high0) / 2)%float Hs)
        as [cost Hcost].
      rewrite Hcost. unfold BondingCurve.tolerance.
      destruct (abs (cost - pay) <? 0.0001)%float eqn:Htol.
      + exists i, low0, high0. split; [exact Hb |]. split; [lia |].
        left. split; [lia |]. exists cost. auto.
      + destruct (cost <? pay)%float eqn:Hlt.
        * apply (IH (S i)); [lia |].
          eapply BondingCurve.bracket_low; eauto.
        * apply (IH (S i)); [lia |].
          eapply BondingCurve.bracket_high; eauto. }
  destruct (Hloop BondingCurve.maxIterations 0 cs
              (cs + pay / BondingCurve.k c)%float eq_refl
              (BondingCurve.bracket_init _ _ _ _ _))
    as (i & low & high & Hb & Hi & Hend).
  exists i, low, high. split; [exact Hb |]. split; [exact Hi |].
  split; [exact (bracket_earlier cs pay i low high Hb) | exact Hend].
Qed.

End BisectionFacts.

Lemma calculateTokensForPayment_bisection_witness :
  exists i low high,
    BondingCurve.bracket BondingCurve.no_pow BondingCurve.no_exp
      BondingCurve.default_curve 0%float 10%float i low high
    /\ i <= 100
    /\ (forall j lowj highj cost,
          j < i ->
          BondingCurve.bracket BondingCurve.no_pow BondingCurve.no_exp
            BondingCurve.default_curve 0%float 10%float j lowj highj ->
          BondingCurve.calculateIntegral BondingCurve.no_pow BondingCurve.no_exp
            BondingCurve.default_curve 0%float ((lowj + highj) / 2)%float = Ok cost ->
          (abs (cost - 10) <? 0.0001)%float = false)
    /\ ((i < 100
         /\ exists cost,
              BondingCurve.calculateIntegral BondingCurve.no_pow BondingCurve.no_exp
                BondingCurve.default_curve 0%float ((low + high) / 2)%float = Ok cost
              /\ (abs (cost - 10) <? 0.0001)%float = true
              /\ BondingCurve.calculateTokensForPayment BondingCurve.no_pow
                   BondingCurve.no_exp BondingCurve.default_curve 0%float 10%float
                 = Ok ((low + high) / 2 - 0)%float)
        \/ (i = 100
            /\ BondingCurve.calculateTokensForPayment BondingCurve.no_pow
                 BondingCurve.no_exp BondingCurve.default_curve 0%float 10%float
               = Ok ((low + high) / 2 - 0)%float)).
Proof.
  apply (calculateTokensForPayment_bisection BondingCurve.no_pow BondingCurve.no_exp
           BondingCurve.default_curve 0%float 10%float).
  reflexivity.
Defined.

(** Paying 10 on the default linear curve from an empty supply buys about
    141.42 tokens (the exact root is [sqrt 20000]). *)
Example calculateTokensForPayment_linear :
  BondingCurve.calculateTokensForPayment BondingCurve.no_pow BondingCurve.no_exp
    BondingCurve.default_curve 0%float 10%float = Ok 141.42155647277832%float.
Proof. vm_compute. reflexivity. Qed.

(** The integral is evaluated in double arithmetic: on the default linear
    curve, from 0 to 0.1, it gives 5.0000000000000013e-06 and not 5e-06. *)
Example calculateIntegral_is_rounded :
  BondingCurve.calculateIntegral BondingCurve.no_pow BondingCurve.no_exp
    BondingCurve.default_curve 0%float 0.1%float = Ok 5.0000000000000013e-06%float
  /\ (5.0000000000000013e-06 =? 5e-06)%float = false.
Proof. split; vm_compute; reflexivity. Qed.

(** ** Wish list *)

Ltac run_wish :=
  cbn [bind get saveData addBlock now random ret throw log
       WishList.wishlist_table WishList.reservations_table
       WishList.wishlists WishList.reservations
       storage chain events tick clock entropy select update fst snd].
Tactic Notation "run_wish" "in" hyp(H) :=
  cbn [bind get saveData addBlock now random ret throw log
       WishList.wishlist_table WishList.reservations_table
       WishList.wishlists WishList.reservations
       storage chain events tick clock entropy select update fst snd] in H.


Lemma findItem_None (itemId : string) (items : list WishList.Item) :
  WishList.findItem itemId items = None
  <-> forall item, item ∈ items -> WishList.item_id item <> itemId.
Proof.
  unfold WishList.findItem. rewrite list_find_None, Forall_forall. reflexivity.
Qed.

Lemma findItem_Some (itemId : string) (items : list WishList.Item) i item :
  WishList.findItem itemId items = Some (i, item) ->
  items !! i = Some item /\ WishList.item_id item = itemId /\ i < length items.
Proof.
  unfold WishList.findItem. intros H. apply list_find_Some in H as (Hl & Hid & _).
  split; [exact Hl |]. split; [exact Hid |]. eapply lookup_lt_Some; eauto.
Qed.

Lemma reserve_missing_fields_reflect (args : WishList.ReserveArgs) :
  reserve_missing_fields args <-> reserve_missing_fieldsb args = true.
Proof.
  unfold reserve_missing_fields, reserve_missing_fieldsb.
  rewrite !orb_true_iff, !negb_true_iff. tauto.
Qed.

Lemma reserve_refused_reflect (s : WishList.Store) (args : WishList.ReserveArgs) :
  reserve_refused s args <-> reserve_refusedb s args = true.
Proof.
  unfold reserve_refused, reserve_refusedb, wishlist_absent, item_not_listed, listed.
  destruct (WishList.wishlists s !! _) as [wl |] eqn:Hwl.
  - destruct (WishList.findItem _ _) as [[i item] |] eqn:Hf.
    + rewrite !orb_true_iff, negb_true_iff, String.eqb_eq, String.eqb_neq. split.
      * intros [H | [H | [H | [H | H]]]].
        -- discriminate H.
        -- destruct H as (wl' & [= <-] & Hall).
           apply findItem_Some in Hf as (Hl & Hid & _).
           exfalso. eapply Hall; [| exact Hid]. eapply list_elem_of_lookup_2; eauto.
        -- destruct H as (i' & item' & (wl' & [= <-] & Hf') & Hst).
           rewrite Hf in Hf'. injection Hf' as <- <-. auto.
        -- destruct H as (i' & item' & (wl' & [= <-] & Hf') & Hrb).
           rewrite Hf in Hf'. injection Hf' as <- <-. auto.
        -- auto.
      * intros [[H | H] | H].
        -- right; right; left. exists i, item. split; [exists wl; auto | exact H].
        -- right; right; right; left. exists i, item. split; [exists wl; auto | exact H].
        -- right; right; right; right. exact H.
    + split; [reflexivity | intros _].
      right; left. exists wl. split; [reflexivity |]. apply findItem_None, Hf.
  - split; [reflexivity | intros _]. left. reflexivity.
Qed.

Lemma reserveItemProc_fails_iff (args : WishList.ReserveArgs) (w : World WishList.Store) :
  (exists e w', WishList.reserveItemProc args w = (Throw e, w'))
  <-> reserve_missing_fieldsb args || reserve_refusedb (storage w) args = true.
Proof.
  unfold WishList.reserveItemProc, reserve_missing_fieldsb, reserve_refusedb.
  destruct (negb (Js.truthy (WishList.r_ownerId args))
            || negb (Js.truthy (WishList.r_itemId args))
            || negb (Js.truthy (WishList.r_reservedBy args))) eqn:Hm.
  { split; [reflexivity | intros _; eexists _, _; reflexivity]. }
  run_wish. rewrite orb_false_l.
  destruct (WishList.wishlists (storage w) !! _) as [wl |] eqn:Hwl;
    [| split; [reflexivity | intros _; eexists _, _; reflexivity]].
  destruct (WishList.findItem _ _) as [[i item] |] eqn:Hf;
    [| split; [reflexivity | intros _; eexists _, _; reflexivity]].
  destruct (negb (String.eqb (WishList.item_status item) "available")) eqn:Hst.
  { split; [reflexivity | intros _; eexists _, _; reflexivity]. }
  destruct (Js.truthy_opt (WishList.item_reservedBy item)) eqn:Hrb.
  { split; [reflexivity | intros _; eexists _, _; reflexivity]. }
  rewrite (String.eqb_sym (WishList.r_reservedBy args)).
  destruct (String.eqb (WishList.r_ownerId args) (WishList.r_reservedBy args)) eqn:Hown.
  { split; [reflexivity | intros _; eexists _, _; reflexivity]. }
  run_wish.
  destruct (WishList.reservations (storage w) !! _) as [rs |] eqn:Hrs; run_wish;
    (split; [intros (e & w' & H); discriminate H | discriminate]).
Qed.

(** C7 (as amended): a reservation fails exactly when a required field is
    missing, the owner has no wish list, no item of the list has the id, the
    item is not 'available', the item already has a reserver, or the
    reserver is the owner. When it succeeds, the stored item is 'reserved'
    with [reservedBy] and [reservedAt] set, one entry for the item is added
    to the reserver's reservations, and one 'wishlist-item-reserved' block
    is appended. *)
Theorem reserveItemProc_refuses_or_reserves (args : WishList.ReserveArgs)
    (w : World WishList.Store) :
  let ownerId := WishList.r_ownerId args in
  let itemId := WishList.r_itemId args in
  let reservedBy := WishList.r_reservedBy args in
  ((exists e w', WishList.reserveItemProc args w = (Throw e, w'))
   <-> reserve_missing_fields args \/ reserve_refused (storage w) args)
  /\ forall res w',
       WishList.reserveItemProc args w = (Ok res, w') ->
       exists i item reservedAt,
         listed (storage w) ownerId itemId i item
         /\ (exists wl',
               WishList.wishlists (storage w') !! WishList.wishlist_key ownerId
               = Some wl'
               /\ WishList.wl_items wl' !! i = Some (WishList.rr_item res))
         /\ WishList.item_id (WishList.rr_item res) = itemId
         /\ WishList.item_status (WishList.rr_item res) = "reserved"
         /\ WishList.item_reservedBy (WishList.rr_item res) = Some reservedBy
         /\ WishList.item_reservedAt (WishList.rr_item res) = Some reservedAt
         /\ (exists rv,
               WishList.getReservations (storage w') reservedBy
               = (WishList.getReservations (storage w) reservedBy ++ [rv])%list
               /\ WishList.rv_itemId rv = itemId
               /\ WishList.rv_ownerId rv = ownerId
               /\ WishList.rv_status rv = "reserved")
         /\ (exists d,
               data_blocks (chain_since w w') = [d]
               /\ Js.get "type" d = Js.Str "wishlist-item-reserved").
Proof.
  intros ownerId itemId reservedBy. split.
  { rewrite reserveItemProc_fails_iff, orb_true_iff.
    rewrite <- reserve_missing_fields_reflect, <- reserve_refused_reflect.
    reflexivity. }
  intros res w'.
  intros H. unfold WishList.reserveItemProc in H.
  destruct (negb (Js.truthy (WishList.r_ownerId args))
            || negb (Js.truthy (WishList.r_itemId args))
            || negb (Js.truthy (WishList.r_reservedBy args))) eqn:Hm;
    [discriminate H |].
  run_wish in H.
  destruct (WishList.wishlists (storage w) !! _) as [wl |] eqn:Hwl;
    [| discriminate H].
  destruct (WishList.findItem _ _) as [[i item] |] eqn:Hf; [| discriminate H].
  destruct (negb (String.eqb (WishList.item_status item) "available")) eqn:Hst;
    [discriminate H |].
  destruct (Js.truthy_opt (WishList.item_reservedBy item)) eqn:Hrb;
    [discriminate H |].
  destruct (String.eqb (WishList.r_ownerId args) (WishList.r_reservedBy args)) eqn:Hown;
    [discriminate H |].
  run_wish in H.
  destruct (findItem_Some _ _ _ _ Hf) as (Hl & Hid & Hlen).
  exists i, item, (clock w (tick w)).
  split; [exists wl; auto |].
  unfold WishList.getReservations.
  destruct (WishList.reservations (storage w) !! _) as [rs |] eqn:Hrs;
    run_wish in H; injection H as <- <-; cbn [storage WishList.wishlists
      WishList.reservations WishList.rr_item WishList.item_id WishList.item_status
      WishList.item_reservedBy WishList.item_reservedAt].
  all: rewrite !lookup_insert_eq.
  all: split; [eexists; split; [reflexivity |];
               cbn [WishList.wl_items]; apply list_lookup_insert_eq, Hlen |].
  all: repeat (split; [first [exact Hid | reflexivity] |]).
  all: split;
    [ eexists; split; [reflexivity |]; repeat split
    | erewrite chain_since_app
        by (cbn [chain]; rewrite <- ?app_assoc; cbn [app]; reflexivity);
      eexists; split; reflexivity ].
Qed.

Lemma reserveItemProc_refuses_or_reserves_witness :
  exists res w',
    WishList.reserveItemProc (WishList.mkReserveArgs "user-alice" "item-1" "user-bob")
      (world0 alice_wishes) = (Ok res, w')
    /\ WishList.item_status (WishList.rr_item res) = "reserved"
    /\ WishList.item_reservedBy (WishList.rr_item res) = Some "user-bob"
    /\ exists rv, WishList.getReservations (storage w') "user-bob" = [rv]
                  /\ WishList.rv_itemId rv = "item-1".
Proof.
  destruct (WishList.reserveItemProc
              (WishList.mkReserveArgs "user-alice" "item-1" "user-bob")
              (world0 alice_wishes)) as [[res | e] w'] eqn:E.
  - exists res, w'. split; [reflexivity |].
    destruct (proj2 (reserveItemProc_refuses_or_reserves _ _) res w' E)
      as (i & item & t & _ & _ & _ & Hst & Hby & _ & (rv & Hrv & Hid & _) & _).
    split; [exact Hst |]. split; [exact Hby |].
    exists rv. split; [exact Hrv | exact Hid].
  - exfalso. vm_compute in E. discriminate E.
Defined.

(** C7 (as stated) fails: with an empty [reservedBy] the reservation is
    refused for a missing field although alice's list exists, holds the
    item, the item is available and unreserved, and the reserver is not the
    owner. *)
Lemma reserve_without_reserver_fails :
  (exists e w',
     WishList.reserveItemProc (WishList.mkReserveArgs "user-alice" "item-1" "")
       (world0 alice_wishes) = (Throw e, w'))
  /\ ~ reserve_refused (storage (world0 alice_wishes))
        (WishList.mkReserveArgs "user-alice" "item-1" "").
Proof.
  split.
  - eexists _, _. reflexivity.
  - rewrite reserve_refused_reflect. vm_compute. discriminate.
Qed.

(** In the wish-list example bob's reservation succeeds and charlie's is
    refused because the item is then 'reserved'. *)
Example wishlist_scenario_outcome :
  fst (wishlist_scenario (world0 (WishList.mkStore ∅ ∅)))
  = Ok (Throw (ItemNotAvailable "reserved")).
Proof. vm_compute. reflexivity. Qed.





(** In that run bob's entry for the item is marked 'fulfilled'. *)
Example fulfilled_reservation_is_marked :
  WishList.rv_status
  <$> WishList.getReservations
        (storage (snd (WishList.updateStatusProc
                         (WishList.mkUpdateStatusArgs "user-alice" "item-1" "fulfilled")
                         reserved_world))) "user-bob"
  = ["fulfilled"].
Proof. vm_compute. reflexivity. Qed.

(** ** Chat *)

Lemma insert_by_timestamp_perm (m : ChatAgent.Message) (l : list ChatAgent.Message) :
  ChatAgent.insert_by_timestamp m l ≡ₚ m :: l.
Proof.
  induction l as [| m' l IH]; cbn [ChatAgent.insert_by_timestamp]; [reflexivity |].
  destruct (ChatAgent.msg_timestamp m <=? ChatAgent.msg_timestamp m')%Z; [reflexivity |].
  rewrite IH. apply Permutation_swap.
Qed.

Lemma sort_by_timestamp_perm (l : list ChatAgent.Message) :
  ChatAgent.sort_by_timestamp l ≡ₚ l.
Proof.
  induction l as [| m l IH]; cbn [ChatAgent.sort_by_timestamp]; [reflexivity |].
  rewrite insert_by_timestamp_perm, IH. reflexivity.
Qed.

Lemma insert_by_timestamp_hd (x m : ChatAgent.Message) (l : list ChatAgent.Message) :
  by_timestamp x m -> HdRel by_timestamp x l ->
  HdRel by_timestamp x (ChatAgent.insert_by_timestamp m l).
Proof.
  intros Hxm Hx. destruct l as [| m' l]; cbn [ChatAgent.insert_by_timestamp].
  - constructor. exact Hxm.
  - destruct (ChatAgent.msg_timestamp m <=? ChatAgent.msg_timestamp m')%Z.
    + constructor. exact Hxm.
    + constructor. inversion Hx; assumption.
Qed.

Lemma insert_by_timestamp_sorted (m : ChatAgent.Message) (l : list ChatAgent.Message) :
  Sorted by_timestamp l -> Sorted by_timestamp (ChatAgent.insert_by_timestamp m l).
Proof.
  induction 1 as [| m' l Hl IH Hhd]; cbn [ChatAgent.insert_by_timestamp].
  - repeat constructor.
  - destruct (Z.leb_spec (ChatAgent.msg_timestamp m) (ChatAgent.msg_timestamp m')).
    + constructor; [constructor; assumption |]. constructor. assumption.
    + constructor; [exact IH |].
      apply insert_by_timestamp_hd; [unfold by_timestamp; lia | exact Hhd].
Qed.

Lemma sort_by_timestamp_sorted (l : list ChatAgent.Message) :
  Sorted by_timestamp (ChatAgent.sort_by_timestamp l).
Proof.
  induction l as [| m l IH]; cbn [ChatAgent.sort_by_timestamp].
  - constructor.
  - apply insert_by_timestamp_sorted, IH.
Qed.

Lemma Sorted_drop {A} (R : relation A) (k : nat) (l : list A) :
  Sorted R l -> Sorted R (drop k l).
Proof.
  revert l. induction k as [| k IH]; intros l Hl; [rewrite drop_0; exact Hl |].
  destruct l as [| x l]; [constructor |].
  cbn [drop]. apply IH. inversion Hl; assumption.
Qed.

(** The loop accepts a list exactly when its ids are distinct, none of them
    was seen before, and no message is malformed. *)
Lemma check_messages_Ok (seen : gset string) (l : list ChatAgent.Message) :
  ChatAgent.check_messages seen l = Ok tt
  <-> NoDup (ChatAgent.msg_id <$> l)
      /\ (forall m, m ∈ l -> ChatAgent.msg_id m ∉ seen)
      /\ Forall (fun m => ChatAgent.malformed m = false) l.
Proof.
  revert seen. induction l as [| m l IH]; intros seen; cbn [ChatAgent.check_messages].
  - split; [intros _ | reflexivity].
    split; [constructor |]. split; [| constructor].
    intros m Hm. inversion Hm.
  - rewrite fmap_cons, NoDup_cons, Forall_cons.
    destruct (bool_decide_reflect (ChatAgent.msg_id m ∈ seen)) as [Hin | Hnin].
    + split; [discriminate |]. intros (_ & Hseen & _).
      exfalso. apply (Hseen m); [left | exact Hin].
    + destruct (ChatAgent.malformed m) eqn:Hmal.
      * split; [discriminate |]. intros (_ & _ & Hf & _). discriminate Hf.
      * rewrite IH. split.
        -- intros (Hnd & Hseen & Hall). split; [split; [| exact Hnd] |].
           ++ intros Hin. apply list_elem_of_fmap in Hin as (m' & Hid & Hm').
              apply (Hseen m' Hm'). rewrite <- Hid.
              apply elem_of_union. left. apply elem_of_singleton. reflexivity.
           ++ split; [| auto].
              intros m' Hm'. apply elem_of_cons in Hm' as [-> | Hm']; [exact Hnin |].
              intros Hc. apply (Hseen m' Hm').
              apply elem_of_union. right. exact Hc.
        -- intros ((Hnotin & Hnd) & Hseen & _ & Hall).
           split; [exact Hnd |]. split; [| exact Hall].
           intros m' Hm' Hc. apply elem_of_union in Hc as [Hc | Hc].
           ++ apply elem_of_singleton in Hc. apply Hnotin.
              rewrite <- Hc. apply list_elem_of_fmap. eauto.
           ++ apply (Hseen m'); [right; exact Hm' | exact Hc].
Qed.

Lemma check_messages_outcome (seen : gset string) (l : list ChatAgent.Message) :
  ChatAgent.check_messages seen l = Ok tt
  \/ exists e, ChatAgent.check_messages seen l = Throw e.
Proof.
  destruct (ChatAgent.check_messages seen l) as [[] | e]; eauto.
Qed.

(** On the sorted copy of the stored messages the loop throws exactly when
    two stored messages share an id or one of them is malformed. *)
Lemma check_sorted_throws (l : list ChatAgent.Message) :
  (exists e, ChatAgent.check_messages ∅ (ChatAgent.sort_by_timestamp l) = Throw e)
  <-> duplicate_ids l \/ some_malformed l.
Proof.
  unfold duplicate_ids, some_malformed.
  assert (Hok : ChatAgent.check_messages ∅ (ChatAgent.sort_by_timestamp l) = Ok tt
                <-> NoDup (ChatAgent.msg_id <$> l)
                    /\ Forall (fun m => ChatAgent.malformed m = false) l).
  { rewrite check_messages_Ok, (sort_by_timestamp_perm l). split.
    - intros (Hnd & _ & Hall). auto.
    - intros (Hnd & Hall). split; [exact Hnd |]. split; [| exact Hall].
      intros m _. apply not_elem_of_empty. }
  split.
  - intros [e He].
    destruct (decide (NoDup (ChatAgent.msg_id <$> l))) as [Hnd | Hnd]; [| left; exact Hnd].
    right.
    destruct (decide (Exists (fun m => ChatAgent.malformed m = true) l))
      as [Hex | Hex]; [exact Hex |].
    exfalso. apply not_Exists_Forall in Hex; [| intros m; apply _].
    assert (Hall : Forall (fun m => ChatAgent.malformed m = false) l).
    { eapply Forall_impl; [exact Hex |]. intros m Hm. cbn in Hm.
      destruct (ChatAgent.malformed m); [exfalso; auto | reflexivity]. }
    assert (Hc := proj2 Hok (conj Hnd Hall)). congruence.
  - intros Hbad.
    destruct (check_messages_outcome ∅ (ChatAgent.sort_by_timestamp l)) as [Hc | Hc];
      [| exact Hc].
    exfalso. apply Hok in Hc as (Hnd & Hall). destruct Hbad as [Hd | Hm]; [auto |].
    apply Exists_exists in Hm as (m & Hin & Hm).
    rewrite Forall_forall in Hall. specialize (Hall m Hin). congruence.
Qed.

Ltac exec_chat :=
  cbv beta iota zeta delta
    [bind get saveData addBlock now random ret throw log
     ChatAgent.thread_table ChatAgent.userThreads_table
     ChatAgent.threads ChatAgent.userThreads
     storage chain events tick clock entropy select update fst snd].
Tactic Notation "exec_chat" "in" hyp(H) :=
  cbv beta iota zeta delta
    [bind get saveData addBlock now random ret throw log
     ChatAgent.thread_table ChatAgent.userThreads_table
     ChatAgent.threads ChatAgent.userThreads
     storage chain events tick clock entropy select update fst snd] in H.

Lemma slice_last_n {A} (l : Z) (a : list A) :
  (0 < l)%Z -> ChatAgent.slice (- l) a = last_n (Z.to_nat l) a.
Proof.
  intros Hl. unfold ChatAgent.slice, last_n.
  destruct (Z.ltb_spec (- l) 0); [| lia].
  f_equal. lia.
Qed.

(** C10 (as amended): when the caller names the thread and is its owner,
    get-conversation throws exactly when two stored messages share an id or
    some message lacks a timestamp, role or content (is falsy there). When
    it returns, the messages are in nondecreasing timestamp order,
    [messageCount] is the number of stored messages whatever the limit, the
    messages are all the stored ones when no limit is given, and the last
    [limit] of the sorted ones for a positive limit. *)
Theorem getConversationProc_sorted_conversation (args : ChatAgent.GetArgs)
    (w : World ChatAgent.Store) (th : ChatAgent.Thread) :
  Js.truthy (ChatAgent.g_threadId args) = true ->
  Js.truthy (ChatAgent.g_userId args) = true ->
  ChatAgent.threads (storage w) !! ChatAgent.thread_key (ChatAgent.g_threadId args)
  = Some th ->
  ChatAgent.th_userId th = ChatAgent.g_userId args ->
  ((exists e w', ChatAgent.getConversationProc args w = (Throw e, w'))
   <-> duplicate_ids (ChatAgent.th_messages th)
       \/ some_malformed (ChatAgent.th_messages th))
  /\ forall res w',
       ChatAgent.getConversationProc args w = (Ok res, w') ->
       Sorted by_timestamp (ChatAgent.cv_messages res)
       /\ ChatAgent.cv_messageCount res = length (ChatAgent.th_messages th)
       /\ (ChatAgent.g_limit args = None \/ ChatAgent.g_limit args = Some 0%Z ->
           ChatAgent.cv_messages res ≡ₚ ChatAgent.th_messages th)
       /\ (forall l, ChatAgent.g_limit args = Some l -> (0 < l)%Z ->
           ChatAgent.cv_messages res
           = last_n (Z.to_nat l) (ChatAgent.sort_by_timestamp (ChatAgent.th_messages th))).
Proof.
  intros Hthread Huser Hth Hown.
  destruct w as [[ths uts] ch ev tk ck en].
  cbn [storage ChatAgent.threads] in Hth.
  unfold ChatAgent.getConversationProc.
  rewrite Hthread, Huser. cbn [negb orb].
  exec_chat. rewrite Hth, Hown, String.eqb_refl. cbn [negb].
  split.
  - rewrite <- check_sorted_throws.
    destruct (ChatAgent.check_messages ∅ _) as [[] | e]; split.
    + intros (e & w' & H). discriminate H.
    + intros (e & H). discriminate H.
    + intros _. eauto.
    + intros _. eauto.
  - intros res w' H.
    destruct (ChatAgent.check_messages ∅ _) as [[] | e]; [| discriminate H].
    injection H as <- <-. cbn [ChatAgent.cv_messages ChatAgent.cv_messageCount].
    split; [| split; [reflexivity | split]].
    + destruct (ChatAgent.g_limit args) as [l |]; [| apply sort_by_timestamp_sorted].
      destruct (Js.truthy_int l); [| apply sort_by_timestamp_sorted].
      apply Sorted_drop, sort_by_timestamp_sorted.
    + intros [-> | ->]; cbn [Js.truthy_int Z.eqb negb]; apply sort_by_timestamp_perm.
    + intros l -> Hl. unfold Js.truthy_int.
      destruct (Z.eqb_spec l 0); [lia |]. cbn [negb].
      apply slice_last_n, Hl.
Qed.

Lemma send_missing_fields_reflect (args : ChatAgent.SendArgs) :
  send_missing_fields args
  <-> negb (Js.truthy (ChatAgent.s_threadId args))
      || negb (Js.truthy (ChatAgent.s_userId args))
      || negb (Js.truthy (ChatAgent.s_role args))
      || negb (Js.truthy (ChatAgent.s_content args)) = true.
Proof.
  unfold send_missing_fields. rewrite !orb_true_iff, !negb_true_iff. tauto.
Qed.

(** Two messages sent to a new thread come back in order, counted. *)
Example chat_scenario_conversation :
  match fst (chat_scenario (world0 no_threads)) with
  | Ok cv =>
      ChatAgent.msg_role <$> ChatAgent.cv_messages cv = ["user"; "assistant"]
      /\ ChatAgent.cv_messageCount cv = 2
  | Throw _ => False
  end.
Proof. vm_compute. split; reflexivity. Qed.

(** C8 (as amended): send-message never fails with a not-found error, and
    fails with 'Thread does not belong to this user' only when a stored
    thread has another [userId]. When no thread is stored under the id, the
    four required fields are present and the role is one of user, assistant
    and system, it succeeds: the stored thread is owned by the caller and
    holds only the new message, and the thread is in the caller's list. *)
Theorem sendMessageProc_creates_thread (args : ChatAgent.SendArgs)
    (w : World ChatAgent.Store) :
  let threadId := ChatAgent.s_threadId args in
  let userId := ChatAgent.s_userId args in
  (forall e w', ChatAgent.sendMessageProc args w = (Throw e, w') ->
     (forall k, e <> NotFound k) /\ (forall t, e <> ThreadNotFound t))
  /\ (forall w', ChatAgent.sendMessageProc args w = (Throw ThreadNotOwned, w') ->
        exists th,
          ChatAgent.threads (storage w) !! ChatAgent.thread_key threadId = Some th
          /\ ChatAgent.th_userId th <> userId)
  /\ (ChatAgent.threads (storage w) !! ChatAgent.thread_key threadId = None ->
      ~ send_missing_fields args ->
      ChatAgent.s_role args ∈ ChatAgent.roles ->
      exists res w' th,
        ChatAgent.sendMessageProc args w = (Ok res, w')
        /\ ChatAgent.threads (storage w') !! ChatAgent.thread_key threadId = Some th
        /\ ChatAgent.th_threadId th = threadId
        /\ ChatAgent.th_userId th = userId
        /\ ChatAgent.th_messages th = [ChatAgent.sr_message res]
        /\ ChatAgent.msg_role (ChatAgent.sr_message res) = ChatAgent.s_role args
        /\ ChatAgent.msg_content (ChatAgent.sr_message res) = ChatAgent.s_content args
        /\ threadId ∈ ChatAgent.getUserThreads (storage w') userId).
Proof.
  intros threadId userId.
  destruct w as [[ths uts] ch ev tk ck en].
  cbn [storage ChatAgent.threads].
  unfold ChatAgent.sendMessageProc. fold threadId userId.
  destruct (negb (Js.truthy threadId) || negb (Js.truthy userId)
            || negb (Js.truthy (ChatAgent.s_role args))
            || negb (Js.truthy (ChatAgent.s_content args))) eqn:Hm.
  { split; [| split].
    - intros e w' [= <- _]. split; discriminate.
    - intros w' H. discriminate H.
    - intros _ Hnm _. exfalso. apply Hnm, send_missing_fields_reflect, Hm. }
  destruct (bool_decide_reflect (ChatAgent.s_role args ∈ ChatAgent.roles))
    as [Hrole | Hrole]; cbn [negb].
  2:{ split; [| split].
      - intros e w' [= <- _]. split; discriminate.
      - intros w' H. discriminate H.
      - intros _ _ Hr. exfalso. auto. }
  exec_chat.
  destruct (ths !! ChatAgent.thread_key threadId) as [th |] eqn:Hth.
  - (* a stored thread *)
    cbn [ChatAgent.th_userId].
    destruct (String.eqb_spec (ChatAgent.th_userId th) userId) as [Hown | Hown];
      cbn [negb].
    + split; [| split].
      * destruct (uts !! _) as [ut |];
          [destruct (bool_decide _) |]; cbn [negb]; intros e w' H; discriminate H.
      * destruct (uts !! _) as [ut |];
          [destruct (bool_decide _) |]; cbn [negb]; intros w' H; discriminate H.
      * intros H. discriminate H.
    + split; [| split].
      * intros e w' [= <- _]. split; discriminate.
      * intros w' _. exists th. auto.
      * intros H. discriminate H.
  - (* no stored thread: the default thread belongs to the caller *)
    cbn [ChatAgent.th_userId]. rewrite String.eqb_refl. cbn [negb].
    split; [| split].
    + destruct (uts !! _) as [ut |];
        [destruct (bool_decide _) |]; cbn [negb]; intros e w' H; discriminate H.
    + destruct (uts !! _) as [ut |];
        [destruct (bool_decide _) |]; cbn [negb]; intros w' H; discriminate H.
    + intros _ _ _. unfold ChatAgent.getUserThreads.
      destruct (uts !! ChatAgent.userThreads_key userId) as [ut |] eqn:Hut.
      * destruct (bool_decide_reflect (threadId ∈ ChatAgent.ut_threads ut))
          as [Hin | Hin]; cbn [negb].
        -- eexists _, _, _. split; [reflexivity |].
           cbn [storage ChatAgent.threads ChatAgent.userThreads].
           rewrite lookup_insert_eq, Hut.
           split; [reflexivity |]. repeat (split; [reflexivity |]). exact Hin.
        -- eexists _, _, _. split; [reflexivity |].
           cbn [storage ChatAgent.threads ChatAgent.userThreads].
           rewrite !lookup_insert_eq.
           split; [reflexivity |]. repeat (split; [reflexivity |]).
           cbn [ChatAgent.ut_threads]. apply elem_of_app. right. left.
      * cbn [bool_decide decide_rel negb].
        eexists _, _, _. split; [reflexivity |].
        cbn [storage ChatAgent.threads ChatAgent.userThreads].
        rewrite !lookup_insert_eq.
        split; [reflexivity |]. repeat (split; [reflexivity |]).
        cbn [ChatAgent.ut_threads]. left.
Qed.

Lemma sendMessageProc_creates_thread_witness :
  exists res w' th,
    ChatAgent.sendMessageProc
      (ChatAgent.mkSendArgs "thread-1" "user-123" "user"
         "Hello! I need help with my project." (Js.Obj []))
      (world0 no_threads) = (Ok res, w')
    /\ ChatAgent.threads (storage w') !! ChatAgent.thread_key "thread-1" = Some th
    /\ ChatAgent.th_threadId th = "thread-1"
    /\ ChatAgent.th_userId th = "user-123"
    /\ ChatAgent.th_messages th = [ChatAgent.sr_message res]
    /\ ChatAgent.msg_role (ChatAgent.sr_message res) = "user"
    /\ ChatAgent.msg_content (ChatAgent.sr_message res)
       = "Hello! I need help with my project."
    /\ "thread-1" ∈ ChatAgent.getUserThreads (storage w') "user-123".
Proof.
  destruct (sendMessageProc_creates_thread
              (ChatAgent.mkSendArgs "thread-1" "user-123" "user"
                 "Hello! I need help with my project." (Js.Obj []))
              (world0 no_threads)) as (_ & _ & H).
  apply H.
  - reflexivity.
  - rewrite send_missing_fields_reflect. vm_compute. discriminate.
  - left.
Defined.

(** C8 (as stated) fails: with no stored thread, a call with the role
    'admin' throws and creates no thread, and so does a call with an empty
    thread id. *)
Lemma send_invalid_call_creates_nothing :
  ChatAgent.threads (storage (world0 no_threads)) !! ChatAgent.thread_key "thread-1"
  = None
  /\ (exists w',
        ChatAgent.sendMessageProc
          (ChatAgent.mkSendArgs "thread-1" "user-123" "admin" "hi" (Js.Obj []))
          (world0 no_threads) = (Throw InvalidRole, w')
        /\ ChatAgent.threads (storage w') !! ChatAgent.thread_key "thread-1" = None)
  /\ ChatAgent.threads (storage (world0 no_threads)) !! ChatAgent.thread_key "" = None
  /\ (exists w',
        ChatAgent.sendMessageProc
          (ChatAgent.mkSendArgs "" "user-123" "user" "hi" (Js.Obj []))
          (world0 no_threads)
        = (Throw (MissingRequiredFields "threadId, userId, role, content"), w')
        /\ ChatAgent.threads (storage w') !! ChatAgent.thread_key "" = None).
Proof.
  split; [reflexivity |]. split; [eexists; split; reflexivity |].
  split; [reflexivity |]. eexists; split; reflexivity.
Qed.

Lemma getConversationProc_sorted_conversation_witness :
  exists res w',
    ChatAgent.getConversationProc (ChatAgent.mkGetArgs "thread-1" "user-123" (Some 2%Z))
      (world0 one_thread) = (Ok res, w')
    /\ ChatAgent.cv_messages res = [reply; followup]
    /\ ChatAgent.cv_messageCount res = 3.
Proof.
  destruct (ChatAgent.getConversationProc
              (ChatAgent.mkGetArgs "thread-1" "user-123" (Some 2%Z))
              (world0 one_thread)) as [[res | e] w'] eqn:E.
  - exists res, w'. split; [reflexivity |].
    destruct (getConversationProc_sorted_conversation
                (ChatAgent.mkGetArgs "thread-1" "user-123" (Some 2%Z))
                (world0 one_thread)
                (ChatAgent.mkThread "thread-1" "user-123" [reply; followup; hello]
                   1700000000000%Z 1700000000009%Z (Js.Obj []))
                eq_refl eq_refl eq_refl eq_refl) as (_ & H).
    destruct (H res w' E) as (_ & Hcount & _ & Hlast).
    split; [| exact Hcount].
    rewrite (Hlast 2%Z eq_refl); [reflexivity | lia].
  - exfalso. vm_compute in E. discriminate E.
Defined.

(** C10 (as stated) fails: the stored messages have distinct ids and are
    well formed, yet the procedure throws for a caller who does not own the
    thread. *)
Lemma conversation_refused_to_other_user :
  (exists e w',
     ChatAgent.getConversationProc (ChatAgent.mkGetArgs "thread-1" "user-999" None)
       (world0 one_thread) = (Throw e, w'))
  /\ ~ (duplicate_ids [reply; followup; hello] \/ some_malformed [reply; followup; hello]).
Proof.
  split.
  - eexists _, _. reflexivity.
  - intros [Hd | Hm].
    + apply Hd. apply (bool_decide_unpack _). vm_compute. exact I.
    + unfold some_malformed in Hm. rewrite Exists_exists in Hm.
      destruct Hm as (m & Hin & Hm).
      repeat (apply elem_of_cons in Hin as [-> | Hin]; [discriminate Hm |]).
      inversion Hin.
Qed.

(** * Further properties *)

(** ** Sums and differences of doubles that are not negative *)

Lemma digits2_pos_bounds (m : positive) :
  (2 ^ (Z.pos (digits2_pos m) - 1) <= Z.pos m < 2 ^ Z.pos (digits2_pos m))%Z.
Proof.
  assert (Hstep : forall d, (0 < d)%Z -> (2 ^ d = 2 * 2 ^ (d - 1))%Z).
  { intros d Hd. rewrite <- Z.pow_succ_r by lia. f_equal. lia. }
  induction m as [m IH | m IH |]; cbn [digits2_pos].
  - rewrite Pos2Z.inj_succ, (Pos2Z.inj_xI m).
    rewrite (Hstep (Z.succ _)) by lia.
    replace (Z.succ (Z.pos (digits2_pos m)) - 1)%Z with (Z.pos (digits2_pos m)) by lia.
    pose proof (Hstep (Z.pos (digits2_pos m)) ltac:(lia)) as H.
    remember (2 ^ Z.pos (digits2_pos m))%Z as A eqn:HA.
    remember (2 ^ (Z.pos (digits2_pos m) - 1))%Z as B eqn:HB.
    clear HA HB Hstep. lia.
  - rewrite Pos2Z.inj_succ, (Pos2Z.inj_xO m).
    rewrite (Hstep (Z.succ _)) by lia.
    replace (Z.succ (Z.pos (digits2_pos m)) - 1)%Z with (Z.pos (digits2_pos m)) by lia.
    pose proof (Hstep (Z.pos (digits2_pos m)) ltac:(lia)) as H.
    remember (2 ^ Z.pos (digits2_pos m))%Z as A eqn:HA.
    remember (2 ^ (Z.pos (digits2_pos m) - 1))%Z as B eqn:HB.
    clear HA HB Hstep. lia.
  - cbn. lia.
Qed.

Lemma iter_xO_value (m d : positive) :
  Z.pos (Pos.iter xO m d) = (Z.pos m * 2 ^ Z.pos d)%Z.
Proof.
  induction d as [| d IH] using Pos.peano_ind.
  - cbn [Pos.iter]. rewrite Pos2Z.inj_xO. lia.
  - rewrite Pos.iter_succ, Pos2Z.inj_xO, IH, Pos2Z.inj_succ, Z.pow_succ_r by lia. lia.
Qed.

Lemma shl_align_value (m : positive) (e e' : Z) :
  (e' <= e)%Z -> Z.pos (fst (shl_align m e e')) = (Z.pos m * 2 ^ (e - e'))%Z.
Proof.
  intros Hle. unfold shl_align.
  destruct (e' - e)%Z as [| d | d] eqn:Hd; cbn [fst].
  - replace (e - e')%Z with 0%Z by lia. cbn. lia.
  - lia.
  - rewrite iter_xO_value. f_equal. f_equal. lia.
Qed.

Lemma binary_round_not_negative (m : positive) (e : Z) :
  SFltb (binary_round prec emax false m e) (S754_zero false) = false.
Proof.
  unfold binary_round.
  destruct (shl_align m e (fexp prec emax (Z.pos (digits2_pos m) + e))) as [mz ez].
  unfold binary_round_aux.
  destruct (shr_fexp prec emax (Z.pos mz) ez loc_Exact) as [mrs' e'].
  destruct (shr_fexp prec emax _ e' loc_Exact) as [mrs'' e''].
  destruct (shr_m mrs''); [reflexivity | | reflexivity].
  destruct (e'' <=? emax - prec)%Z; reflexivity.
Qed.

Lemma binary_normalize_not_negative (m e : Z) :
  (0 <= m)%Z ->
  SFltb (binary_normalize prec emax m e false) (S754_zero false) = false.
Proof.
  intros Hm. destruct m as [| m | m]; [reflexivity | | lia].
  apply binary_round_not_negative.
Qed.

(** The mantissa of a valid double has at most 53 digits, and exactly 53
    above the least exponent. *)
Lemma bounded_digits (m : positive) (e : Z) :
  bounded prec emax m e = true ->
  (Z.pos (digits2_pos m) <= 53
   /\ -1074 <= e
   /\ (Z.pos (digits2_pos m) = 53 \/ e = -1074))%Z.
Proof.
  unfold bounded, canonical_mantissa, fexp, emin, prec, emax.
  intros H. apply Bool.andb_true_iff in H as [H _].
  apply Z.eqb_eq in H. lia.
Qed.

(** A double of larger exponent has the larger magnitude. *)
Lemma larger_exponent (m1 m2 : positive) (e1 e2 : Z) :
  bounded prec emax m1 e1 = true ->
  bounded prec emax m2 e2 = true ->
  (e2 < e1)%Z ->
  (Z.pos m2 <= Z.pos m1 * 2 ^ (e1 - e2))%Z.
Proof.
  intros H1 H2 Hlt.
  apply bounded_digits in H1 as (_ & _ & H1), H2 as (H2 & Hmin & _).
  destruct H1 as [H1 | H1]; [| lia].
  pose proof (digits2_pos_bounds m1) as [B1 _].
  pose proof (digits2_pos_bounds m2) as [_ B2].
  rewrite H1 in B1.
  assert (Hp : (2 ^ 1 <= 2 ^ (e1 - e2))%Z) by (apply Z.pow_le_mono_r; lia).
  assert (Hd : (2 ^ Z.pos (digits2_pos m2) <= 2 ^ 53)%Z)
    by (apply Z.pow_le_mono_r; lia).
  change (2 ^ (53 - 1))%Z with 4503599627370496%Z in B1.
  change (2 ^ 53)%Z with 9007199254740992%Z in Hd.
  change (2 ^ 1)%Z with 2%Z in Hp.
  nia.
Qed.

Lemma SFsub_not_negative (x y : spec_float) :
  SpecFloat.valid_binary prec emax x = true ->
  SpecFloat.valid_binary prec emax y = true ->
  SFltb x y = false ->
  SFltb (SFsub prec emax x y) (S754_zero false) = false.
Proof.
  intros Vx Vy H.
  destruct x as [sx | sx | | sx mx ex], y as [sy | sy | | sy my ey];
    try (destruct sx; try destruct sy; first [reflexivity | discriminate H]);
    try (destruct sy; first [reflexivity | discriminate H]);
    try reflexivity.
  cbn [SpecFloat.valid_binary] in Vx, Vy. cbn [SFsub].
  apply binary_normalize_not_negative.
  rewrite !shl_align_value by lia.
  unfold SFltb, SFcompare in H.
  destruct sx, sy; cbn [cond_Zopp]; try discriminate H; [| lia |].
  - destruct (Z.compare_spec ex ey) as [Heq | Hlt | Hgt]; try discriminate H.
    + subst ey. rewrite Z.min_id, Z.sub_diag. cbn [Z.pow].
      change (PosDef.Pos.compare_cont Eq mx my) with (Pos.compare mx my) in H.
      destruct (Pos.compare_spec mx my); cbn in H; try discriminate H; lia.
    + rewrite Z.min_l by lia. rewrite Z.sub_diag. change (2 ^ 0)%Z with 1%Z.
      pose proof (larger_exponent my mx ey ex Vy Vx Hlt). lia.
  - destruct (Z.compare_spec ex ey) as [Heq | Hlt | Hgt]; try discriminate H.
    + subst ey. rewrite Z.min_id, Z.sub_diag. cbn [Z.pow].
      change (PosDef.Pos.compare_cont Eq mx my) with (Pos.compare mx my) in H.
      destruct (Pos.compare_spec mx my); cbn in H; try discriminate H; lia.
    + rewrite Z.min_r by lia. rewrite Z.sub_diag. change (2 ^ 0)%Z with 1%Z.
      pose proof (larger_exponent mx my ex ey Vx Vy Hgt). lia.
Qed.

(** [x - y] is not negative when [x < y] does not hold (this includes the
    cases where one of them is NaN). *)
Lemma sub_not_negative (x y : float) :
  (x <? y)%float = false -> (x - y <? 0)%float = false.
Proof.
  rewrite !FloatAxioms.ltb_spec, FloatAxioms.sub_spec.
  change (Prim2SF 0) with (S754_zero false).
  apply SFsub_not_negative; apply Prim2SF_valid.
Qed.

Lemma SFadd_not_negative (x y : spec_float) :
  SFltb x (S754_zero false) = false ->
  SFltb y (S754_zero false) = false ->
  SFltb (SFadd prec emax x y) (S754_zero false) = false.
Proof.
  intros Hx Hy.
  destruct x as [sx | sx | | sx mx ex], y as [sy | sy | | sy my ey];
    try (destruct sx; try destruct sy; first [reflexivity | discriminate]);
    try (destruct sy; first [reflexivity | discriminate]);
    try reflexivity.
  destruct sx; [discriminate Hx |]. destruct sy; [discriminate Hy |].
  cbn [SFadd]. apply binary_normalize_not_negative. cbn [cond_Zopp]. lia.
Qed.

(** [x + y] is not negative when neither [x] nor [y] is. *)
Lemma add_not_negative (x y : float) :
  (x <? 0)%float = false -> (y <? 0)%float = false -> (x + y <? 0)%float = false.
Proof.
  rewrite !FloatAxioms.ltb_spec, FloatAxioms.add_spec.
  change (Prim2SF 0) with (S754_zero false).
  apply SFadd_not_negative.
Qed.

(** An amount that passes the guard [amount <= 0] is not negative. *)
Lemma passed_guard_not_negative (a : float) :
  (a <=? 0)%float = false -> (a <? 0)%float = false.
Proof.
  rewrite FloatAxioms.ltb_spec, FloatAxioms.leb_spec. unfold SFltb, SFleb.
  destruct (SFcompare (Prim2SF a) (Prim2SF 0)) as [[] |]; congruence.
Qed.

(** ** Token procedures, continued *)

Lemma add_zero_l (x : float) : (x <=? 0)%float = false -> (0 + x)%float = x.
Proof.
  intros H. apply Prim2SF_inj. rewrite FloatAxioms.add_spec.
  rewrite FloatAxioms.leb_spec in H. unfold SFleb in H.
  change (Prim2SF 0) with (S754_zero false) in *.
  unfold SF64add, SFadd.
  destruct (Prim2SF x) as [s|s| |s m e]; try reflexivity.
  destruct s; discriminate H.
Qed.

(** A procedure that throws has saved nothing and appended nothing. *)
Lemma run_failure_unchanged (p : procedure)
    (w w' : World (gmap string Balance)) (e : error) :
  run p w = (Throw e, w') ->
  storage w' = storage w /\ chain w' = chain w /\ tick w' = tick w
  /\ writes (events_since w w') = 0 /\ appended (events_since w w') = 0.
Proof.
  intros H. destruct w as [st ch ev tk ck en].
  destruct p as [a|a|a|a|a|a]; cbn [run] in H.
  - unfold Token.transferProc in H. on_guard H.
    + injection H as _ <-. unfold events_since. rewrite drop_all. auto.
    + run_proc in H. on_guard H. injection H as _ <-. simpl.
      erewrite events_since_app by (simpl; reflexivity). auto.
  - unfold Token.mintProc in H. on_guard H.
    injection H as _ <-. unfold events_since. rewrite drop_all. auto.
  - unfold Token.burnProc in H. on_guard H.
    + injection H as _ <-. unfold events_since. rewrite drop_all. auto.
    + run_proc in H. on_guard H. injection H as _ <-. simpl.
      erewrite events_since_app by (simpl; reflexivity). auto.
  - unfold PrivateToken.transferProc in H. on_guard H.
    + injection H as _ <-. unfold events_since. rewrite drop_all. auto.
    + run_proc in H. on_guard H. injection H as _ <-. simpl.
      erewrite events_since_app by (simpl; reflexivity). auto.
  - unfold PrivateToken.mintProc in H. on_guard H.
    injection H as _ <-. unfold events_since. rewrite drop_all. auto.
  - unfold PrivateToken.burnProc in H. on_guard H.
    + injection H as _ <-. unfold events_since. rewrite drop_all. auto.
    + run_proc in H. on_guard H. injection H as _ <-. simpl.
      erewrite events_since_app by (simpl; reflexivity). auto.
Qed.

(** X1: a refused procedure writes nothing. When a transfer, a mint or a
    burn - of the token or of the private token - throws the error of one
    of its guards ('... amount must be positive', 'Insufficient balance'),
    the store and the chain are as before the call: the guards come before
    the first write, so no balance was saved, no block appended, and neither
    the clock nor the random source was drawn. *)
Theorem refused_procedure_writes_nothing (p : procedure)
    (w w' : World (gmap string Balance)) (e : error) :
  run p w = (Throw e, w') ->
  guard_error e ->
  storage w' = storage w /\ chain w' = chain w /\ tick w' = tick w
  /\ writes (events_since w w') = 0 /\ appended (events_since w w') = 0.
Proof. intros H _. exact (run_failure_unchanged p w w' e H). Qed.

(** The runs that pass the guards, with what they store, log and return. *)

Lemma Token_transferProc_returns (args : TransferArgs) (w : World (gmap string Balance)) :
  (t_amount args <=? 0)%float = false ->
  (balance (or_zero (storage w !! balance_key (t_from args))) <? t_amount args)%float = false ->
  exists res d t1 t2 txId,
    Token.transferProc args w
    = (Ok res,
       mkWorld
         (<[balance_key (t_to args) :=
              mkBalance (Some (t_to args))
                (balance (or_zero (storage w !! balance_key (t_to args))) + t_amount args)%float
                (Some t2)]>
          (<[balance_key (t_from args) :=
               mkBalance (Some (t_from args))
                 (balance (or_zero (storage w !! balance_key (t_from args))) - t_amount args)%float
                 (Some t1)]> (storage w)))
         (chain w ++ [WriteBlock (balance_key (t_from args));
                      WriteBlock (balance_key (t_to args));
                      DataBlock d])
         (events w ++ [EGet (balance_key (t_from args));
                       EGet (balance_key (t_to args));
                       ESave (balance_key (t_from args)) false;
                       ESave (balance_key (t_to args)) false;
                       EAddBlock d])
         (5 + tick w)%nat (clock w) (entropy w))
    /\ Js.get "type" d = Js.Str "transfer"
    /\ Js.get "txId" d = Js.Str txId
    /\ Js.get "txId" res = Js.Str txId
    /\ Js.get "fromBalance" res
       = Js.Num (balance (or_zero (storage w !! balance_key (t_from args))) - t_amount args)%float
    /\ Js.get "toBalance" res
       = Js.Num (balance (or_zero (storage w !! balance_key (t_to args))) + t_amount args)%float.
Proof.
  intros Hpos Hbal. unfold Token.transferProc. rewrite Hpos.
  run_proc. rewrite Hbal. run_proc.
  do 5 eexists. split; [rewrite <- !app_assoc; cbn [app]; reflexivity |].
  repeat split; reflexivity.
Qed.

Lemma Private_transferProc_returns (args : TransferArgs) (w : World (gmap string Balance)) :
  (t_amount args <=? 0)%float = false ->
  (balance (or_zero (storage w !! balance_key (t_from args))) <? t_amount args)%float = false ->
  exists res t1 t2,
    PrivateToken.transferProc args w
    = (Ok res,
       mkWorld
         (<[balance_key (t_to args) :=
              mkBalance (Some (t_to args))
                (balance (or_zero (storage w !! balance_key (t_to args))) + t_amount args)%float
                (Some t2)]>
          (<[balance_key (t_from args) :=
               mkBalance (Some (t_from args))
                 (balance (or_zero (storage w !! balance_key (t_from args))) - t_amount args)%float
                 (Some t1)]> (storage w)))
         (chain w ++ [WriteBlock (balance_key (t_from args));
                      WriteBlock (balance_key (t_to args))])
         (events w ++ [EGet (balance_key (t_from args));
                       EGet (balance_key (t_to args));
                       ESave (balance_key (t_from args)) true;
                       ESave (balance_key (t_to args)) true])
         (2 + tick w)%nat (clock w) (entropy w))
    /\ Js.get "txId" res = Js.Undefined
    /\ Js.get "fromBalance" res
       = Js.Num (balance (or_zero (storage w !! balance_key (t_from args))) - t_amount args)%float
    /\ Js.get "toBalance" res
       = Js.Num (balance (or_zero (storage w !! balance_key (t_to args))) + t_amount args)%float.
Proof.
  intros Hpos Hbal. unfold PrivateToken.transferProc. rewrite Hpos.
  run_proc. rewrite Hbal. run_proc.
  do 3 eexists. split; [rewrite <- !app_assoc; cbn [app]; reflexivity |].
  repeat split; reflexivity.
Qed.

Lemma Token_mintProc_returns (args : MintArgs) (w : World (gmap string Balance)) :
  (m_amount args <=? 0)%float = false ->
  exists res d t1 txId,
    Token.mintProc args w
    = (Ok res,
       mkWorld
         (<[balance_key (m_to args) :=
              mkBalance (Some (m_to args))
                (balance (or_zero (storage w !! balance_key (m_to args))) + m_amount args)%float
                (Some t1)]> (storage w))
         (chain w ++ [WriteBlock (balance_key (m_to args)); DataBlock d])
         (events w ++ [EGet (balance_key (m_to args));
                       ESave (balance_key (m_to args)) false;
                       EAddBlock d])
         (4 + tick w)%nat (clock w) (entropy w))
    /\ Js.get "type" d = Js.Str "mint"
    /\ Js.get "txId" d = Js.Str txId
    /\ Js.get "txId" res = Js.Str txId
    /\ Js.get "balance" res
       = Js.Num (balance (or_zero (storage w !! balance_key (m_to args))) + m_amount args)%float.
Proof.
  intros Hpos. unfold Token.mintProc. rewrite Hpos. run_proc.
  do 4 eexists. split; [rewrite <- !app_assoc; cbn [app]; reflexivity |].
  repeat split; reflexivity.
Qed.

Lemma Private_mintProc_returns (args : MintArgs) (w : World (gmap string Balance)) :
  (m_amount args <=? 0)%float = false ->
  exists res t1,
    PrivateToken.mintProc args w
    = (Ok res,
       mkWorld
         (<[balance_key (m_to args) :=
              mkBalance (Some (m_to args))
                (balance (or_zero (storage w !! balance_key (m_to args))) + m_amount args)%float
                (Some t1)]> (storage w))
         (chain w ++ [WriteBlock (balance_key (m_to args))])
         (events w ++ [EGet (balance_key (m_to args));
                       ESave (balance_key (m_to args)) true])
         (1 + tick w)%nat (clock w) (entropy w))
    /\ Js.get "txId" res = Js.Undefined
    /\ Js.get "balance" res
       = Js.Num (balance (or_zero (storage w !! balance_key (m_to args))) + m_amount args)%float.
Proof.
  intros Hpos. unfold PrivateToken.mintProc. rewrite Hpos. run_proc.
  do 2 eexists. split; [rewrite <- !app_assoc; cbn [app]; reflexivity |].
  repeat split; reflexivity.
Qed.

Lemma Token_burnProc_returns (args : BurnArgs) (w : World (gmap string Balance)) :
  (b_amount args <=? 0)%float = false ->
  (balance (or_zero (storage w !! balance_key (b_from args))) <? b_amount args)%float = false ->
  exists res d t1 txId,
    Token.burnProc args w
    = (Ok res,
       mkWorld
         (<[balance_key (b_from args) :=
              mkBalance (Some (b_from args))
                (balance (or_zero (storage w !! balance_key (b_from args))) - b_amount args)%float
                (Some t1)]> (storage w))
         (chain w ++ [WriteBlock (balance_key (b_from args)); DataBlock d])
         (events w ++ [EGet (balance_key (b_from args));
                       ESave (balance_key (b_from args)) false;
                       EAddBlock d])
         (4 + tick w)%nat (clock w) (entropy w))
    /\ Js.get "type" d = Js.Str "burn"
    /\ Js.get "txId" d = Js.Str txId
    /\ Js.get "txId" res = Js.Str txId
    /\ Js.get "balance" res
       = Js.Num (balance (or_zero (storage w !! balance_key (b_from args))) - b_amount args)%float.
Proof.
  intros Hpos Hbal. unfold Token.burnProc. rewrite Hpos. run_proc.
  rewrite Hbal. run_proc.
  do 4 eexists. split; [rewrite <- !app_assoc; cbn [app]; reflexivity |].
  repeat split; reflexivity.
Qed.

Lemma Private_burnProc_returns (args : BurnArgs) (w : World (gmap string Balance)) :
  (b_amount args <=? 0)%float = false ->
  (balance (or_zero (storage w !! balance_key (b_from args))) <? b_amount args)%float = false ->
  exists res t1,
    PrivateToken.burnProc args w
    = (Ok res,
       mkWorld
         (<[balance_key (b_from args) :=
              mkBalance (Some (b_from args))
                (balance (or_zero (storage w !! balance_key (b_from args))) - b_amount args)%float
                (Some t1)]> (storage w))
         (chain w ++ [WriteBlock (balance_key (b_from args))])
         (events w ++ [EGet (balance_key (b_from args));
                       ESave (balance_key (b_from args)) true])
         (1 + tick w)%nat (clock w) (entropy w))
    /\ Js.get "txId" res = Js.Undefined
    /\ Js.get "balance" res
       = Js.Num (balance (or_zero (storage w !! balance_key (b_from args))) - b_amount args)%float.
Proof.
  intros Hpos Hbal. unfold PrivateToken.burnProc. rewrite Hpos. run_proc.
  rewrite Hbal. run_proc.
  do 2 eexists. split; [rewrite <- !app_assoc; cbn [app]; reflexivity |].
  repeat split; reflexivity.
Qed.
Lemma transfer_success_guards (args : TransferArgs) (w w' : World (gmap string Balance))
    (res : Js.object) :
  Token.transferProc args w = (Ok res, w')
  \/ PrivateToken.transferProc args w = (Ok res, w') ->
  (t_amount args <=? 0)%float = false
  /\ (balance (or_zero (storage w !! balance_key (t_from args))) <? t_amount args)%float
     = false.
Proof.
  intros H.
  destruct (t_amount args <=? 0)%float eqn:G1.
  { exfalso. destruct H as [H | H];
      [unfold Token.transferProc in H | unfold PrivateToken.transferProc in H];
      rewrite G1 in H; discriminate H. }
  split; [reflexivity |].
  destruct (balance _ <? _)%float eqn:G2; [| reflexivity].
  exfalso. destruct H as [H | H];
    [unfold Token.transferProc in H | unfold PrivateToken.transferProc in H];
    rewrite G1 in H; run_proc in H; rewrite G2 in H; discriminate H.
Qed.

Lemma mint_success_guard (args : MintArgs) (w w' : World (gmap string Balance))
    (res : Js.object) :
  Token.mintProc args w = (Ok res, w') \/ PrivateToken.mintProc args w = (Ok res, w') ->
  (m_amount args <=? 0)%float = false.
Proof.
  intros H.
  destruct (m_amount args <=? 0)%float eqn:G1; [| reflexivity].
  exfalso. destruct H as [H | H];
    [unfold Token.mintProc in H | unfold PrivateToken.mintProc in H];
    rewrite G1 in H; discriminate H.
Qed.

Lemma burn_success_guards (args : BurnArgs) (w w' : World (gmap string Balance))
    (res : Js.object) :
  Token.burnProc args w = (Ok res, w') \/ PrivateToken.burnProc args w = (Ok res, w') ->
  (b_amount args <=? 0)%float = false
  /\ (balance (or_zero (storage w !! balance_key (b_from args))) <? b_amount args)%float
     = false.
Proof.
  intros H.
  destruct (b_amount args <=? 0)%float eqn:G1.
  { exfalso. destruct H as [H | H];
      [unfold Token.burnProc in H | unfold PrivateToken.burnProc in H];
      rewrite G1 in H; discriminate H. }
  split; [reflexivity |].
  destruct (balance _ <? _)%float eqn:G2; [| reflexivity].
  exfalso. destruct H as [H | H];
    [unfold Token.burnProc in H | unfold PrivateToken.burnProc in H];
    rewrite G1 in H; run_proc in H; rewrite G2 in H; discriminate H.
Qed.

Lemma getBalance_or_zero (s : gmap string Balance) (a : string) :
  Token.getBalance s a = balance (or_zero (s !! balance_key a)).
Proof. unfold Token.getBalance. destruct (s !! balance_key a); reflexivity. Qed.

Lemma balance_key_ne (a b : string) : a <> b -> balance_key a <> balance_key b.
Proof. intros Hne Heq. apply Hne. exact (balance_key_inj _ _ Heq). Qed.

(** X2: a transfer from an address to itself, when it passes the guards,
    leaves the address with its balance plus the amount: the debit is saved
    first and then overwritten by the credit, which was computed from the
    balance read before the debit. The result reports the debit as
    [fromBalance] and the credit as [toBalance]. *)
Theorem transfer_to_self_credits (args : TransferArgs)
    (w w' : World (gmap string Balance)) (res : Js.object) :
  t_to args = t_from args ->
  Token.transferProc args w = (Ok res, w')
  \/ PrivateToken.transferProc args w = (Ok res, w') ->
  Token.getBalance (storage w') (t_from args)
  = (Token.getBalance (storage w) (t_from args) + t_amount args)%float
  /\ Js.get "fromBalance" res
     = Js.Num (Token.getBalance (storage w) (t_from args) - t_amount args)%float
  /\ Js.get "toBalance" res
     = Js.Num (Token.getBalance (storage w) (t_from args) + t_amount args)%float.
Proof.
  intros Hself H.
  destruct (transfer_success_guards _ _ _ _ H) as [G1 G2].
  rewrite !getBalance_or_zero.
  destruct H as [H | H].
  - destruct (Token_transferProc_returns args w G1 G2)
      as (res0 & d & t1 & t2 & txId & Hrun & _ & _ & _ & Hfrom & Hto).
    rewrite Hrun in H. injection H as <- <-. cbn [storage].
    rewrite Hself in *. rewrite lookup_insert_eq. auto.
  - destruct (Private_transferProc_returns args w G1 G2)
      as (res0 & t1 & t2 & Hrun & _ & Hfrom & Hto).
    rewrite Hrun in H. injection H as <- <-. cbn [storage].
    rewrite Hself in *. rewrite lookup_insert_eq. auto.
Qed.

Lemma transfer_to_self_credits_witness :
  exists res w',
    Token.transferProc (mkTransferArgs "alice" "alice" 40%float) (world0 alice_bob)
    = (Ok res, w')
    /\ Token.getBalance (storage w') "alice" = 140%float
    /\ Js.get "fromBalance" res = Js.Num 60%float.
Proof.
  destruct (Token.transferProc (mkTransferArgs "alice" "alice" 40%float)
              (world0 alice_bob)) as [[res | e] w'] eqn:E.
  - exists res, w'. split; [reflexivity |].
    destruct (transfer_to_self_credits (mkTransferArgs "alice" "alice" 40%float)
                (world0 alice_bob) w' res eq_refl (or_introl E)) as (Hb & Hf & _).
    split; [exact Hb | exact Hf].
  - exfalso. vm_compute in E. discriminate E.
Defined.
(** X3: whatever its outcome, a token procedure leaves every record of the
    store as it was except the balance records of its parties: the sender
    and the receiver of a transfer, the receiver of a mint, the holder of a
    burn. *)
Theorem procedures_touch_parties_only (p : procedure)
    (w w' : World (gmap string Balance)) (out : outcome Js.object) (key : string) :
  run p w = (out, w') ->
  (forall a, a ∈ parties p -> key <> balance_key a) ->
  storage w' !! key = storage w !! key.
Proof.
  intros H Hkey.
  destruct out as [res | e];
    [| destruct (run_failure_unchanged p w w' e H) as [-> _]; reflexivity].
  destruct p as [a|a|a|a|a|a]; cbn [run parties] in H, Hkey.
  - destruct (transfer_success_guards _ _ _ _ (or_introl H)) as [G1 G2].
    destruct (Token_transferProc_returns a w G1 G2) as (r & d & t1 & t2 & tx & Hrun & _).
    rewrite Hrun in H. injection H as _ <-. cbn [storage].
    rewrite !lookup_insert_ne; [reflexivity | |];
      intros Heq; eapply Hkey; eauto; set_solver.
  - pose proof (mint_success_guard _ _ _ _ (or_introl H)) as G1.
    destruct (Token_mintProc_returns a w G1) as (r & d & t1 & tx & Hrun & _).
    rewrite Hrun in H. injection H as _ <-. cbn [storage].
    rewrite !lookup_insert_ne; [reflexivity |];
      intros Heq; eapply Hkey; eauto; set_solver.
  - destruct (burn_success_guards _ _ _ _ (or_introl H)) as [G1 G2].
    destruct (Token_burnProc_returns a w G1 G2) as (r & d & t1 & tx & Hrun & _).
    rewrite Hrun in H. injection H as _ <-. cbn [storage].
    rewrite !lookup_insert_ne; [reflexivity |];
      intros Heq; eapply Hkey; eauto; set_solver.
  - destruct (transfer_success_guards _ _ _ _ (or_intror H)) as [G1 G2].
    destruct (Private_transferProc_returns a w G1 G2) as (r & t1 & t2 & Hrun & _).
    rewrite Hrun in H. injection H as _ <-. cbn [storage].
    rewrite !lookup_insert_ne; [reflexivity | |];
      intros Heq; eapply Hkey; eauto; set_solver.
  - pose proof (mint_success_guard _ _ _ _ (or_intror H)) as G1.
    destruct (Private_mintProc_returns a w G1) as (r & t1 & Hrun & _).
    rewrite Hrun in H. injection H as _ <-. cbn [storage].
    rewrite !lookup_insert_ne; [reflexivity |];
      intros Heq; eapply Hkey; eauto; set_solver.
  - destruct (burn_success_guards _ _ _ _ (or_intror H)) as [G1 G2].
    destruct (Private_burnProc_returns a w G1 G2) as (r & t1 & Hrun & _).
    rewrite Hrun in H. injection H as _ <-. cbn [storage].
    rewrite !lookup_insert_ne; [reflexivity |];
      intros Heq; eapply Hkey; eauto; set_solver.
Qed.

Lemma procedures_touch_parties_only_witness :
  exists out w',
    run (TokenTransfer (mkTransferArgs "alice" "bob" 40%float))
        (world0 (<["balance:carol" := mkBalance (Some "carol") 7 (Some 0%Z)]> alice_bob))
    = (out, w')
    /\ storage w' !! "balance:carol" = Some (mkBalance (Some "carol") 7 (Some 0%Z)).
Proof.
  destruct (run (TokenTransfer (mkTransferArgs "alice" "bob" 40%float))
              (world0 (<["balance:carol" := mkBalance (Some "carol") 7 (Some 0%Z)]>
                         alice_bob)))
    as [out w'] eqn:E.
  exists out, w'. split; [reflexivity |].
  rewrite (procedures_touch_parties_only _ _ _ _ "balance:carol" E); [reflexivity |].
  intros a Ha. cbn [parties t_from t_to] in Ha.
  apply elem_of_cons in Ha as [-> | Ha]; [discriminate |].
  apply elem_of_cons in Ha as [-> | Ha]; [discriminate |].
  inversion Ha.
Defined.
(** X4: a mint throws exactly when [amount <= 0] holds. Otherwise it
    succeeds, for the token and for the private token alike: the receiver's
    balance is its balance before plus the amount (in double arithmetic),
    which is the amount itself for an address without a record, the result
    reports the new balance, and no other address changes. *)
Theorem mintProc_refuses_or_credits (args : MintArgs) (w : World (gmap string Balance))
    (p : procedure) :
  p = TokenMint args \/ p = PrivateMint args ->
  ((exists e w', run p w = (Throw e, w')) <-> (m_amount args <=? 0)%float = true)
  /\ forall res w',
       run p w = (Ok res, w') ->
       Token.getBalance (storage w') (m_to args)
       = (Token.getBalance (storage w) (m_to args) + m_amount args)%float
       /\ (storage w !! balance_key (m_to args) = None ->
           Token.getBalance (storage w') (m_to args) = m_amount args)
       /\ Js.get "balance" res = Js.Num (Token.getBalance (storage w') (m_to args))
       /\ forall a, a <> m_to args ->
            Token.getBalance (storage w') a = Token.getBalance (storage w) a.
Proof.
  intros Hp. split.
  - split.
    + intros (e & w' & H).
      destruct (m_amount args <=? 0)%float eqn:G1; [reflexivity |].
      exfalso. destruct Hp as [-> | ->]; cbn [run] in H.
      * destruct (Token_mintProc_returns args w G1) as (r & d & t1 & tx & Hrun & _).
        rewrite Hrun in H. discriminate H.
      * destruct (Private_mintProc_returns args w G1) as (r & t1 & Hrun & _).
        rewrite Hrun in H. discriminate H.
    + intros G1. destruct Hp as [-> | ->]; cbn [run];
        [unfold Token.mintProc | unfold PrivateToken.mintProc];
        rewrite G1; eexists _, _; reflexivity.
  - intros res w' H.
    assert (G1 : (m_amount args <=? 0)%float = false).
    { destruct Hp as [-> | ->]; cbn [run] in H;
        eapply mint_success_guard; [left | right]; exact H. }
    assert (Hst : storage w'
                  = <[balance_key (m_to args) :=
                        mkBalance (Some (m_to args))
                          (balance (or_zero (storage w !! balance_key (m_to args)))
                           + m_amount args)%float
                          (Some (clock w (tick w)))]> (storage w)
                  /\ Js.get "balance" res
                     = Js.Num (balance (or_zero (storage w !! balance_key (m_to args)))
                               + m_amount args)%float).
    { destruct Hp as [-> | ->]; cbn [run] in H.
      - unfold Token.mintProc in H. rewrite G1 in H. run_proc in H.
        injection H as <- <-. split; reflexivity.
      - unfold PrivateToken.mintProc in H. rewrite G1 in H. run_proc in H.
        injection H as <- <-. split; reflexivity. }
    destruct Hst as [Hst Hres].
    rewrite !getBalance_or_zero, Hst, lookup_insert_eq. cbn [or_zero balance].
    split; [reflexivity |]. split; [| split; [exact Hres |]].
    + intros ->. cbn [or_zero balance]. apply add_zero_l, G1.
    + intros a Ha. rewrite !getBalance_or_zero.
      rewrite lookup_insert_ne; [reflexivity |]. apply balance_key_ne. congruence.
Qed.

Lemma mintProc_refuses_or_credits_witness :
  exists res w',
    run (PrivateMint (mkMintArgs "carol" 25%float Js.Null)) (world0 alice_bob)
    = (Ok res, w')
    /\ Token.getBalance (storage w') "carol" = 25%float
    /\ Token.getBalance (storage w') "alice" = 100%float.
Proof.
  destruct (run (PrivateMint (mkMintArgs "carol" 25%float Js.Null)) (world0 alice_bob))
    as [[res | e] w'] eqn:E.
  - exists res, w'. split; [reflexivity |].
    destruct (mintProc_refuses_or_credits (mkMintArgs "carol" 25%float Js.Null)
                (world0 alice_bob) _ (or_intror eq_refl)) as [_ Hok].
    destruct (Hok res w' E) as (_ & Hnew & _ & Hothers).
    split; [apply Hnew; reflexivity |].
    rewrite (Hothers "alice"); [reflexivity | discriminate].
  - exfalso. vm_compute in E. discriminate E.
Defined.

(** X5: a burn throws exactly when [amount <= 0] or [balance < amount]
    holds, the balance of an address without a record being 0. Otherwise it
    succeeds, for the token and for the private token alike: the holder's
    balance is its balance before less the amount (in double arithmetic),
    the result reports the new balance, and no other address changes. *)
Theorem burnProc_refuses_or_debits (args : BurnArgs) (w : World (gmap string Balance))
    (p : procedure) :
  p = TokenBurn args \/ p = PrivateBurn args ->
  ((exists e w', run p w = (Throw e, w'))
   <-> (b_amount args <=? 0)%float = true
       \/ (Token.getBalance (storage w) (b_from args) <? b_amount args)%float = true)
  /\ forall res w',
       run p w = (Ok res, w') ->
       Token.getBalance (storage w') (b_from args)
       = (Token.getBalance (storage w) (b_from args) - b_amount args)%float
       /\ Js.get "balance" res = Js.Num (Token.getBalance (storage w') (b_from args))
       /\ forall a, a <> b_from args ->
            Token.getBalance (storage w') a = Token.getBalance (storage w) a.
Proof.
  intros Hp. rewrite getBalance_or_zero. split.
  - split.
    + intros (e & w' & H).
      destruct (b_amount args <=? 0)%float eqn:G1; [left; reflexivity |].
      destruct (balance _ <? _)%float eqn:G2; [right; reflexivity |].
      exfalso. destruct Hp as [-> | ->]; cbn [run] in H.
      * destruct (Token_burnProc_returns args w G1 G2) as (r & d & t1 & tx & Hrun & _).
        rewrite Hrun in H. discriminate H.
      * destruct (Private_burnProc_returns args w G1 G2) as (r & t1 & Hrun & _).
        rewrite Hrun in H. discriminate H.
    + intros G.
      destruct (b_amount args <=? 0)%float eqn:G1.
      * destruct Hp as [-> | ->]; cbn [run];
          [unfold Token.burnProc | unfold PrivateToken.burnProc];
          rewrite G1; eexists _, _; reflexivity.
      * destruct G as [G | G2]; [discriminate G |].
        destruct Hp as [-> | ->]; cbn [run];
          [unfold Token.burnProc | unfold PrivateToken.burnProc];
          rewrite G1; run_proc; rewrite G2; eexists _, _; reflexivity.
  - intros res w' H.
    assert (G : (b_amount args <=? 0)%float = false
                /\ (balance (or_zero (storage w !! balance_key (b_from args)))
                    <? b_amount args)%float = false).
    { destruct Hp as [-> | ->]; cbn [run] in H;
        eapply burn_success_guards; [left | right]; exact H. }
    destruct G as [G1 G2].
    assert (Hst : storage w'
                  = <[balance_key (b_from args) :=
                        mkBalance (Some (b_from args))
                          (balance (or_zero (storage w !! balance_key (b_from args)))
                           - b_amount args)%float
                          (Some (clock w (tick w)))]> (storage w)
                  /\ Js.get "balance" res
                     = Js.Num (balance (or_zero (storage w !! balance_key (b_from args)))
                               - b_amount args)%float).
    { destruct Hp as [-> | ->]; cbn [run] in H.
      - unfold Token.burnProc in H. rewrite G1 in H. run_proc in H.
        rewrite G2 in H. run_proc in H.
        injection H as <- <-. split; reflexivity.
      - unfold PrivateToken.burnProc in H. rewrite G1 in H. run_proc in H.
        rewrite G2 in H. run_proc in H.
        injection H as <- <-. split; reflexivity. }
    destruct Hst as [Hst Hres].
    rewrite !getBalance_or_zero, Hst, lookup_insert_eq. cbn [or_zero balance].
    split; [reflexivity |]. split; [exact Hres |].
    intros a Ha. rewrite !getBalance_or_zero.
    rewrite lookup_insert_ne; [reflexivity |]. apply balance_key_ne. congruence.
Qed.

Lemma burnProc_refuses_or_debits_witness :
  exists res w',
    run (TokenBurn (mkBurnArgs "alice" 30%float (Js.Str "0xWithdraw"))) (world0 alice_bob)
    = (Ok res, w')
    /\ Token.getBalance (storage w') "alice" = 70%float
    /\ Token.getBalance (storage w') "bob" = 0%float.
Proof.
  destruct (run (TokenBurn (mkBurnArgs "alice" 30%float (Js.Str "0xWithdraw")))
              (world0 alice_bob)) as [[res | e] w'] eqn:E.
  - exists res, w'. split; [reflexivity |].
    destruct (burnProc_refuses_or_debits (mkBurnArgs "alice" 30%float (Js.Str "0xWithdraw"))
                (world0 alice_bob) _ (or_introl eq_refl)) as [_ Hok].
    destruct (Hok res w' E) as (Hnew & _ & Hothers).
    split; [exact Hnew |].
    rewrite (Hothers "bob"); [reflexivity | discriminate].
  - exfalso. vm_compute in E. discriminate E.
Defined.

Ltac absurd_run E :=
  exfalso;
  apply (f_equal (fun r => succeeded (fst r))) in E;
  vm_compute in E; discriminate E.

(** X6: the log of a successful run. The procedure reads the balance of
    each of its parties, then saves the balance of each of them - encrypted
    by the private token, in the clear by the token - and the chain grows by
    the blocks of these writes. The token then appends one block, tagged
    'transfer', 'mint' or 'burn', whose [txId] is the one in the result; the
    private token appends no block and returns no [txId]. *)
Theorem successful_run_log (p : procedure) (w w' : World (gmap string Balance))
    (res : Js.object) :
  run p w = (Ok res, w') ->
  exists blocks,
    events_since w w'
    = ((EGet <$> (balance_key <$> parties p))
       ++ (flip ESave (is_private p) <$> (balance_key <$> parties p))
       ++ (EAddBlock <$> blocks))%list
    /\ chain_since w w'
       = ((WriteBlock <$> (balance_key <$> parties p)) ++ (DataBlock <$> blocks))%list
    /\ match block_type p with
       | Some type =>
           exists d txId,
             blocks = [d] /\ Js.get "type" d = Js.Str type
             /\ Js.get "txId" d = Js.Str txId /\ Js.get "txId" res = Js.Str txId
       | None => blocks = [] /\ Js.get "txId" res = Js.Undefined
       end.
Proof.
  intros H. destruct p as [a|a|a|a|a|a]; cbn [run parties is_private block_type] in *.
  - destruct (transfer_success_guards _ _ _ _ (or_introl H)) as [G1 G2].
    destruct (Token_transferProc_returns a w G1 G2)
      as (r & d & t1 & t2 & tx & Hrun & Hty & Hd & Hr & _).
    rewrite Hrun in H. injection H as <- <-.
    exists [d].
    erewrite events_since_app by (cbn [events]; reflexivity).
    erewrite chain_since_app by (cbn [chain]; reflexivity).
    repeat split. exists d, tx. auto.
  - pose proof (mint_success_guard _ _ _ _ (or_introl H)) as G1.
    destruct (Token_mintProc_returns a w G1) as (r & d & t1 & tx & Hrun & Hty & Hd & Hr & _).
    rewrite Hrun in H. injection H as <- <-.
    exists [d].
    erewrite events_since_app by (cbn [events]; reflexivity).
    erewrite chain_since_app by (cbn [chain]; reflexivity).
    repeat split. exists d, tx. auto.
  - destruct (burn_success_guards _ _ _ _ (or_introl H)) as [G1 G2].
    destruct (Token_burnProc_returns a w G1 G2)
      as (r & d & t1 & tx & Hrun & Hty & Hd & Hr & _).
    rewrite Hrun in H. injection H as <- <-.
    exists [d].
    erewrite events_since_app by (cbn [events]; reflexivity).
    erewrite chain_since_app by (cbn [chain]; reflexivity).
    repeat split. exists d, tx. auto.
  - destruct (transfer_success_guards _ _ _ _ (or_intror H)) as [G1 G2].
    destruct (Private_transferProc_returns a w G1 G2) as (r & t1 & t2 & Hrun & Hr & _).
    rewrite Hrun in H. injection H as <- <-.
    exists [].
    erewrite events_since_app by (cbn [events]; reflexivity).
    erewrite chain_since_app by (cbn [chain]; reflexivity).
    repeat split. exact Hr.
  - pose proof (mint_success_guard _ _ _ _ (or_intror H)) as G1.
    destruct (Private_mintProc_returns a w G1) as (r & t1 & Hrun & Hr & _).
    rewrite Hrun in H. injection H as <- <-.
    exists [].
    erewrite events_since_app by (cbn [events]; reflexivity).
    erewrite chain_since_app by (cbn [chain]; reflexivity).
    repeat split. exact Hr.
  - destruct (burn_success_guards _ _ _ _ (or_intror H)) as [G1 G2].
    destruct (Private_burnProc_returns a w G1 G2) as (r & t1 & Hrun & Hr & _).
    rewrite Hrun in H. injection H as <- <-.
    exists [].
    erewrite events_since_app by (cbn [events]; reflexivity).
    erewrite chain_since_app by (cbn [chain]; reflexivity).
    repeat split. exact Hr.
Qed.

Lemma successful_run_log_witness :
  exists res w' d,
    run (TokenMint (mkMintArgs "alice" 1000%float (Js.Str "0xEthereumTxHash123")))
        (world0 alice_bob) = (Ok res, w')
    /\ events_since (world0 alice_bob) w'
       = [EGet "balance:alice"; ESave "balance:alice" false; EAddBlock d]
    /\ Js.get "type" d = Js.Str "mint"
    /\ Js.get "txId" d = Js.get "txId" res.
Proof.
  destruct (run (TokenMint (mkMintArgs "alice" 1000%float (Js.Str "0xEthereumTxHash123")))
              (world0 alice_bob)) as [[res | e] w'] eqn:E; [| absurd_run E].
  destruct (successful_run_log _ _ _ _ E) as (blocks & Hev & _ & d & txId & -> & Hty & Hd & Hr).
  exists res, w', d. split; [reflexivity |]. split; [exact Hev |].
  split; [exact Hty | congruence].
Defined.




Lemma no_negative_insert (s : gmap string Balance) (key : string) (b : Balance) :
  no_negative_balance s ->
  (balance b <? 0)%float = false ->
  no_negative_balance (<[key := b]> s).
Proof.
  intros Hs Hb key' b' H.
  apply lookup_insert_Some in H as [[_ <-] | [_ H]]; [exact Hb | exact (Hs _ _ H)].
Qed.

Lemma or_zero_not_negative (s : gmap string Balance) (key : string) :
  no_negative_balance s -> (balance (or_zero (s !! key)) <? 0)%float = false.
Proof.
  intros Hs. destruct (s !! key) as [b |] eqn:Hb; [exact (Hs _ _ Hb) | reflexivity].
Qed.

(** X8: balances never go below zero. If no stored balance is negative
    before a token procedure runs - a transfer, a mint or a burn, of the
    token or of the private token - none is negative after it, whatever the
    outcome and the arguments: a debit is only made when [balance < amount]
    does not hold, and in double arithmetic the difference is then not
    negative. *)
Theorem balances_stay_not_negative (p : procedure)
    (w w' : World (gmap string Balance)) (out : outcome Js.object) :
  run p w = (out, w') ->
  no_negative_balance (storage w) ->
  no_negative_balance (storage w').
Proof.
  intros H Hs.
  destruct out as [res | e];
    [| destruct (run_failure_unchanged p w w' e H) as [-> _]; exact Hs].
  destruct p as [a|a|a|a|a|a]; cbn [run] in H.
  - destruct (transfer_success_guards _ _ _ _ (or_introl H)) as [G1 G2].
    destruct (Token_transferProc_returns a w G1 G2) as (r & d & t1 & t2 & tx & Hrun & _).
    rewrite Hrun in H. injection H as _ <-. cbn [storage].
    apply no_negative_insert; [apply no_negative_insert; [exact Hs |] |]; cbn [balance].
    + apply sub_not_negative, G2.
    + apply add_not_negative;
        [apply or_zero_not_negative, Hs | apply passed_guard_not_negative, G1].
  - pose proof (mint_success_guard _ _ _ _ (or_introl H)) as G1.
    destruct (Token_mintProc_returns a w G1) as (r & d & t1 & tx & Hrun & _).
    rewrite Hrun in H. injection H as _ <-. cbn [storage].
    apply no_negative_insert; [exact Hs |]. cbn [balance].
    apply add_not_negative;
      [apply or_zero_not_negative, Hs | apply passed_guard_not_negative, G1].
  - destruct (burn_success_guards _ _ _ _ (or_introl H)) as [G1 G2].
    destruct (Token_burnProc_returns a w G1 G2) as (r & d & t1 & tx & Hrun & _).
    rewrite Hrun in H. injection H as _ <-. cbn [storage].
    apply no_negative_insert; [exact Hs |]. cbn [balance].
    apply sub_not_negative, G2.
  - destruct (transfer_success_guards _ _ _ _ (or_intror H)) as [G1 G2].
    destruct (Private_transferProc_returns a w G1 G2) as (r & t1 & t2 & Hrun & _).
    rewrite Hrun in H. injection H as _ <-. cbn [storage].
    apply no_negative_insert; [apply no_negative_insert; [exact Hs |] |]; cbn [balance].
    + apply sub_not_negative, G2.
    + apply add_not_negative;
        [apply or_zero_not_negative, Hs | apply passed_guard_not_negative, G1].
  - pose proof (mint_success_guard _ _ _ _ (or_intror H)) as G1.
    destruct (Private_mintProc_returns a w G1) as (r & t1 & Hrun & _).
    rewrite Hrun in H. injection H as _ <-. cbn [storage].
    apply no_negative_insert; [exact Hs |]. cbn [balance].
    apply add_not_negative;
      [apply or_zero_not_negative, Hs | apply passed_guard_not_negative, G1].
  - destruct (burn_success_guards _ _ _ _ (or_intror H)) as [G1 G2].
    destruct (Private_burnProc_returns a w G1 G2) as (r & t1 & Hrun & _).
    rewrite Hrun in H. injection H as _ <-. cbn [storage].
    apply no_negative_insert; [exact Hs |]. cbn [balance].
    apply sub_not_negative, G2.
Qed.

Lemma balances_stay_not_negative_witness :
  exists out w',
    run (TokenTransfer (mkTransferArgs "alice" "bob" 40%float)) (world0 alice_bob)
    = (out, w')
    /\ no_negative_balance (storage w').
Proof.
  destruct (run (TokenTransfer (mkTransferArgs "alice" "bob" 40%float))
              (world0 alice_bob)) as [out w'] eqn:E.
  exists out, w'. split; [reflexivity |].
  apply (balances_stay_not_negative _ _ _ _ E).
  intros key b H. cbn [world0 storage] in H. unfold alice_bob in H.
  apply lookup_insert_Some in H as [[_ <-] | [_ H]]; [reflexivity |].
  apply lookup_insert_Some in H as [[_ <-] | [_ H]]; [reflexivity |].
  rewrite lookup_empty in H. discriminate H.
Defined.

Lemma refused_procedure_writes_nothing_witness :
  exists e w',
    run (TokenBurn (mkBurnArgs "bob" 10%float Js.Null)) (world0 alice_bob) = (Throw e, w')
    /\ storage w' = alice_bob /\ chain w' = [].
Proof.
  destruct (run (TokenBurn (mkBurnArgs "bob" 10%float Js.Null)) (world0 alice_bob))
    as [[res | e] w'] eqn:E.
  - exfalso. apply (f_equal (fun r => succeeded (fst r))) in E.
    vm_compute in E. discriminate E.
  - exists e, w'. split; [reflexivity |].
    assert (He : guard_error e).
    { apply (f_equal (fun r => match fst r with
                               | Throw (InsufficientBalance _) => true
                               | _ => false
                               end)) in E.
      vm_compute in E. destruct e; first [discriminate E | exact I]. }
    destruct (refused_procedure_writes_nothing _ _ _ _ E He) as (Hs & Hc & _).
    split; [exact Hs | exact Hc].
Defined.

(** ** Bonding curve contracts *)

Ltac run_curve :=
  cbn [and_then call value returns fails bind get saveData addBlock now random ret
       throw log BondingCurve.balance_table BondingCurve.supply_table
       BondingCurve.payments_table BondingCurve.cs_balances BondingCurve.cs_supply
       BondingCurve.cs_payments
       storage chain events tick clock entropy select update fst snd].
Tactic Notation "run_curve" "in" hyp(H) :=
  cbn [and_then call value returns fails bind get saveData addBlock now random ret
       throw log BondingCurve.balance_table BondingCurve.supply_table
       BondingCurve.payments_table BondingCurve.cs_balances BondingCurve.cs_supply
       BondingCurve.cs_payments
       storage chain events tick clock entropy select update fst snd] in H.

Lemma getSupply_saved (b : gmap string Balance) (s : gmap string BondingCurve.SupplyData)
    (p : gmap string BondingCurve.PaymentData) (d : BondingCurve.SupplyData) :
  BondingCurve.getSupply (BondingCurve.mkStore b (<[BondingCurve.supply_key := d]> s) p)
  = BondingCurve.sd_supply d.
Proof.
  unfold BondingCurve.getSupply. cbn [BondingCurve.cs_supply].
  rewrite lookup_insert_eq. reflexivity.
Qed.

Lemma getPaymentReserve_saved (b : gmap string Balance)
    (s : gmap string BondingCurve.SupplyData)
    (p : gmap string BondingCurve.PaymentData) (d : BondingCurve.PaymentData) :
  BondingCurve.getPaymentReserve
    (BondingCurve.mkStore b s (<[BondingCurve.payments_key := d]> p))
  = BondingCurve.pd_total d.
Proof.
  unfold BondingCurve.getPaymentReserve. cbn [BondingCurve.cs_payments].
  rewrite lookup_insert_eq. reflexivity.
Qed.

Lemma getBalance_saved (s : gmap string Balance) (a : string) (b : Balance) :
  Token.getBalance (<[balance_key a := b]> s) a = balance b.
Proof. unfold Token.getBalance. rewrite lookup_insert_eq. reflexivity. Qed.

Lemma getBalance_other (s : gmap string Balance) (a a' : string) (b : Balance) :
  a' <> a -> Token.getBalance (<[balance_key a := b]> s) a' = Token.getBalance s a'.
Proof.
  intros Hne. unfold Token.getBalance.
  rewrite lookup_insert_ne; [reflexivity |]. apply balance_key_ne. congruence.
Qed.

Lemma ltb_asym (a b : float) : (a <? b)%float = true -> (b <? a)%float = false.
Proof.
  rewrite !FloatAxioms.ltb_spec. unfold SFltb.
  rewrite (SFcompare_antisym (Prim2SF a) (Prim2SF b)).
  destruct (SFcompare (Prim2SF a) (Prim2SF b)) as [[]|]; simpl; congruence.
Qed.

(** [Math.max(0, x)] is never negative. *)
Lemma Math_max_zero_not_negative (x : float) :
  (BondingCurve.Math_max 0 x <? 0)%float = false.
Proof.
  unfold BondingCurve.Math_max. change (is_nan 0) with false. cbn [orb].
  destruct (is_nan x); [reflexivity |].
  destruct (0 <? x)%float eqn:H; [apply ltb_asym, H |].
  destruct (x <? 0)%float; reflexivity.
Qed.

Section CurveContracts.
Variable Math_pow : float -> float -> float.
Variable Math_exp : float -> float.
Variable c : BondingCurve.Curve.

Local Abbreviation buyProc := (BondingCurve.buyProc Math_pow Math_exp c) (only parsing).
Local Abbreviation sellProc := (BondingCurve.sellProc Math_pow Math_exp c) (only parsing).
Local Abbreviation tokensFor :=
  (BondingCurve.calculateTokensForPayment Math_pow Math_exp c) (only parsing).
Local Abbreviation paymentFor :=
  (BondingCurve.calculatePaymentForTokens Math_pow Math_exp c) (only parsing).
Local Abbreviation saleFor :=
  (BondingCurve.calculatePaymentForSale Math_pow Math_exp c) (only parsing).

Lemma buyProc_returns (args : BondingCurve.BuyArgs) (w : World BondingCurve.Store)
    (tokenAmount actualPrice : float) :
  let buyer := BondingCurve.buy_buyer args in
  let currentSupply := BondingCurve.getSupply (storage w) in
  (BondingCurve.buy_paymentAmount args <=? 0)%float = false ->
  tokensFor currentSupply (BondingCurve.buy_paymentAmount args) = Ok tokenAmount ->
  (tokenAmount <=? 0)%float = false ->
  paymentFor currentSupply tokenAmount = Ok actualPrice ->
  exists d t1 t2 t3 txId,
    buyProc args w
    = (Returns (BondingCurve.mkBuyResult true txId tokenAmount actualPrice
                  (actualPrice / tokenAmount)%float
                  (currentSupply + tokenAmount)%float
                  (Token.getBalance (BondingCurve.cs_balances (storage w)) buyer
                   + tokenAmount)%float),
       mkWorld
         (BondingCurve.mkStore
            (<[balance_key buyer :=
                 mkBalance (Some buyer)
                   (Token.getBalance (BondingCurve.cs_balances (storage w)) buyer
                    + tokenAmount)%float (Some t2)]>
               (BondingCurve.cs_balances (storage w)))
            (<[BondingCurve.supply_key :=
                 BondingCurve.mkSupplyData (currentSupply + tokenAmount)%float (Some t1)]>
               (BondingCurve.cs_supply (storage w)))
            (<[BondingCurve.payments_key :=
                 BondingCurve.mkPaymentData
                   (BondingCurve.getPaymentReserve (storage w) + actualPrice)%float
                   (Some t3)]>
               (BondingCurve.cs_payments (storage w))))
         (chain w ++ [WriteBlock BondingCurve.supply_key;
                      WriteBlock (balance_key buyer);
                      WriteBlock BondingCurve.payments_key;
                      DataBlock d])
         (events w ++ [EGet BondingCurve.supply_key;
                       ESave BondingCurve.supply_key false;
                       EGet (balance_key buyer);
                       ESave (balance_key buyer) false;
                       EGet BondingCurve.payments_key;
                       ESave BondingCurve.payments_key false;
                       EAddBlock d])
         (6 + tick w)%nat (clock w) (entropy w))
    /\ Js.get "type" d = Js.Str "bonding-curve-buy"
    /\ Js.get "txId" d = Js.Str txId
    /\ Js.get "tokenAmount" d = Js.Num tokenAmount
    /\ Js.get "paymentAmount" d = Js.Num actualPrice
    /\ Js.get "supplyBefore" d = Js.Num currentSupply
    /\ Js.get "supplyAfter" d = Js.Num (currentSupply + tokenAmount)%float.
Proof.
  intros buyer currentSupply G1 Htok G2 Hpay.
  assert (Hcs : currentSupply
                = BondingCurve.sd_supply
                    (BondingCurve.or_no_supply
                       (BondingCurve.cs_supply (storage w) !! BondingCurve.supply_key))).
  { unfold currentSupply, BondingCurve.getSupply.
    destruct (BondingCurve.cs_supply (storage w) !! _); reflexivity. }
  rewrite Hcs in Htok, Hpay.
  unfold BondingCurve.buyProc. rewrite G1. run_curve.
  rewrite Htok. run_curve. rewrite G2, Hpay. run_curve.
  rewrite getBalance_or_zero.
  assert (Hres : BondingCurve.getPaymentReserve (storage w)
                 = BondingCurve.pd_total
                     (BondingCurve.or_no_payments
                        (BondingCurve.cs_payments (storage w) !! BondingCurve.payments_key))).
  { unfold BondingCurve.getPaymentReserve.
    destruct (BondingCurve.cs_payments (storage w) !! _); reflexivity. }
  rewrite Hres, Hcs.
  do 5 eexists. split; [rewrite <- !app_assoc; cbn [app]; reflexivity |].
  repeat split; reflexivity.
Qed.

Lemma getSupply_or_no_supply (s : BondingCurve.Store) :
  BondingCurve.getSupply s
  = BondingCurve.sd_supply
      (BondingCurve.or_no_supply (BondingCurve.cs_supply s !! BondingCurve.supply_key)).
Proof.
  unfold BondingCurve.getSupply.
  destruct (BondingCurve.cs_supply s !! _); reflexivity.
Qed.

Lemma getPaymentReserve_or_no_payments (s : BondingCurve.Store) :
  BondingCurve.getPaymentReserve s
  = BondingCurve.pd_total
      (BondingCurve.or_no_payments
         (BondingCurve.cs_payments s !! BondingCurve.payments_key)).
Proof.
  unfold BondingCurve.getPaymentReserve.
  destruct (BondingCurve.cs_payments s !! _); reflexivity.
Qed.

Lemma sellProc_returns (args : BondingCurve.SellArgs) (w : World BondingCurve.Store)
    (paymentAmount : float) :
  let seller := BondingCurve.sell_seller args in
  let tokenAmount := BondingCurve.sell_tokenAmount args in
  let currentSupply := BondingCurve.getSupply (storage w) in
  let sellerBalance := Token.getBalance (BondingCurve.cs_balances (storage w)) seller in
  (tokenAmount <=? 0)%float = false ->
  (sellerBalance <? tokenAmount)%float = false ->
  (currentSupply <? tokenAmount)%float = false ->
  saleFor currentSupply tokenAmount = Ok paymentAmount ->
  exists d t1 t2 t3 txId,
    sellProc args w
    = (Returns (BondingCurve.mkSellResult true txId tokenAmount paymentAmount
                  (paymentAmount / tokenAmount)%float
                  (currentSupply - tokenAmount)%float
                  (sellerBalance - tokenAmount)%float),
       mkWorld
         (BondingCurve.mkStore
            (<[balance_key seller :=
                 mkBalance (Some seller) (sellerBalance - tokenAmount)%float (Some t2)]>
               (BondingCurve.cs_balances (storage w)))
            (<[BondingCurve.supply_key :=
                 BondingCurve.mkSupplyData (currentSupply - tokenAmount)%float (Some t1)]>
               (BondingCurve.cs_supply (storage w)))
            (<[BondingCurve.payments_key :=
                 BondingCurve.mkPaymentData
                   (BondingCurve.Math_max 0
                      (BondingCurve.getPaymentReserve (storage w) - paymentAmount))%float
                   (Some t3)]>
               (BondingCurve.cs_payments (storage w))))
         (chain w ++ [WriteBlock BondingCurve.supply_key;
                      WriteBlock (balance_key seller);
                      WriteBlock BondingCurve.payments_key;
                      DataBlock d])
         (events w ++ [EGet (balance_key seller);
                       EGet BondingCurve.supply_key;
                       ESave BondingCurve.supply_key false;
                       ESave (balance_key seller) false;
                       EGet BondingCurve.payments_key;
                       ESave BondingCurve.payments_key false;
                       EAddBlock d])
         (6 + tick w)%nat (clock w) (entropy w))
    /\ Js.get "type" d = Js.Str "bonding-curve-sell"
    /\ Js.get "txId" d = Js.Str txId
    /\ Js.get "tokenAmount" d = Js.Num tokenAmount
    /\ Js.get "paymentAmount" d = Js.Num paymentAmount
    /\ Js.get "supplyBefore" d = Js.Num currentSupply
    /\ Js.get "supplyAfter" d = Js.Num (currentSupply - tokenAmount)%float.
Proof.
  intros seller tokenAmount currentSupply sellerBalance G1 G2 G3 Hsale.
  unfold currentSupply in *. unfold sellerBalance in *.
  rewrite getSupply_or_no_supply in *. rewrite getBalance_or_zero in *.
  rewrite getPaymentReserve_or_no_payments.
  unfold BondingCurve.sellProc. fold seller tokenAmount.
  rewrite G1. run_curve. rewrite G2. run_curve. rewrite G3, Hsale. run_curve.
  do 5 eexists. split; [rewrite <- !app_assoc; cbn [app]; reflexivity |].
  repeat split; reflexivity.
Qed.

(** A number from the inversion means a supported curve. *)
Lemma tokensFor_supported (cs pay t : float) :
  tokensFor cs pay = Ok t -> BondingCurve.supported c = true.
Proof.
  intros H. destruct (BondingCurve.supported c) eqn:Hs; [reflexivity |].
  rewrite (calculateTokensForPayment_unsupported Math_pow Math_exp c cs pay Hs) in H.
  discriminate H.
Qed.

(** On a supported curve the loop ends with a number, however many
    iterations are left. *)
Lemma bisect_supported (cs pay : float) (remaining : nat) (low high : float) :
  BondingCurve.supported c = true ->
  exists t, BondingCurve.bisect Math_pow Math_exp c cs pay remaining low high = Ok t.
Proof.
  intros Hs. revert low high.
  induction remaining as [| remaining IH]; intros low high.
  - eexists. reflexivity.
  - rewrite bisect_S.
    destruct (calculateIntegral_supported Math_pow Math_exp c cs
                ((low + high) / 2)%float Hs) as [cost ->].
    destruct (abs (cost - pay) <? BondingCurve.tolerance)%float;
      [eexists; reflexivity |].
    destruct (cost <? pay)%float; apply IH.
Qed.

Lemma tokensFor_outcome (cs pay : float) :
  (BondingCurve.supported c = true /\ exists t, tokensFor cs pay = Ok t)
  \/ (BondingCurve.supported c = false
      /\ tokensFor cs pay = Throw (UnknownCurveType (BondingCurve.curveType c))).
Proof.
  destruct (BondingCurve.supported c) eqn:Hs.
  - left. split; [reflexivity |]. apply bisect_supported, Hs.
  - right. split; [reflexivity |].
    apply calculateTokensForPayment_unsupported, Hs.
Qed.

(** The four ways a purchase goes. *)
Lemma buyProc_cases (args : BondingCurve.BuyArgs) (w : World BondingCurve.Store) :
  let pay := BondingCurve.buy_paymentAmount args in
  let cs := BondingCurve.getSupply (storage w) in
  ((pay <=? 0)%float = true
   /\ buyProc args w = (Fails PaymentAmountMustBePositive, w))
  \/ ((pay <=? 0)%float = false /\ BondingCurve.supported c = false
      /\ buyProc args w
         = (Fails (Raised (UnknownCurveType (BondingCurve.curveType c))),
            log (EGet BondingCurve.supply_key) w))
  \/ (exists t, (pay <=? 0)%float = false /\ tokensFor cs pay = Ok t
                /\ (t <=? 0)%float = true
                /\ buyProc args w
                   = (Fails TokenAmountMustBePositive,
                      log (EGet BondingCurve.supply_key) w))
  \/ (exists t paid, (pay <=? 0)%float = false /\ tokensFor cs pay = Ok t
                     /\ (t <=? 0)%float = false /\ paymentFor cs t = Ok paid).
Proof.
  intros pay cs. unfold pay, cs. rewrite getSupply_or_no_supply.
  unfold BondingCurve.buyProc.
  destruct (BondingCurve.buy_paymentAmount args <=? 0)%float eqn:G1;
    [left; split; reflexivity | right].
  run_curve.
  destruct (tokensFor_outcome
              (BondingCurve.sd_supply
                 (BondingCurve.or_no_supply
                    (BondingCurve.cs_supply (storage w) !! BondingCurve.supply_key)))
              (BondingCurve.buy_paymentAmount args)) as [[Hs [t Ht]] | [Hs Ht]].
  - right. rewrite Ht. run_curve.
    destruct (t <=? 0)%float eqn:G2.
    + left. exists t. repeat split; first [assumption | reflexivity].
    + right.
      destruct (calculateIntegral_supported Math_pow Math_exp c
                  (BondingCurve.sd_supply
                     (BondingCurve.or_no_supply
                        (BondingCurve.cs_supply (storage w) !! BondingCurve.supply_key)))
                  (BondingCurve.sd_supply
                     (BondingCurve.or_no_supply
                        (BondingCurve.cs_supply (storage w) !! BondingCurve.supply_key))
                   + t)%float Hs) as [paid Hpaid].
      exists t, paid. repeat split; assumption.
  - left. rewrite Ht. run_curve. repeat split; first [assumption | reflexivity].
Qed.

(** X9: a purchase mints what it adds to the supply. When [buyProc]
    returns, the token amount of the result is the inversion of the curve at
    the stored supply for the payment, and the payment of the result is the
    cost of that amount on the curve. The stored supply and the buyer's
    balance have both grown by the token amount, the reserve by the payment
    of the result, and the result reports the new supply and balance. No
    other balance has changed. *)
Theorem buyProc_mints_what_it_adds (args : BondingCurve.BuyArgs)
    (w w' : World BondingCurve.Store) (res : BondingCurve.BuyResult) :
  buyProc args w = (Returns res, w') ->
  let buyer := BondingCurve.buy_buyer args in
  let supply := BondingCurve.getSupply (storage w) in
  let tokens := BondingCurve.bought_tokenAmount res in
  let paid := BondingCurve.bought_paymentAmount res in
  tokensFor supply (BondingCurve.buy_paymentAmount args) = Ok tokens
  /\ paymentFor supply tokens = Ok paid
  /\ BondingCurve.getSupply (storage w') = (supply + tokens)%float
  /\ Token.getBalance (BondingCurve.cs_balances (storage w')) buyer
     = (Token.getBalance (BondingCurve.cs_balances (storage w)) buyer + tokens)%float
  /\ BondingCurve.getPaymentReserve (storage w')
     = (BondingCurve.getPaymentReserve (storage w) + paid)%float
  /\ BondingCurve.bought_newSupply res = BondingCurve.getSupply (storage w')
  /\ BondingCurve.bought_buyerBalance res
     = Token.getBalance (BondingCurve.cs_balances (storage w')) buyer
  /\ BondingCurve.bought_price res = (paid / tokens)%float
  /\ forall a, a <> buyer ->
       Token.getBalance (BondingCurve.cs_balances (storage w')) a
       = Token.getBalance (BondingCurve.cs_balances (storage w)) a.
Proof.
  intros H buyer supply tokens paid.
  destruct (buyProc_cases args w)
    as [[_ E] | [(_ & _ & E) | [(t & _ & _ & _ & E) | (t & p & G1 & Ht & G2 & Hp)]]];
    try (rewrite E in H; discriminate H).
  destruct (buyProc_returns args w t p G1 Ht G2 Hp)
    as (d & t1 & t2 & t3 & txId & Hrun & _).
  rewrite Hrun in H. injection H as <- <-.
  unfold tokens, paid, supply, buyer.
  cbn [BondingCurve.bought_tokenAmount BondingCurve.bought_paymentAmount
       BondingCurve.bought_newSupply BondingCurve.bought_buyerBalance
       BondingCurve.bought_price storage].
  rewrite getSupply_saved, getPaymentReserve_saved.
  cbn [BondingCurve.cs_balances BondingCurve.sd_supply BondingCurve.pd_total].
  rewrite getBalance_saved. cbn [balance].
  repeat (split; [first [assumption | reflexivity] |]).
  intros a Ha. apply getBalance_other, Ha.
Qed.

Lemma getCurrentPrice_getSupply (s : BondingCurve.Store) :
  BondingCurve.getCurrentPrice Math_pow Math_exp c s
  = BondingCurve.calculatePrice Math_pow Math_exp c (BondingCurve.getSupply s).
Proof. reflexivity. Qed.

(** The calls and the block of a purchase. *)
Lemma buyProc_events (args : BondingCurve.BuyArgs)
    (w w' : World BondingCurve.Store) (res : BondingCurve.BuyResult) :
  buyProc args w = (Returns res, w') ->
  let buyer := BondingCurve.buy_buyer args in
  exists d,
    events_since w w'
    = [EGet BondingCurve.supply_key; ESave BondingCurve.supply_key false;
       EGet (balance_key buyer); ESave (balance_key buyer) false;
       EGet BondingCurve.payments_key; ESave BondingCurve.payments_key false;
       EAddBlock d]
    /\ data_blocks (chain_since w w') = [d]
    /\ Js.get "type" d = Js.Str "bonding-curve-buy"
    /\ Js.get "txId" d = Js.Str (BondingCurve.bought_txId res)
    /\ Js.get "tokenAmount" d = Js.Num (BondingCurve.bought_tokenAmount res)
    /\ Js.get "paymentAmount" d = Js.Num (BondingCurve.bought_paymentAmount res)
    /\ Js.get "supplyBefore" d = Js.Num (BondingCurve.getSupply (storage w))
    /\ Js.get "supplyAfter" d = Js.Num (BondingCurve.getSupply (storage w')).
Proof.
  intros H buyer.
  destruct (buyProc_cases args w)
    as [[_ E] | [(_ & _ & E) | [(t & _ & _ & _ & E) | (t & p & G1 & Ht & G2 & Hp)]]];
    try (rewrite E in H; discriminate H).
  destruct (buyProc_returns args w t p G1 Ht G2 Hp)
    as (d & t1 & t2 & t3 & txId & Hrun & Hty & Hid & Htok & Hpaid & Hbefore & Hafter).
  rewrite Hrun in H. injection H as <- <-.
  exists d.
  erewrite events_since_app by (cbn [events]; reflexivity).
  erewrite chain_since_app by (cbn [chain]; reflexivity).
  cbn [storage]. rewrite getSupply_saved.
  cbn [BondingCurve.bought_txId BondingCurve.bought_tokenAmount
       BondingCurve.bought_paymentAmount BondingCurve.sd_supply].
  repeat (split; [first [assumption | reflexivity] |]). assumption.
Qed.

(** X10: a purchase that fails. [buyProc] throws 'Payment amount must be
    positive' exactly when [paymentAmount <= 0] holds; past that guard it
    throws 'Unknown curve type' exactly when the curve is none of linear,
    polynomial and exponential, and 'Token amount must be positive' exactly
    when the inversion gives an amount with [tokenAmount <= 0]; these are
    the errors of its own it throws. They come before the first write: a
    purchase refused with one of them has saved nothing and appended
    nothing. *)
Theorem buyProc_refusals (args : BondingCurve.BuyArgs) (w : World BondingCurve.Store)
    (e : failure) :
  let pay := BondingCurve.buy_paymentAmount args in
  let supply := BondingCurve.getSupply (storage w) in
  ((exists w', buyProc args w = (Fails e, w'))
   <-> (e = PaymentAmountMustBePositive /\ (pay <=? 0)%float = true)
       \/ (e = Raised (UnknownCurveType (BondingCurve.curveType c))
           /\ (pay <=? 0)%float = false /\ BondingCurve.supported c = false)
       \/ (e = TokenAmountMustBePositive
           /\ (pay <=? 0)%float = false
           /\ exists t, tokensFor supply pay = Ok t /\ (t <=? 0)%float = true))
  /\ forall w', buyProc args w = (Fails e, w') ->
       e = PaymentAmountMustBePositive
       \/ e = Raised (UnknownCurveType (BondingCurve.curveType c))
       \/ e = TokenAmountMustBePositive ->
       storage w' = storage w /\ chain w' = chain w
       /\ writes (events_since w w') = 0.
Proof.
  intros pay supply.
  destruct (buyProc_cases args w)
    as [[G1 E] | [(G1 & Hs & E) | [(t & G1 & Ht & G2 & E) | (t & p & G1 & Ht & G2 & Hp)]]];
    fold pay supply in G1 |- *; try fold pay supply in Ht.
  - rewrite E. split.
    + split.
      * intros (w' & [= <- _]). auto.
      * intros [[-> _] | [(_ & G & _) | (_ & G & _)]]; [eauto | congruence | congruence].
    + intros w' [= _ <-] _. unfold events_since. rewrite drop_all. auto.
  - rewrite E. split.
    + split.
      * intros (w' & [= <- _]). auto.
      * intros [[_ G] | [(-> & _) | (_ & _ & t & Ht & _)]]; [congruence | eauto |].
        rewrite (calculateTokensForPayment_unsupported Math_pow Math_exp c _ _ Hs) in Ht.
        discriminate Ht.
    + intros w' [= _ <-] _. cbn [log storage chain].
      erewrite events_since_app by (cbn [log events]; reflexivity). auto.
  - rewrite E. split.
    + split.
      * intros (w' & [= <- _]). right; right. eauto.
      * intros [[_ G] | [(_ & _ & Hs) | (-> & _)]]; [congruence | | eauto].
        rewrite (tokensFor_supported _ _ _ Ht) in Hs. discriminate Hs.
    + intros w' [= _ <-] _. cbn [log storage chain].
      erewrite events_since_app by (cbn [log events]; reflexivity). auto.
  - destruct (buyProc_returns args w t p G1 Ht G2 Hp) as (d & t1 & t2 & t3 & txId & Hrun & _).
    rewrite Hrun. split.
    + split.
      * intros (w' & H). discriminate H.
      * intros [[_ G] | [(_ & _ & Hs) | (_ & _ & t' & Ht' & G2')]]; [congruence | |].
        -- rewrite (tokensFor_supported _ _ _ Ht) in Hs. discriminate Hs.
        -- rewrite Ht in Ht'. injection Ht' as <-. congruence.
    + intros w' H. discriminate H.
Qed.

(** [calculatePaymentForSale] as [sellProc] calls it. *)
Lemma saleFor_outcome (cs ta : float) :
  ((cs - ta <? 0)%float = true /\ saleFor cs ta = Throw CannotSellMoreThanExist)
  \/ ((cs - ta <? 0)%float = false /\ BondingCurve.supported c = false
      /\ saleFor cs ta = Throw (UnknownCurveType (BondingCurve.curveType c)))
  \/ ((cs - ta <? 0)%float = false /\ BondingCurve.supported c = true
      /\ exists paid, saleFor cs ta = Ok paid).
Proof.
  unfold BondingCurve.calculatePaymentForSale.
  destruct (cs - ta <? 0)%float; [left; split; reflexivity | right].
  destruct (BondingCurve.supported c) eqn:Hs.
  - right. split; [reflexivity |]. split; [reflexivity |].
    apply calculateIntegral_supported, Hs.
  - left. split; [reflexivity |]. split; [reflexivity |].
    revert Hs. unfold BondingCurve.supported, BondingCurve.calculateIntegral.
    destruct (String.eqb _ "linear"); [discriminate |].
    destruct (String.eqb _ "polynomial"); [discriminate |].
    destruct (String.eqb _ "exponential"); [discriminate | reflexivity].
Qed.

(** The five ways a sale goes. *)
Lemma sellProc_cases (args : BondingCurve.SellArgs) (w : World BondingCurve.Store) :
  let seller := BondingCurve.sell_seller args in
  let ta := BondingCurve.sell_tokenAmount args in
  let bal := Token.getBalance (BondingCurve.cs_balances (storage w)) seller in
  let cs := BondingCurve.getSupply (storage w) in
  ((ta <=? 0)%float = true
   /\ sellProc args w = (Fails TokenAmountMustBePositive, w))
  \/ ((ta <=? 0)%float = false /\ (bal <? ta)%float = true
      /\ sellProc args w
         = (Fails (Raised (InsufficientBalance bal)), log (EGet (balance_key seller)) w))
  \/ ((ta <=? 0)%float = false /\ (bal <? ta)%float = false /\ (cs <? ta)%float = true
      /\ sellProc args w
         = (Fails CannotSellMoreThanTotalSupply,
            log (EGet BondingCurve.supply_key) (log (EGet (balance_key seller)) w)))
  \/ (exists e, (ta <=? 0)%float = false /\ (bal <? ta)%float = false
                /\ (cs <? ta)%float = false /\ saleFor cs ta = Throw e
                /\ sellProc args w
                   = (Fails (Raised e),
                      log (EGet BondingCurve.supply_key)
                        (log (EGet (balance_key seller)) w)))
  \/ (exists paid, (ta <=? 0)%float = false /\ (bal <? ta)%float = false
                   /\ (cs <? ta)%float = false /\ saleFor cs ta = Ok paid).
Proof.
  intros seller ta bal cs. unfold bal, cs.
  rewrite getSupply_or_no_supply, getBalance_or_zero.
  unfold BondingCurve.sellProc. fold seller ta.
  destruct (ta <=? 0)%float eqn:G1; [left; split; reflexivity | right].
  run_curve.
  destruct (balance _ <? ta)%float eqn:G2;
    [left; repeat split; reflexivity | right].
  run_curve.
  destruct (BondingCurve.sd_supply _ <? ta)%float eqn:G3;
    [left; repeat split; reflexivity | right].
  destruct (saleFor (BondingCurve.sd_supply
                       (BondingCurve.or_no_supply
                          (BondingCurve.cs_supply (storage w) !! BondingCurve.supply_key)))
                    ta) as [paid | e] eqn:Hsale.
  - right. exists paid. repeat split; reflexivity.
  - left. exists e. run_curve. repeat split; reflexivity.
Qed.

(** X11: a sale burns what it removes from the supply. When [sellProc]
    returns, the payment of the result is the area under the curve between
    the supply less the token amount and the supply. The stored supply and
    the seller's balance have both gone down by the token amount, and the
    result reports them. The reserve is [Math.max(0, reserve - payment)]: a
    payment larger than the reserve is still reported in full. Neither the
    reserve nor the supply nor the seller's balance is left negative, and no
    other balance has changed. *)
Theorem sellProc_burns_what_it_removes (args : BondingCurve.SellArgs)
    (w w' : World BondingCurve.Store) (res : BondingCurve.SellResult) :
  sellProc args w = (Returns res, w') ->
  let seller := BondingCurve.sell_seller args in
  let tokens := BondingCurve.sell_tokenAmount args in
  let supply := BondingCurve.getSupply (storage w) in
  let paid := BondingCurve.sold_paymentAmount res in
  saleFor supply tokens = Ok paid
  /\ BondingCurve.getSupply (storage w') = (supply - tokens)%float
  /\ Token.getBalance (BondingCurve.cs_balances (storage w')) seller
     = (Token.getBalance (BondingCurve.cs_balances (storage w)) seller - tokens)%float
  /\ BondingCurve.getPaymentReserve (storage w')
     = BondingCurve.Math_max 0 (BondingCurve.getPaymentReserve (storage w) - paid)%float
  /\ (BondingCurve.getPaymentReserve (storage w') <? 0)%float = false
  /\ (BondingCurve.getSupply (storage w') <? 0)%float = false
  /\ (Token.getBalance (BondingCurve.cs_balances (storage w')) seller <? 0)%float = false
  /\ BondingCurve.sold_tokenAmount res = tokens
  /\ BondingCurve.sold_newSupply res = BondingCurve.getSupply (storage w')
  /\ BondingCurve.sold_sellerBalance res
     = Token.getBalance (BondingCurve.cs_balances (storage w')) seller
  /\ BondingCurve.sold_price res = (paid / tokens)%float
  /\ forall a, a <> seller ->
       Token.getBalance (BondingCurve.cs_balances (storage w')) a
       = Token.getBalance (BondingCurve.cs_balances (storage w)) a.
Proof.
  intros H seller tokens supply paid.
  destruct (sellProc_cases args w)
    as [[_ E] | [(_ & _ & E) | [(_ & _ & _ & E) | [(e & _ & _ & _ & _ & E)
        | (p & G1 & G2 & G3 & Hp)]]]];
    try (rewrite E in H; discriminate H).
  destruct (sellProc_returns args w p G1 G2 G3 Hp)
    as (d & t1 & t2 & t3 & txId & Hrun & _).
  rewrite Hrun in H. injection H as <- <-.
  unfold tokens, paid, supply, seller.
  cbn [BondingCurve.sold_tokenAmount BondingCurve.sold_paymentAmount
       BondingCurve.sold_newSupply BondingCurve.sold_sellerBalance
       BondingCurve.sold_price storage].
  rewrite getSupply_saved, getPaymentReserve_saved.
  cbn [BondingCurve.cs_balances BondingCurve.sd_supply BondingCurve.pd_total].
  rewrite getBalance_saved. cbn [balance].
  split; [assumption |]. split; [reflexivity |]. split; [reflexivity |].
  split; [reflexivity |]. split; [apply Math_max_zero_not_negative |].
  split; [apply sub_not_negative, G3 |].
  split; [apply sub_not_negative, G2 |].
  repeat (split; [reflexivity |]).
  intros a Ha. apply getBalance_other, Ha.
Qed.

(** The calls and the block of a sale. *)
Lemma sellProc_events (args : BondingCurve.SellArgs)
    (w w' : World BondingCurve.Store) (res : BondingCurve.SellResult) :
  sellProc args w = (Returns res, w') ->
  let seller := BondingCurve.sell_seller args in
  exists d,
    events_since w w'
    = [EGet (balance_key seller); EGet BondingCurve.supply_key;
       ESave BondingCurve.supply_key false; ESave (balance_key seller) false;
       EGet BondingCurve.payments_key; ESave BondingCurve.payments_key false;
       EAddBlock d]
    /\ data_blocks (chain_since w w') = [d]
    /\ Js.get "type" d = Js.Str "bonding-curve-sell"
    /\ Js.get "txId" d = Js.Str (BondingCurve.sold_txId res)
    /\ Js.get "tokenAmount" d = Js.Num (BondingCurve.sold_tokenAmount res)
    /\ Js.get "paymentAmount" d = Js.Num (BondingCurve.sold_paymentAmount res)
    /\ Js.get "supplyBefore" d = Js.Num (BondingCurve.getSupply (storage w))
    /\ Js.get "supplyAfter" d = Js.Num (BondingCurve.getSupply (storage w')).
Proof.
  intros H seller.
  destruct (sellProc_cases args w)
    as [[_ E] | [(_ & _ & E) | [(_ & _ & _ & E) | [(e & _ & _ & _ & _ & E)
        | (p & G1 & G2 & G3 & Hp)]]]];
    try (rewrite E in H; discriminate H).
  destruct (sellProc_returns args w p G1 G2 G3 Hp)
    as (d & t1 & t2 & t3 & txId & Hrun & Hty & Hid & Htok & Hpaid & Hbefore & Hafter).
  rewrite Hrun in H. injection H as <- <-.
  exists d.
  erewrite events_since_app by (cbn [events]; reflexivity).
  erewrite chain_since_app by (cbn [chain]; reflexivity).
  cbn [storage]. rewrite getSupply_saved.
  cbn [BondingCurve.sold_txId BondingCurve.sold_tokenAmount
       BondingCurve.sold_paymentAmount BondingCurve.sd_supply].
  repeat (split; [first [assumption | reflexivity] |]). assumption.
Qed.

(** X12: every trade is logged. A successful [buyProc] reads and saves, in
    this order, the supply, the buyer's balance and the reserve; a
    successful [sellProc] reads the seller's balance and the supply, saves
    the supply and the balance, then reads and saves the reserve. Nothing is
    encrypted. Each then appends exactly one block, tagged
    'bonding-curve-buy' or 'bonding-curve-sell', that carries the [txId],
    the token amount and the payment of the result and the supply before
    and after. *)
Theorem trades_are_logged :
  (forall (args : BondingCurve.BuyArgs) (w w' : World BondingCurve.Store)
          (res : BondingCurve.BuyResult),
     buyProc args w = (Returns res, w') ->
     let buyer := BondingCurve.buy_buyer args in
     exists d,
       events_since w w'
       = [EGet BondingCurve.supply_key; ESave BondingCurve.supply_key false;
          EGet (balance_key buyer); ESave (balance_key buyer) false;
          EGet BondingCurve.payments_key; ESave BondingCurve.payments_key false;
          EAddBlock d]
       /\ data_blocks (chain_since w w') = [d]
       /\ Js.get "type" d = Js.Str "bonding-curve-buy"
       /\ Js.get "txId" d = Js.Str (BondingCurve.bought_txId res)
       /\ Js.get "tokenAmount" d = Js.Num (BondingCurve.bought_tokenAmount res)
       /\ Js.get "paymentAmount" d = Js.Num (BondingCurve.bought_paymentAmount res)
       /\ Js.get "supplyBefore" d = Js.Num (BondingCurve.getSupply (storage w))
       /\ Js.get "supplyAfter" d = Js.Num (BondingCurve.getSupply (storage w')))
  /\ (forall (args : BondingCurve.SellArgs) (w w' : World BondingCurve.Store)
             (res : BondingCurve.SellResult),
        sellProc args w = (Returns res, w') ->
        let seller := BondingCurve.sell_seller args in
        exists d,
          events_since w w'
          = [EGet (balance_key seller); EGet BondingCurve.supply_key;
             ESave BondingCurve.supply_key false; ESave (balance_key seller) false;
             EGet BondingCurve.payments_key; ESave BondingCurve.payments_key false;
             EAddBlock d]
          /\ data_blocks (chain_since w w') = [d]
          /\ Js.get "type" d = Js.Str "bonding-curve-sell"
          /\ Js.get "txId" d = Js.Str (BondingCurve.sold_txId res)
          /\ Js.get "tokenAmount" d = Js.Num (BondingCurve.sold_tokenAmount res)
          /\ Js.get "paymentAmount" d = Js.Num (BondingCurve.sold_paymentAmount res)
          /\ Js.get "supplyBefore" d = Js.Num (BondingCurve.getSupply (storage w))
          /\ Js.get "supplyAfter" d = Js.Num (BondingCurve.getSupply (storage w'))).
Proof.
  split; intros args w w' res H.
  - exact (buyProc_events args w w' res H).
  - exact (sellProc_events args w w' res H).
Qed.

(** The guards of [sellProc] in the order they are tried, with the check
    of [calculatePaymentForSale] among them. *)
Lemma sellProc_failures (args : BondingCurve.SellArgs) (w : World BondingCurve.Store)
    (e : failure) :
  let seller := BondingCurve.sell_seller args in
  let ta := BondingCurve.sell_tokenAmount args in
  let bal := Token.getBalance (BondingCurve.cs_balances (storage w)) seller in
  let supply := BondingCurve.getSupply (storage w) in
  ((exists w', sellProc args w = (Fails e, w'))
   <-> (e = TokenAmountMustBePositive /\ (ta <=? 0)%float = true)
       \/ ((ta <=? 0)%float = false
           /\ ((e = Raised (InsufficientBalance bal) /\ (bal <? ta)%float = true)
               \/ ((bal <? ta)%float = false
                   /\ ((e = CannotSellMoreThanTotalSupply /\ (supply <? ta)%float = true)
                       \/ ((supply <? ta)%float = false
                           /\ ((e = Raised CannotSellMoreThanExist
                                /\ (supply - ta <? 0)%float = true)
                               \/ (e = Raised (UnknownCurveType (BondingCurve.curveType c))
                                   /\ (supply - ta <? 0)%float = false
                                   /\ BondingCurve.supported c = false))))))))
  /\ forall w', sellProc args w = (Fails e, w') ->
       storage w' = storage w /\ chain w' = chain w
       /\ writes (events_since w w') = 0.
Proof.
  intros seller ta bal supply.
  destruct (sellProc_cases args w)
    as [[G1 E] | [(G1 & G2 & E) | [(G1 & G2 & G3 & E) | [(e' & G1 & G2 & G3 & Hsale & E)
        | (p & G1 & G2 & G3 & Hp)]]]];
    fold seller ta bal supply in G1 |- *;
    try fold seller ta bal supply in G2; try fold seller ta bal supply in G3.
  - rewrite E. split.
    + split.
      * intros (w' & [= <- _]). auto.
      * intros [[-> _] | [G _]]; [eauto | congruence].
    + intros w' [= _ <-]. unfold events_since. rewrite drop_all. auto.
  - rewrite E. split.
    + split.
      * intros (w' & [= <- _]). auto.
      * intros [[_ G] | [_ [[-> _] | [G _]]]]; [congruence | eauto | congruence].
    + intros w' [= _ <-]. cbn [log storage chain].
      erewrite events_since_app by (cbn [log events]; reflexivity). auto.
  - rewrite E. split.
    + split.
      * intros (w' & [= <- _]). auto 10.
      * intros [[_ G] | [_ [[_ G] | [_ [[-> _] | [G _]]]]]];
          [congruence | congruence | eauto | congruence].
    + intros w' [= _ <-]. cbn [log storage chain].
      erewrite events_since_app
        by (cbn [log events]; rewrite <- app_assoc; reflexivity). auto.
  - rewrite E. fold supply in Hsale. split.
    + split.
      * intros (w' & [= <- _]).
        destruct (saleFor_outcome supply ta)
          as [[G4 Hs] | [(G4 & Hs & Hc) | (G4 & Hs & paid & Hc)]];
          fold ta in Hsale; rewrite Hsale in *; try discriminate.
        -- injection Hs as ->. auto 12.
        -- injection Hc as ->. right. split; [assumption |]. right.
           split; [assumption |]. right. split; [assumption |]. right. auto.
      * intros [[_ G] | [_ [[_ G] | [_ [[_ G] | [_ [[-> G4] | (-> & G4 & Hs)]]]]]]];
          try congruence.
        -- destruct (saleFor_outcome supply ta)
             as [[G4' Hs] | [(G4' & _) | (G4' & _)]]; try congruence.
           fold ta in Hsale. rewrite Hsale in Hs. injection Hs as ->. eauto.
        -- destruct (saleFor_outcome supply ta)
             as [[G4' _] | [(_ & _ & Hc) | (_ & Hs' & _)]]; try congruence.
           fold ta in Hsale. rewrite Hsale in Hc. injection Hc as ->. eauto.
    + intros w' [= _ <-]. cbn [log storage chain].
      erewrite events_since_app
        by (cbn [log events]; rewrite <- app_assoc; reflexivity). auto.
  - destruct (sellProc_returns args w p G1 G2 G3 Hp) as (d & t1 & t2 & t3 & txId & Hrun & _).
    rewrite Hrun. fold supply ta in Hp. split.
    + split.
      * intros (w' & H). discriminate H.
      * intros [[_ G] | [_ [[_ G] | [_ [[_ G] | [_ [[_ G4] | (_ & G4 & Hs)]]]]]]];
          try congruence.
        -- destruct (saleFor_outcome supply ta)
             as [[_ Hc] | [(G4' & _) | (G4' & _)]]; congruence.
        -- destruct (saleFor_outcome supply ta)
             as [[G4' _] | [(_ & _ & Hc) | (_ & Hs' & _)]]; congruence.
    + intros w' H. discriminate H.
Qed.

(** X13: a sale that fails. The guards of [sellProc] are tried in this
    order: 'Token amount must be positive' when [tokenAmount <= 0] holds,
    'Insufficient balance' with the seller's balance when
    [balance < tokenAmount] holds, 'Cannot sell more tokens than total
    supply' when [supply < tokenAmount] holds, then 'Unknown curve type' on
    an unsupported curve; these are the errors of its own it throws. The
    check of [calculatePaymentForSale], 'Cannot sell more tokens than
    exist', never fires, since past the third guard [supply - tokenAmount]
    is not negative in double arithmetic. The guards come before the first
    write: a sale refused with one of these errors has saved nothing and
    appended nothing. *)
Theorem sellProc_refusals (args : BondingCurve.SellArgs) (w : World BondingCurve.Store)
    (e : failure) :
  let seller := BondingCurve.sell_seller args in
  let ta := BondingCurve.sell_tokenAmount args in
  let bal := Token.getBalance (BondingCurve.cs_balances (storage w)) seller in
  let supply := BondingCurve.getSupply (storage w) in
  ((exists w', sellProc args w = (Fails e, w'))
   <-> (e = TokenAmountMustBePositive /\ (ta <=? 0)%float = true)
       \/ ((ta <=? 0)%float = false
           /\ ((e = Raised (InsufficientBalance bal) /\ (bal <? ta)%float = true)
               \/ ((bal <? ta)%float = false
                   /\ ((e = CannotSellMoreThanTotalSupply /\ (supply <? ta)%float = true)
                       \/ ((supply <? ta)%float = false
                           /\ e = Raised (UnknownCurveType (BondingCurve.curveType c))
                           /\ BondingCurve.supported c = false))))))
  /\ (forall w', sellProc args w <> (Fails (Raised CannotSellMoreThanExist), w'))
  /\ forall w', sellProc args w = (Fails e, w') ->
       e = TokenAmountMustBePositive
       \/ e = Raised (InsufficientBalance bal)
       \/ e = CannotSellMoreThanTotalSupply
       \/ e = Raised (UnknownCurveType (BondingCurve.curveType c)) ->
       storage w' = storage w /\ chain w' = chain w
       /\ writes (events_since w w') = 0.
Proof.
  intros seller ta bal supply.
  pose proof (sub_not_negative supply ta) as Hsub.
  destruct (sellProc_failures args w e) as [Hiff Hkeeps].
  destruct (sellProc_failures args w (Raised CannotSellMoreThanExist)) as [Hnever _].
  fold seller ta bal supply in Hiff, Hnever.
  split; [| split; [| intros w' Hf _; exact (Hkeeps w' Hf)]].
  - rewrite Hiff. clear Hiff Hnever Hkeeps.
    destruct (ta <=? 0)%float, (bal <? ta)%float, (supply <? ta)%float,
      (supply - ta <? 0)%float;
      try (specialize (Hsub eq_refl); discriminate Hsub);
      intuition congruence.
  - intros w' Hf.
    assert (Hex : exists w'0, sellProc args w = (Fails (Raised CannotSellMoreThanExist), w'0))
      by eauto.
    apply Hnever in Hex. clear Hiff Hnever Hkeeps.
    destruct (ta <=? 0)%float, (bal <? ta)%float, (supply <? ta)%float,
      (supply - ta <? 0)%float;
      try (specialize (Hsub eq_refl); discriminate Hsub);
      intuition congruence.
Qed.

End CurveContracts.

Ltac absurd_failure E :=
  exfalso;
  apply (f_equal (fun r => returned (fst r))) in E;
  vm_compute in E; discriminate E.

Lemma buyProc_mints_what_it_adds_witness :
  exists res w',
    BondingCurve.buyProc BondingCurve.no_pow BondingCurve.no_exp
      BondingCurve.default_curve (BondingCurve.mkBuyArgs "alice" 10%float)
      (world0 new_curve) = (Returns res, w')
    /\ BondingCurve.getSupply (storage w')
       = (0 + BondingCurve.bought_tokenAmount res)%float
    /\ Token.getBalance (BondingCurve.cs_balances (storage w')) "alice"
       = (0 + BondingCurve.bought_tokenAmount res)%float.
Proof.
  destruct (BondingCurve.buyProc BondingCurve.no_pow BondingCurve.no_exp
              BondingCurve.default_curve (BondingCurve.mkBuyArgs "alice" 10%float)
              (world0 new_curve)) as [[res | e] w'] eqn:E; [| absurd_failure E].
  exists res, w'. split; [reflexivity |].
  destruct (buyProc_mints_what_it_adds _ _ _ _ _ _ _ E) as (_ & _ & Hs & Hb & _).
  split; [exact Hs | exact Hb].
Defined.

Lemma sellProc_burns_what_it_removes_witness :
  exists res w',
    BondingCurve.sellProc BondingCurve.no_pow BondingCurve.no_exp
      BondingCurve.default_curve (BondingCurve.mkSellArgs "alice" 10%float)
      (world0 alice_holds_100) = (Returns res, w')
    /\ BondingCurve.getSupply (storage w') = 90%float
    /\ Token.getBalance (BondingCurve.cs_balances (storage w')) "alice" = 90%float
    /\ (BondingCurve.getPaymentReserve (storage w') <? 0)%float = false.
Proof.
  destruct (BondingCurve.sellProc BondingCurve.no_pow BondingCurve.no_exp
              BondingCurve.default_curve (BondingCurve.mkSellArgs "alice" 10%float)
              (world0 alice_holds_100)) as [[res | e] w'] eqn:E; [| absurd_failure E].
  exists res, w'. split; [reflexivity |].
  destruct (sellProc_burns_what_it_removes _ _ _ _ _ _ _ E)
    as (_ & Hs & Hb & _ & Hr & _).
  split; [exact Hs |]. split; [exact Hb | exact Hr].
Defined.

Lemma trades_are_logged_witness :
  exists res w',
    BondingCurve.sellProc BondingCurve.no_pow BondingCurve.no_exp
      BondingCurve.default_curve (BondingCurve.mkSellArgs "alice" 10%float)
      (world0 alice_holds_100) = (Returns res, w')
    /\ writes (events_since (world0 alice_holds_100) w') = 3
    /\ exists d, data_blocks (chain w') = [d]
                 /\ Js.get "type" d = Js.Str "bonding-curve-sell".
Proof.
  destruct (BondingCurve.sellProc BondingCurve.no_pow BondingCurve.no_exp
              BondingCurve.default_curve (BondingCurve.mkSellArgs "alice" 10%float)
              (world0 alice_holds_100)) as [[res | e] w'] eqn:E; [| absurd_failure E].
  exists res, w'. split; [reflexivity |].
  destruct (trades_are_logged BondingCurve.no_pow BondingCurve.no_exp
              BondingCurve.default_curve) as [_ Hsell].
  destruct (Hsell _ _ _ _ E) as (d & Hev & Hch & Hty & _).
  split; [rewrite Hev; reflexivity |].
  exists d. split; [exact Hch | exact Hty].
Defined.

(** ** Wish list, continued *)

Lemma addItemProc_returns (args : WishList.AddItemArgs) (w : World WishList.Store)
    (input : WishList.ItemInput) :
  WishList.a_item args = Some input ->
  Js.truthy (WishList.a_userId args) = true ->
  Js.truthy (WishList.in_name input) = true ->
  Js.truthy (WishList.in_description input) = true ->
  exists id createdAt wl' d tk,
    let new :=
      WishList.mkItem id (WishList.in_name input) (WishList.in_description input)
        (Js.or_else (WishList.in_url input) Js.Null)
        (Js.or_else (WishList.in_price input) Js.Null)
        (if Js.truthy (WishList.in_priority input)
         then WishList.in_priority input else "medium")
        "available" None None createdAt
        (Js.or_else (WishList.in_metadata input) (Js.Obj [])) in
    WishList.addItemProc args w
    = (Ok (WishList.mkAddItemResult true new id
             (length (items_of (storage w) (WishList.a_userId args)) + 1)),
       mkWorld
         (WishList.mkStore
            (<[WishList.wishlist_key (WishList.a_userId args) := wl']>
               (WishList.wishlists (storage w)))
            (WishList.reservations (storage w)))
         (chain w ++ [WriteBlock (WishList.wishlist_key (WishList.a_userId args));
                      DataBlock d])
         (events w ++ [EGet (WishList.wishlist_key (WishList.a_userId args));
                       ESave (WishList.wishlist_key (WishList.a_userId args)) false;
                       EAddBlock d])
         tk (clock w) (entropy w))
    /\ WishList.wl_items wl'
       = (items_of (storage w) (WishList.a_userId args) ++ [new])%list
    /\ WishList.wl_userId wl'
       = match WishList.wishlists (storage w)
               !! WishList.wishlist_key (WishList.a_userId args) with
         | Some wl => WishList.wl_userId wl
         | None => WishList.a_userId args
         end
    /\ (exists (t : Z) rnd, id = "item-" +:+ pretty t +:+ "-" +:+ rnd)
    /\ Js.get "type" d = Js.Str "wishlist-item-added"
    /\ Js.get "itemId" d = Js.Str id
    /\ Js.get "itemName" d = Js.Str (WishList.in_name input).
Proof.
  intros Hitem Huser Hname Hdesc.
  destruct w as [[wls rsv] ch ev tk ck en].
  unfold WishList.addItemProc, items_of. rewrite Hitem, Huser, Hname, Hdesc.
  cbn [negb orb storage WishList.wishlists WishList.reservations chain events clock
       entropy].
  run_wish.
  destruct (wls !! WishList.wishlist_key (WishList.a_userId args)) as [wl |] eqn:Hwl;
    run_wish.
  - cbn [WishList.wl_items]. rewrite length_app. cbn [length].
    do 5 eexists. split; [rewrite <- !app_assoc; cbn [app]; reflexivity |].
    cbn [WishList.wl_items WishList.wl_userId].
    repeat split; try reflexivity. eexists _, _. reflexivity.
  - cbn [WishList.wl_items app length Nat.add].
    do 5 eexists. split; [rewrite <- !app_assoc; cbn [app]; reflexivity |].
    cbn [WishList.wl_items WishList.wl_userId].
    repeat split; try reflexivity. eexists _, _. reflexivity.
Qed.

(** X14: [addItemProc] throws exactly when the user id is empty, no item is
    given, or the item's name or description is empty; refused with
    'Missing required fields' or 'Item must have name and description', it
    has read and written nothing. Otherwise it succeeds: the user's list -
    created for a user without one - is saved with the new item after the
    items it had, the new item is 'available' with no reserver, takes
    'medium' as priority when none is given, and [totalItems] counts it;
    reservations are not touched and one 'wishlist-item-added' block names
    the item. *)
Theorem addItemProc_refuses_or_appends (args : WishList.AddItemArgs)
    (w : World WishList.Store) :
  let userId := WishList.a_userId args in
  ((exists e w', WishList.addItemProc args w = (Throw e, w')) <-> add_refused args)
  /\ (forall e w',
        WishList.addItemProc args w = (Throw e, w') ->
        e = MissingRequiredFields "userId, item" \/ e = MissingItemFields ->
        w' = w)
  /\ forall res w',
       WishList.addItemProc args w = (Ok res, w') ->
       exists input,
         let new := WishList.ar_item res in
         WishList.a_item args = Some input
         /\ items_of (storage w') userId = (items_of (storage w) userId ++ [new])%list
         /\ WishList.ar_itemId res = WishList.item_id new
         /\ WishList.ar_totalItems res = length (items_of (storage w') userId)
         /\ WishList.item_name new = WishList.in_name input
         /\ WishList.item_description new = WishList.in_description input
         /\ WishList.item_status new = "available"
         /\ WishList.item_reservedBy new = None
         /\ WishList.item_reservedAt new = None
         /\ WishList.item_priority new
            = (if Js.truthy (WishList.in_priority input)
               then WishList.in_priority input else "medium")
         /\ WishList.reservations (storage w') = WishList.reservations (storage w)
         /\ exists d,
              data_blocks (chain_since w w') = [d]
              /\ Js.get "type" d = Js.Str "wishlist-item-added"
              /\ Js.get "itemId" d = Js.Str (WishList.item_id new).
Proof.
  intros userId. unfold add_refused.
  destruct (WishList.a_item args) as [input |] eqn:Hitem.
  2:{ unfold WishList.addItemProc. rewrite Hitem. split; [| split].
      - split; [auto | intros _; eexists _, _; reflexivity].
      - intros e w' [= _ <-] _. reflexivity.
      - intros res w' H. discriminate H. }
  destruct (Js.truthy (WishList.a_userId args)) eqn:Huser.
  2:{ unfold WishList.addItemProc. rewrite Hitem, Huser. cbn [negb]. split; [| split].
      - split; [auto | intros _; eexists _, _; reflexivity].
      - intros e w' [= _ <-] _. reflexivity.
      - intros res w' H. discriminate H. }
  destruct (Js.truthy (WishList.in_name input)) eqn:Hname.
  2:{ unfold WishList.addItemProc. rewrite Hitem, Huser, Hname. cbn [negb orb].
      split; [| split].
      - split; [auto | intros _; eexists _, _; reflexivity].
      - intros e w' [= _ <-] _. reflexivity.
      - intros res w' H. discriminate H. }
  destruct (Js.truthy (WishList.in_description input)) eqn:Hdesc.
  2:{ unfold WishList.addItemProc. rewrite Hitem, Huser, Hname, Hdesc. cbn [negb orb].
      split; [| split].
      - split; [auto | intros _; eexists _, _; reflexivity].
      - intros e w' [= _ <-] _. reflexivity.
      - intros res w' H. discriminate H. }
  destruct (addItemProc_returns args w input Hitem Huser Hname Hdesc)
    as (id & createdAt & wl' & d & tk & Hrun & Hitems & _ & _ & Hty & Hid & _).
  cbv zeta in Hrun. rewrite Hrun. split; [| split].
  - split.
    + intros (e & w' & H). discriminate H.
    + intros [H | [H | H]]; discriminate H.
  - intros e w' H. discriminate H.
  - intros res w' [= <- <-]. exists input.
    cbn [WishList.ar_item WishList.ar_itemId WishList.ar_totalItems storage
         WishList.item_id WishList.item_name WishList.item_description
         WishList.item_status WishList.item_reservedBy WishList.item_reservedAt
         WishList.item_priority WishList.reservations].
    assert (Hnew : items_of
                     (WishList.mkStore
                        (<[WishList.wishlist_key (WishList.a_userId args) := wl']>
                           (WishList.wishlists (storage w)))
                        (WishList.reservations (storage w))) userId
                   = WishList.wl_items wl').
    { unfold items_of, userId. cbn [WishList.wishlists].
      rewrite lookup_insert_eq. reflexivity. }
    rewrite Hnew, Hitems. fold userId.
    split; [reflexivity |]. split; [reflexivity |]. split; [reflexivity |].
    split; [rewrite length_app; reflexivity |].
    repeat (split; [reflexivity |]).
    exists d. erewrite chain_since_app by (cbn [chain]; reflexivity).
    repeat split; assumption.
Qed.

Lemma addItemProc_refuses_or_appends_witness :
  exists res w',
    WishList.addItemProc
      (WishList.mkAddItemArgs "user-alice"
         (Some (WishList.mkItemInput "Books" "A box of books" Js.Undefined Js.Undefined
                  "" Js.Undefined)))
      (world0 alice_wishes) = (Ok res, w')
    /\ items_of (storage w') "user-alice" = [macbook; WishList.ar_item res]
    /\ WishList.item_status (WishList.ar_item res) = "available"
    /\ WishList.item_priority (WishList.ar_item res) = "medium".
Proof.
  destruct (WishList.addItemProc
              (WishList.mkAddItemArgs "user-alice"
                 (Some (WishList.mkItemInput "Books" "A box of books" Js.Undefined
                          Js.Undefined "" Js.Undefined)))
              (world0 alice_wishes)) as [[res | e] w'] eqn:E; [| absurd_run E].
  exists res, w'. split; [reflexivity |].
  destruct (addItemProc_refuses_or_appends
              (WishList.mkAddItemArgs "user-alice"
                 (Some (WishList.mkItemInput "Books" "A box of books" Js.Undefined
                          Js.Undefined "" Js.Undefined)))
              (world0 alice_wishes)) as (_ & _ & Hok).
  destruct (Hok res w' E) as (input & Hin & Hitems & _ & _ & _ & _ & Hst & _ & _ & Hprio & _).
  injection Hin as <-.
  split; [exact Hitems |]. split; [exact Hst | exact Hprio].
Defined.

Lemma reserveItemProc_returns (args : WishList.ReserveArgs) (w : World WishList.Store)
    (wl : WishList.List) (i : nat) (item : WishList.Item) :
  let ownerId := WishList.r_ownerId args in
  let itemId := WishList.r_itemId args in
  let reservedBy := WishList.r_reservedBy args in
  reserve_missing_fieldsb args = false ->
  WishList.wishlists (storage w) !! WishList.wishlist_key ownerId = Some wl ->
  WishList.findItem itemId (WishList.wl_items wl) = Some (i, item) ->
  WishList.item_status item = "available" ->
  Js.truthy_opt (WishList.item_reservedBy item) = false ->
  ownerId <> reservedBy ->
  exists updatedAt rs' rv d tk,
    let item' := reserve_item reservedBy (clock w (tick w)) item in
    WishList.reserveItemProc args w
    = (Ok (WishList.mkReserveResult true item' ownerId reservedBy
             (Some (clock w (tick w)))),
       mkWorld
         (WishList.mkStore
            (<[WishList.wishlist_key ownerId :=
                 WishList.mkList (WishList.wl_userId wl)
                   (<[i := item']> (WishList.wl_items wl))
                   (WishList.wl_createdAt wl) updatedAt]>
               (WishList.wishlists (storage w)))
            (<[WishList.reservations_key reservedBy := rs']>
               (WishList.reservations (storage w))))
         (chain w ++ [WriteBlock (WishList.wishlist_key ownerId);
                      WriteBlock (WishList.reservations_key reservedBy);
                      DataBlock d])
         (events w ++ [EGet (WishList.wishlist_key ownerId);
                       ESave (WishList.wishlist_key ownerId) false;
                       EGet (WishList.reservations_key reservedBy);
                       ESave (WishList.reservations_key reservedBy) false;
                       EAddBlock d])
         tk (clock w) (entropy w))
    /\ WishList.rs_reservations rs'
       = (WishList.getReservations (storage w) reservedBy ++ [rv])%list
    /\ rv = WishList.mkReservation itemId ownerId (WishList.item_name item)
              (WishList.rv_reservedAt rv) "reserved"
    /\ Js.get "type" d = Js.Str "wishlist-item-reserved".
Proof.
  intros ownerId itemId reservedBy Hm Hwl Hf Hst Hrb Hown.
  destruct w as [[wls rsv] ch ev tk ck en].
  cbn [storage WishList.wishlists WishList.reservations chain events clock entropy tick]
    in *.
  unfold WishList.reserveItemProc, WishList.getReservations.
  unfold reserve_missing_fieldsb in Hm. rewrite Hm.
  fold ownerId itemId reservedBy.
  run_wish. rewrite Hwl, Hf, Hst, Hrb. cbn [String.eqb Ascii.eqb Bool.eqb negb].
  change (negb ("available" =? "available")%string) with false. cbv iota.
  destruct (String.eqb_spec ownerId reservedBy) as [Heq | _]; [contradiction |].
  run_wish.
  destruct (rsv !! WishList.reservations_key reservedBy) as [rs |] eqn:Hrs; run_wish;
    cbn [WishList.rs_reservations WishList.item_reservedAt WishList.item_name].
  - do 5 eexists. split; [rewrite <- !app_assoc; cbn [app]; reflexivity |].
    cbn [WishList.rs_reservations WishList.rv_reservedAt]. repeat split.
  - do 5 eexists. split; [rewrite <- !app_assoc; cbn [app]; reflexivity |].
    cbn [WishList.rs_reservations WishList.rv_reservedAt]. repeat split.
Qed.

Lemma findItem_insert_same (itemId : string) (items : list WishList.Item) (i : nat)
    (item item' : WishList.Item) :
  WishList.findItem itemId items = Some (i, item) ->
  WishList.item_id item' = itemId ->
  WishList.findItem itemId (<[i := item']> items) = Some (i, item').
Proof.
  unfold WishList.findItem. intros H Hid.
  apply list_find_Some in H as (Hl & _ & Hbefore).
  apply list_find_Some. split; [| split].
  - apply list_lookup_insert_eq. eapply lookup_lt_Some; eauto.
  - exact Hid.
  - intros j y Hj Hlt. rewrite list_lookup_insert_ne in Hj by lia. eauto.
Qed.

Lemma findItem_app_new (itemId : string) (items : list WishList.Item)
    (new : WishList.Item) :
  (forall item, item ∈ items -> WishList.item_id item <> itemId) ->
  WishList.item_id new = itemId ->
  WishList.findItem itemId (items ++ [new]) = Some (length items, new).
Proof.
  unfold WishList.findItem. intros Hold Hid.
  apply list_find_Some. split; [| split].
  - rewrite lookup_app_r by lia. rewrite Nat.sub_diag. reflexivity.
  - exact Hid.
  - intros j y Hj Hlt. rewrite lookup_app_l in Hj by lia.
    apply Hold. eapply list_elem_of_lookup_2; eauto.
Qed.

(** What a successful reservation found in the store. *)
Lemma reserve_success_guards (args : WishList.ReserveArgs) (w w' : World WishList.Store)
    (res : WishList.ReserveResult) :
  WishList.reserveItemProc args w = (Ok res, w') ->
  reserve_missing_fieldsb args = false
  /\ exists wl i item,
       WishList.wishlists (storage w) !! WishList.wishlist_key (WishList.r_ownerId args)
       = Some wl
       /\ WishList.findItem (WishList.r_itemId args) (WishList.wl_items wl) = Some (i, item)
       /\ WishList.item_status item = "available"
       /\ Js.truthy_opt (WishList.item_reservedBy item) = false
       /\ WishList.r_ownerId args <> WishList.r_reservedBy args.
Proof.
  intros H.
  destruct (reserve_missing_fieldsb args || reserve_refusedb (storage w) args) eqn:Hb.
  { apply reserveItemProc_fails_iff in Hb as (e & w'' & Hb). congruence. }
  apply orb_false_iff in Hb as [Hm Hr]. split; [exact Hm |].
  unfold reserve_refusedb in Hr.
  destruct (WishList.wishlists (storage w) !! _) as [wl |] eqn:Hwl; [| discriminate Hr].
  destruct (WishList.findItem _ _) as [[i item] |] eqn:Hf; [| discriminate Hr].
  apply orb_false_iff in Hr as [Hr Hown]. apply orb_false_iff in Hr as [Hst Hrb].
  exists wl, i, item.
  split; [reflexivity |]. split; [exact Hf |].
  split; [apply negb_false_iff, String.eqb_eq in Hst; exact Hst |].
  split; [exact Hrb |].
  apply String.eqb_neq in Hown. congruence.
Qed.

(** X15: an item is not reserved twice. After a successful reservation,
    every further reservation of the same item of the same owner, by
    whatever user, throws 'Item is not available. Current status:
    reserved' and changes nothing. *)
Theorem reserved_item_is_not_reserved_again (args : WishList.ReserveArgs)
    (w w' : World WishList.Store) (res : WishList.ReserveResult) (other : string) :
  WishList.reserveItemProc args w = (Ok res, w') ->
  Js.truthy other = true ->
  exists w'',
    WishList.reserveItemProc
      (WishList.mkReserveArgs (WishList.r_ownerId args) (WishList.r_itemId args) other) w'
    = (Throw (ItemNotAvailable "reserved"), w'')
    /\ storage w'' = storage w' /\ chain w'' = chain w'.
Proof.
  intros H Hother.
  destruct (reserve_success_guards _ _ _ _ H)
    as (Hm & wl & i & item & Hwl & Hf & Hst & Hrb & Hown).
  destruct (reserveItemProc_returns args w wl i item Hm Hwl Hf Hst Hrb Hown)
    as (updatedAt & rs' & rv & d & tk & Hrun & _).
  cbv zeta in Hrun. rewrite Hrun in H. injection H as _ <-.
  unfold reserve_missing_fieldsb in Hm.
  apply orb_false_iff in Hm as [Hm _]. apply orb_false_iff in Hm as [Howner Hitem].
  unfold WishList.reserveItemProc.
  cbn [WishList.r_ownerId WishList.r_itemId WishList.r_reservedBy].
  rewrite Howner, Hitem, Hother. cbn [negb orb].
  run_wish. rewrite lookup_insert_eq. cbn [WishList.wl_items].
  erewrite findItem_insert_same; [| exact Hf |].
  2:{ cbn [reserve_item WishList.item_id]. apply findItem_Some in Hf as (_ & Hid & _).
      exact Hid. }
  cbn [reserve_item WishList.item_status].
  eexists. split; [reflexivity |]. split; reflexivity.
Qed.

Lemma reserved_item_is_not_reserved_again_witness :
  exists w'',
    WishList.reserveItemProc (WishList.mkReserveArgs "user-alice" "item-1" "user-charlie")
      reserved_world
    = (Throw (ItemNotAvailable "reserved"), w'')
    /\ storage w'' = storage reserved_world.
Proof.
  destruct (WishList.reserveItemProc
              (WishList.mkReserveArgs "user-alice" "item-1" "user-bob")
              (world0 alice_wishes)) as [[res | e] w'] eqn:E; [| absurd_run E].
  destruct (reserved_item_is_not_reserved_again _ _ _ _ "user-charlie" E eq_refl)
    as (w'' & Hrun & Hst & _).
  assert (Hw : w' = reserved_world).
  { unfold reserved_world. rewrite E. reflexivity. }
  rewrite Hw in *. exists w''. split; [exact Hrun | exact Hst].
Defined.

Lemma truthy_item_id (t : Z) (rnd : string) :
  Js.truthy ("item-" +:+ pretty t +:+ "-" +:+ rnd) = true.
Proof. reflexivity. Qed.

(** What a successful [addItemProc] leaves in the store. *)
Lemma addItemProc_appended (args : WishList.AddItemArgs)
    (w : World WishList.Store) (added : WishList.AddItemResult) (w1 : World WishList.Store) :
  WishList.addItemProc args w = (Ok added, w1) ->
  exists wl1,
    WishList.wishlists (storage w1) !! WishList.wishlist_key (WishList.a_userId args)
    = Some wl1
    /\ WishList.wl_items wl1
       = (items_of (storage w) (WishList.a_userId args) ++ [WishList.ar_item added])%list
    /\ WishList.ar_itemId added = WishList.item_id (WishList.ar_item added)
    /\ WishList.item_status (WishList.ar_item added) = "available"
    /\ WishList.item_reservedBy (WishList.ar_item added) = None
    /\ Js.truthy (WishList.a_userId args) = true
    /\ exists (t : Z) rnd, WishList.ar_itemId added = "item-" +:+ pretty t +:+ "-" +:+ rnd.
Proof.
  intros H.
  destruct (WishList.a_item args) as [input |] eqn:Hitem;
    [| unfold WishList.addItemProc in H; rewrite Hitem in H; discriminate H].
  destruct (Js.truthy (WishList.a_userId args)) eqn:Huser;
    [| unfold WishList.addItemProc in H; rewrite Hitem, Huser in H; discriminate H].
  destruct (Js.truthy (WishList.in_name input)) eqn:Hname;
    [| unfold WishList.addItemProc in H; rewrite Hitem, Huser, Hname in H; discriminate H].
  destruct (Js.truthy (WishList.in_description input)) eqn:Hdesc;
    [| unfold WishList.addItemProc in H; rewrite Hitem, Huser, Hname, Hdesc in H;
       discriminate H].
  destruct (addItemProc_returns args w input Hitem Huser Hname Hdesc)
    as (id & createdAt & wl' & d & tk & Hrun & Hitems & _ & Hid & _).
  cbv zeta in Hrun. rewrite Hrun in H. injection H as <- <-.
  exists wl'. cbn [storage WishList.wishlists WishList.ar_item WishList.ar_itemId
                   WishList.item_id WishList.item_status WishList.item_reservedBy].
  rewrite lookup_insert_eq. repeat split; try reflexivity; assumption.
Qed.

(** X16: an added item can be reserved. After [addItemProc] succeeds for an
    owner, [reserveItemProc] with the returned item id and a reserver who is
    not the owner succeeds and reserves the item just added, provided no
    earlier item of the list has the same id; an earlier item with that id
    would be the one found. *)
Theorem added_item_can_be_reserved (args : WishList.AddItemArgs)
    (w w1 : World WishList.Store) (added : WishList.AddItemResult) (reservedBy : string) :
  WishList.addItemProc args w = (Ok added, w1) ->
  Js.truthy reservedBy = true ->
  reservedBy <> WishList.a_userId args ->
  (forall item, item ∈ items_of (storage w) (WishList.a_userId args) ->
                WishList.item_id item <> WishList.ar_itemId added) ->
  exists res w2,
    WishList.reserveItemProc
      (WishList.mkReserveArgs (WishList.a_userId args) (WishList.ar_itemId added)
         reservedBy) w1 = (Ok res, w2)
    /\ WishList.rr_item res
       = reserve_item reservedBy (clock w1 (tick w1)) (WishList.ar_item added)
    /\ items_of (storage w2) (WishList.a_userId args)
       = (items_of (storage w) (WishList.a_userId args) ++ [WishList.rr_item res])%list.
Proof.
  intros H Hby Hne Hfresh.
  destruct (addItemProc_appended args w added w1 H)
    as (wl1 & Hwl1 & Hitems & Hid & Havail & Hnone & Huser).
  assert (Hf : WishList.findItem (WishList.ar_itemId added) (WishList.wl_items wl1)
               = Some (length (items_of (storage w) (WishList.a_userId args)),
                       WishList.ar_item added)).
  { rewrite Hitems. apply findItem_app_new; [exact Hfresh | symmetry; exact Hid]. }
  assert (Hm : reserve_missing_fieldsb
                 (WishList.mkReserveArgs (WishList.a_userId args)
                    (WishList.ar_itemId added) reservedBy) = false).
  { unfold reserve_missing_fieldsb.
    cbn [WishList.r_ownerId WishList.r_itemId WishList.r_reservedBy].
    destruct Huser as (Huser & t & rnd & Hidt).
    rewrite Huser, Hby, Hidt, truthy_item_id. reflexivity. }
  pose proof (reserveItemProc_returns
                (WishList.mkReserveArgs (WishList.a_userId args)
                   (WishList.ar_itemId added) reservedBy)
                w1 wl1 (length (items_of (storage w) (WishList.a_userId args)))
                (WishList.ar_item added)) as Hret.
  cbv zeta in Hret.
  cbn [WishList.r_ownerId WishList.r_itemId WishList.r_reservedBy] in Hret.
  destruct Hret as (updatedAt & rs' & rv & d & tk & Hrun & _);
    [exact Hm | exact Hwl1 | exact Hf | exact Havail | rewrite Hnone; reflexivity
     | congruence |].
  eexists _, _. split; [exact Hrun |].
  cbn [WishList.rr_item storage]. split; [reflexivity |].
  unfold items_of at 1. cbn [WishList.wishlists]. rewrite lookup_insert_eq.
  cbn [WishList.wl_items]. rewrite Hitems.
  rewrite insert_app_r_alt by lia. rewrite Nat.sub_diag. reflexivity.
Qed.

Lemma added_item_can_be_reserved_witness :
  exists added w1 res w2,
    WishList.addItemProc
      (WishList.mkAddItemArgs "user-alice"
         (Some (WishList.mkItemInput "Books" "A box of books" Js.Undefined Js.Undefined
                  "" Js.Undefined)))
      (world0 alice_wishes) = (Ok added, w1)
    /\ WishList.reserveItemProc
         (WishList.mkReserveArgs "user-alice" (WishList.ar_itemId added) "user-bob") w1
       = (Ok res, w2)
    /\ items_of (storage w2) "user-alice" = [macbook; WishList.rr_item res].
Proof.
  destruct (WishList.addItemProc
              (WishList.mkAddItemArgs "user-alice"
                 (Some (WishList.mkItemInput "Books" "A box of books" Js.Undefined
                          Js.Undefined "" Js.Undefined)))
              (world0 alice_wishes)) as [[added | e] w1] eqn:E; [| absurd_run E].
  assert (Hid : WishList.ar_itemId added = "item-1700000000000-k3j9x2m1q").
  { apply (f_equal (fun r => match fst r with
                             | Ok a => WishList.ar_itemId a
                             | Throw _ => ""
                             end)) in E.
    vm_compute in E. symmetry. exact E. }
  destruct (added_item_can_be_reserved _ _ _ _ "user-bob" E eq_refl) as (res & w2 & Hrun & _ & Hitems).
  - discriminate.
  - intros item Hin. rewrite Hid.
    apply elem_of_cons in Hin as [-> | Hin]; [discriminate | inversion Hin].
  - exists added, w1, res, w2. split; [reflexivity |]. split; [exact Hrun | exact Hitems].
Defined.

(** The run of [updateStatusProc] that stores a status other than
    'fulfilled' and 'cancelled'. *)
Lemma updateStatusProc_keeps (args : WishList.UpdateStatusArgs) (w : World WishList.Store)
    (wl : WishList.List) (i : nat) (item : WishList.Item) :
  let userId := WishList.u_userId args in
  let itemId := WishList.u_itemId args in
  let status := WishList.u_status args in
  Js.truthy userId = true -> Js.truthy itemId = true ->
  status = "available" \/ status = "reserved" ->
  WishList.wishlists (storage w) !! WishList.wishlist_key userId = Some wl ->
  WishList.findItem itemId (WishList.wl_items wl) = Some (i, item) ->
  exists d,
    WishList.updateStatusProc args w
    = (Ok (WishList.mkUpdateStatusResult true (WishList.set_status status item)
             (WishList.item_status item) status),
       mkWorld
         (WishList.mkStore
            (<[WishList.wishlist_key userId :=
                 WishList.mkList (WishList.wl_userId wl)
                   (<[i := WishList.set_status status item]> (WishList.wl_items wl))
                   (WishList.wl_createdAt wl) (clock w (tick w))]>
               (WishList.wishlists (storage w)))
            (WishList.reservations (storage w)))
         (chain w ++ [WriteBlock (WishList.wishlist_key userId); DataBlock d])
         (events w ++ [EGet (WishList.wishlist_key userId);
                       ESave (WishList.wishlist_key userId) false;
                       EAddBlock d])
         (2 + tick w)%nat (clock w) (entropy w))
    /\ Js.get "type" d = Js.Str "wishlist-status-updated"
    /\ Js.get "oldStatus" d = Js.Str (WishList.item_status item)
    /\ Js.get "newStatus" d = Js.Str status.
Proof.
  intros userId itemId status Huser Hitem Hstatus Hwl Hf.
  destruct w as [[wls rsv] ch ev tk ck en].
  cbn [storage WishList.wishlists WishList.reservations chain events clock entropy tick]
    in *.
  unfold WishList.updateStatusProc. fold userId itemId status.
  rewrite Huser, Hitem.
  destruct Hstatus as [-> | ->]; cbn [negb orb Js.truthy String.eqb Ascii.eqb Bool.eqb];
    (rewrite (bool_decide_eq_true_2 _) by (unfold WishList.validStatuses; set_solver));
    cbn [negb]; run_wish; rewrite Hwl, Hf; run_wish;
    (eexists; split; [rewrite <- !app_assoc; cbn [app]; reflexivity |]);
    repeat split; reflexivity.
Qed.

Ltac exec_wish_goal :=
  cbv beta iota zeta delta
    [bind get saveData addBlock now random ret throw log
     WishList.wishlist_table WishList.reservations_table
     WishList.wishlists WishList.reservations
     WishList.notify_reserver
     storage chain events tick clock entropy select update fst snd].

(** Past its four guards [updateStatusProc] returns. *)
Lemma updateStatusProc_succeeds (args : WishList.UpdateStatusArgs)
    (w : World WishList.Store) (wl : WishList.List) (i : nat) (item : WishList.Item) :
  update_missing_fieldsb args = false ->
  WishList.u_status args ∈ WishList.validStatuses ->
  WishList.wishlists (storage w) !! WishList.wishlist_key (WishList.u_userId args)
  = Some wl ->
  WishList.findItem (WishList.u_itemId args) (WishList.wl_items wl) = Some (i, item) ->
  exists res w', WishList.updateStatusProc args w = (Ok res, w').
Proof.
  intros Hm Hvalid Hwl Hf.
  destruct w as [[wls rsv] ch ev tk ck en].
  cbn [storage WishList.wishlists] in Hwl.
  unfold WishList.updateStatusProc. unfold update_missing_fieldsb in Hm. rewrite Hm.
  rewrite (bool_decide_eq_true_2 _ Hvalid). cbn [negb].
  exec_wish_goal. rewrite Hwl, Hf.
  destruct (String.eqb (WishList.u_status args) "fulfilled"
            || String.eqb (WishList.u_status args) "cancelled"); [| eauto].
  cbn [WishList.set_status WishList.item_reservedBy].
  destruct (WishList.item_reservedBy item) as [reserver |]; [| eauto].
  destruct (Js.truthy reserver); [| eauto].
  destruct (rsv !! _) as [rs |]; [| eauto].
  destruct (WishList.findReservation _ _) as [[j rv] |]; eauto.
Qed.

(** X17: [updateStatusProc] checks its input in this order: it throws
    'Missing required fields' when the user id, the item id or the status is
    empty, then 'Invalid status' when the status is none of available,
    reserved, fulfilled and cancelled, then 'Wish list not found' when the
    user has no list, then 'Item not found' when no item of the list has the
    id; these are the errors it throws: any of the four statuses is
    accepted, whatever the status of the item. The checks come before the
    first write: an update refused with one of these errors has saved
    nothing and appended nothing. *)
Theorem updateStatusProc_refusals (args : WishList.UpdateStatusArgs)
    (w : World WishList.Store) (e : error) :
  let userId := WishList.u_userId args in
  let itemId := WishList.u_itemId args in
  let status := WishList.u_status args in
  ((exists w', WishList.updateStatusProc args w = (Throw e, w'))
   <-> (e = MissingRequiredFields "userId, itemId, status"
        /\ update_missing_fieldsb args = true)
       \/ (update_missing_fieldsb args = false
           /\ ((e = InvalidStatus /\ status ∉ WishList.validStatuses)
               \/ (status ∈ WishList.validStatuses
                   /\ ((e = WishListNotFound userId /\ wishlist_absent (storage w) userId)
                       \/ (e = ItemNotFound itemId
                           /\ item_not_listed (storage w) userId itemId))))))
  /\ forall w', WishList.updateStatusProc args w = (Throw e, w') ->
       e = MissingRequiredFields "userId, itemId, status" \/ e = InvalidStatus
       \/ e = WishListNotFound userId \/ e = ItemNotFound itemId ->
       storage w' = storage w /\ chain w' = chain w.
Proof.
  intros userId itemId status.
  unfold wishlist_absent, item_not_listed.
  destruct (update_missing_fieldsb args) eqn:Hm.
  { unfold WishList.updateStatusProc. unfold update_missing_fieldsb in Hm. rewrite Hm.
    split.
    - split.
      + intros (w' & [= <- _]). auto.
      + intros [[-> _] | [G _]]; [eauto | discriminate G].
    - intros w' [= _ <-] _. auto. }
  destruct (decide (status ∈ WishList.validStatuses)) as [Hvalid | Hvalid].
  2:{ unfold WishList.updateStatusProc. unfold update_missing_fieldsb in Hm. rewrite Hm.
      fold status. rewrite (bool_decide_eq_false_2 _ Hvalid). cbn [negb]. split.
      - split.
        + intros (w' & [= <- _]). auto.
        + intros [[_ G] | [_ [[-> _] | [G _]]]]; [discriminate G | eauto | contradiction].
      - intros w' [= _ <-] _. auto. }
  destruct (WishList.wishlists (storage w) !! WishList.wishlist_key userId)
    as [wl |] eqn:Hwl.
  2:{ unfold WishList.updateStatusProc. unfold update_missing_fieldsb in Hm. rewrite Hm.
      fold status userId. rewrite (bool_decide_eq_true_2 _ Hvalid). cbn [negb].
      run_wish. rewrite Hwl. split.
      - split.
        + intros (w' & [= <- _]). auto 8.
        + intros [[_ G] | [_ [[_ G] | [_ [[-> _] | [_ (wl & G & _)]]]]]];
            [discriminate G | contradiction | eauto | discriminate G].
      - intros w' [= _ <-] _. auto. }
  destruct (WishList.findItem itemId (WishList.wl_items wl)) as [[i item] |] eqn:Hf.
  - destruct (updateStatusProc_succeeds args w wl i item Hm Hvalid Hwl Hf)
      as (res & w1 & Hrun).
    rewrite Hrun. split.
    + split.
      * intros (w' & H). discriminate H.
      * intros [[_ G] | [_ [[_ G] | [_ [[_ G] | [_ (wl' & G & Hall)]]]]]];
          [discriminate G | contradiction | discriminate G |].
        injection G as <-. apply findItem_Some in Hf as (Hl & Hid & _).
        exfalso. eapply Hall; [| exact Hid]. eapply list_elem_of_lookup_2; eauto.
    + intros w' H. discriminate H.
  - unfold WishList.updateStatusProc. unfold update_missing_fieldsb in Hm. rewrite Hm.
    fold status userId itemId. rewrite (bool_decide_eq_true_2 _ Hvalid). cbn [negb].
    run_wish. rewrite Hwl, Hf. split.
    + split.
      * intros (w' & [= <- _]). right. split; [reflexivity |]. right.
        split; [assumption |]. right. split; [reflexivity |].
        exists wl. split; [reflexivity |]. apply findItem_None, Hf.
      * intros [[_ G] | [_ [[_ G] | [_ [[_ G] | [-> _]]]]]];
          [discriminate G | contradiction | discriminate G | eauto].
    + intros w' [= _ <-] _. auto.
Qed.

Lemma items_of_saved (wls : gmap string WishList.List)
    (rsv : gmap string WishList.Reservations) (userId : string) (wl : WishList.List) :
  items_of (WishList.mkStore (<[WishList.wishlist_key userId := wl]> wls) rsv) userId
  = WishList.wl_items wl.
Proof.
  unfold items_of. cbn [WishList.wishlists]. rewrite lookup_insert_eq. reflexivity.
Qed.

(** X18: putting an item back to 'available' does not release it. A
    successful [updateStatusProc] with the status 'available' or 'reserved'
    changes the status of the stored item and nothing else of it: the
    reserver and the time of the reservation stay, and no reservations
    record is written. So when the item had a reserver and is made
    'available', every reservation of it is refused with 'Item is already
    reserved'. *)
Theorem reopened_item_keeps_its_reserver (args : WishList.UpdateStatusArgs)
    (w w' : World WishList.Store) (res : WishList.UpdateStatusResult) :
  let userId := WishList.u_userId args in
  let itemId := WishList.u_itemId args in
  let status := WishList.u_status args in
  status = "available" \/ status = "reserved" ->
  WishList.updateStatusProc args w = (Ok res, w') ->
  exists i item,
    listed (storage w) userId itemId i item
    /\ WishList.ur_item res = WishList.set_status status item
    /\ WishList.ur_oldStatus res = WishList.item_status item
    /\ items_of (storage w') userId
       = <[i := WishList.set_status status item]> (items_of (storage w) userId)
    /\ WishList.item_reservedBy (WishList.ur_item res) = WishList.item_reservedBy item
    /\ WishList.item_reservedAt (WishList.ur_item res) = WishList.item_reservedAt item
    /\ WishList.reservations (storage w') = WishList.reservations (storage w)
    /\ (status = "available" ->
        Js.truthy_opt (WishList.item_reservedBy item) = true ->
        forall other, Js.truthy other = true ->
          exists w'',
            WishList.reserveItemProc (WishList.mkReserveArgs userId itemId other) w'
            = (Throw ItemAlreadyReserved, w'')).
Proof.
  intros userId itemId status Hstatus H. subst userId itemId status.
  assert (Hm : update_missing_fieldsb args = false).
  { destruct (update_missing_fieldsb args) eqn:Hm; [| reflexivity].
    unfold WishList.updateStatusProc in H. unfold update_missing_fieldsb in Hm.
    rewrite Hm in H. discriminate H. }
  assert (Hvalid : WishList.u_status args ∈ WishList.validStatuses).
  { unfold WishList.validStatuses. destruct Hstatus as [-> | ->]; set_solver. }
  destruct (WishList.wishlists (storage w)
              !! WishList.wishlist_key (WishList.u_userId args))
    as [wl |] eqn:Hwl.
  2:{ exfalso. unfold WishList.updateStatusProc in H. unfold update_missing_fieldsb in Hm.
      rewrite Hm in H.
      rewrite (bool_decide_eq_true_2 _ Hvalid) in H. cbn [negb] in H.
      run_wish in H. rewrite Hwl in H. discriminate H. }
  destruct (WishList.findItem (WishList.u_itemId args) (WishList.wl_items wl)) as [[i item] |] eqn:Hf.
  2:{ exfalso. unfold WishList.updateStatusProc in H. unfold update_missing_fieldsb in Hm.
      rewrite Hm in H.
      rewrite (bool_decide_eq_true_2 _ Hvalid) in H. cbn [negb] in H.
      run_wish in H. rewrite Hwl, Hf in H. discriminate H. }
  unfold update_missing_fieldsb in Hm.
  apply orb_false_iff in Hm as [Hm _]. apply orb_false_iff in Hm as [Huser Hitem].
  apply negb_false_iff in Huser, Hitem.
  destruct (updateStatusProc_keeps args w wl i item Huser Hitem Hstatus Hwl Hf)
    as (d & Hrun & _).
  cbv zeta in Hrun. rewrite Hrun in H. injection H as <- <-.
  exists i, item.
  cbn [WishList.ur_item WishList.ur_oldStatus storage WishList.reservations].
  rewrite items_of_saved. cbn [WishList.wl_items].
  split; [exists wl; auto |]. split; [reflexivity |]. split; [reflexivity |].
  split; [unfold items_of; rewrite Hwl; reflexivity |].
  split; [reflexivity |]. split; [reflexivity |]. split; [reflexivity |].
  intros Havail Hreserved other Hother.
  unfold WishList.reserveItemProc.
  cbn [WishList.r_ownerId WishList.r_itemId WishList.r_reservedBy].
  rewrite Huser, Hitem, Hother. cbn [negb orb].
  run_wish. rewrite lookup_insert_eq. cbn [WishList.wl_items].
  erewrite findItem_insert_same; [| exact Hf |].
  2:{ cbn [WishList.set_status WishList.item_id].
      apply findItem_Some in Hf as (_ & Hid & _). exact Hid. }
  cbn [WishList.set_status WishList.item_status WishList.item_reservedBy].
  rewrite Havail, Hreserved. eexists. reflexivity.
Qed.

Lemma reopened_item_keeps_its_reserver_witness :
  exists res w' w'',
    WishList.updateStatusProc
      (WishList.mkUpdateStatusArgs "user-alice" "item-1" "available") reserved_world
    = (Ok res, w')
    /\ WishList.item_status (WishList.ur_item res) = "available"
    /\ WishList.item_reservedBy (WishList.ur_item res) = Some "user-bob"
    /\ WishList.reserveItemProc
         (WishList.mkReserveArgs "user-alice" "item-1" "user-charlie") w'
       = (Throw ItemAlreadyReserved, w'').
Proof.
  destruct (WishList.updateStatusProc
              (WishList.mkUpdateStatusArgs "user-alice" "item-1" "available")
              reserved_world) as [[res | e] w'] eqn:E; [| absurd_run E].
  destruct (reopened_item_keeps_its_reserver
              (WishList.mkUpdateStatusArgs "user-alice" "item-1" "available")
              reserved_world w' res (or_introl eq_refl) E)
    as (i & item & (wl & Hwl & Hf) & Hres & _ & _ & _ & _ & _ & Hblocked).
  assert (Hitem : item = reserve_item "user-bob" 1700000000000 macbook).
  { vm_compute in Hwl. injection Hwl as <-. vm_compute in Hf. injection Hf as _ <-.
    reflexivity. }
  subst item.
  destruct (Hblocked eq_refl eq_refl "user-charlie" eq_refl) as [w'' Hrun].
  exists res, w', w''. split; [reflexivity |].
  rewrite Hres. split; [reflexivity |]. split; [reflexivity | exact Hrun].
Defined.




(** *** The query *)

Lemma priorityOrder_ordinary (item : WishList.Item) :
  ordinary_priority item ->
  WishList.priorityOrder (WishList.item_priority item) = Some (rank item).
Proof.
  unfold ordinary_priority, WishList.priorityOrder, rank. intros H.
  destruct (String.eqb_spec (WishList.item_priority item) "high") as [Heq | _];
    [reflexivity |].
  destruct (String.eqb_spec (WishList.item_priority item) "medium") as [Heq | _];
    [rewrite Heq; reflexivity |].
  destruct (String.eqb_spec (WishList.item_priority item) "low") as [Heq | _];
    [reflexivity |].
  rewrite (bool_decide_eq_false_2 _ H). reflexivity.
Qed.

Lemma precedes_ordinary (a b : WishList.Item) :
  ordinary_priority a -> ordinary_priority b ->
  (WishList.precedes a b = true -> by_priority a b)
  /\ (WishList.precedes a b = false -> by_priority b a).
Proof.
  intros Ha Hb. unfold WishList.precedes, WishList.compare_items, by_priority.
  rewrite (priorityOrder_ordinary a Ha), (priorityOrder_ordinary b Hb).
  destruct (Z.eqb_spec (rank b - rank a) 0) as [He | He]; cbn [negb].
  - split; intros H; [apply Z.leb_le in H | apply Z.leb_gt in H]; lia.
  - split; intros H; [apply Z.leb_le in H | apply Z.leb_gt in H]; lia.
Qed.

Lemma insert_item_perm (a : WishList.Item) (l : list WishList.Item) :
  WishList.insert_item a l ≡ₚ a :: l.
Proof.
  induction l as [| b l IH]; cbn [WishList.insert_item]; [reflexivity |].
  destruct (WishList.precedes a b); [reflexivity |].
  rewrite IH. apply Permutation_swap.
Qed.

Lemma sort_items_perm (l : list WishList.Item) : WishList.sort_items l ≡ₚ l.
Proof.
  induction l as [| a l IH]; cbn [WishList.sort_items]; [reflexivity |].
  rewrite insert_item_perm, IH. reflexivity.
Qed.

Lemma insert_item_hd (x a : WishList.Item) (l : list WishList.Item) :
  by_priority x a -> HdRel by_priority x l ->
  HdRel by_priority x (WishList.insert_item a l).
Proof.
  intros Hxa Hx. destruct l as [| b l]; cbn [WishList.insert_item].
  - constructor. exact Hxa.
  - destruct (WishList.precedes a b).
    + constructor. exact Hxa.
    + constructor. inversion Hx; assumption.
Qed.

Lemma insert_item_sorted (a : WishList.Item) (l : list WishList.Item) :
  ordinary_priority a -> Forall ordinary_priority l ->
  Sorted by_priority l -> Sorted by_priority (WishList.insert_item a l).
Proof.
  intros Ha Hall Hs. induction Hs as [| b l Hl IH Hhd]; cbn [WishList.insert_item].
  - repeat constructor.
  - apply Forall_cons in Hall as [Hb Hall].
    destruct (precedes_ordinary a b Ha Hb) as [Hle Hgt].
    destruct (WishList.precedes a b).
    + constructor; [constructor; assumption |]. constructor. auto.
    + constructor; [apply IH, Hall |].
      apply insert_item_hd; [auto | exact Hhd].
Qed.

Lemma sort_items_sorted (l : list WishList.Item) :
  Forall ordinary_priority l -> Sorted by_priority (WishList.sort_items l).
Proof.
  induction l as [| a l IH]; intros Hall; cbn [WishList.sort_items].
  - constructor.
  - apply Forall_cons in Hall as [Ha Hall].
    apply insert_item_sorted; [exact Ha | | apply IH, Hall].
    rewrite (sort_items_perm l). exact Hall.
Qed.

Lemma selected_ordinary (statusFilter : option string) (items : list WishList.Item) :
  Forall ordinary_priority items -> Forall ordinary_priority (selected statusFilter items).
Proof.
  intros H. unfold selected. destruct statusFilter as [status |]; [| exact H].
  destruct (Js.truthy status); [| exact H].
  rewrite Forall_forall in H. apply Forall_forall. intros item Hin.
  apply list_elem_of_filter in Hin as [_ Hin]. auto.
Qed.

Ltac run_query :=
  cbn [and_then call value returns fails bind get saveData addBlock now random ret
       throw log WishList.wishlist_table WishList.reservations_table
       WishList.wishlists WishList.reservations
       storage chain events tick clock entropy select update fst snd].
Tactic Notation "run_query" "in" hyp(H) :=
  cbn [and_then call value returns fails bind get saveData addBlock now random ret
       throw log WishList.wishlist_table WishList.reservations_table
       WishList.wishlists WishList.reservations
       storage chain events tick clock entropy select update fst snd] in H.

(** X20: the view of a wish list. For a user with a list, [getWishListProc]
    returns the items of the list - those whose status is the filter, when a
    filter is given - ordered by priority, high before medium before low, an
    unknown priority counting as medium, and by time of creation within a
    priority, provided no priority is a name every object inherits (such as
    'constructor'), for which the comparison is NaN. [totalItems] counts the
    items returned and [totalAllItems] the items of the list. The query
    reads the list once and writes nothing. *)
Theorem getWishListProc_sorted_view (args : WishList.GetWishListArgs)
    (w : World WishList.Store) (wl : WishList.List) :
  let userId := WishList.gw_userId args in
  Js.truthy userId = true ->
  WishList.wishlists (storage w) !! WishList.wishlist_key userId = Some wl ->
  Forall ordinary_priority (WishList.wl_items wl) ->
  exists view,
    WishList.getWishListProc args w
    = (Returns view, log (EGet (WishList.wishlist_key userId)) w)
    /\ Sorted by_priority (WishList.wv_items view)
    /\ WishList.wv_items view
       ≡ₚ selected (WishList.gw_statusFilter args) (WishList.wl_items wl)
    /\ WishList.wv_totalItems view = length (WishList.wv_items view)
    /\ WishList.wv_totalAllItems view = Some (length (WishList.wl_items wl))
    /\ WishList.wv_userId view = WishList.wl_userId wl
    /\ WishList.wv_createdAt view = WishList.wl_createdAt wl
    /\ WishList.wv_updatedAt view = WishList.wl_updatedAt wl.
Proof.
  intros userId Huser Hwl Hall. subst userId.
  unfold WishList.getWishListProc. rewrite Huser. cbn [negb].
  run_query. rewrite Hwl.
  eexists. split; [reflexivity |].
  cbn [WishList.wv_items WishList.wv_totalItems WishList.wv_totalAllItems
       WishList.wv_userId WishList.wv_createdAt WishList.wv_updatedAt].
  fold (selected (WishList.gw_statusFilter args) (WishList.wl_items wl)).
  split; [apply sort_items_sorted, selected_ordinary, Hall |].
  split; [apply sort_items_perm |].
  repeat split; reflexivity.
Qed.

Lemma getWishListProc_sorted_view_witness :
  exists view w',
    WishList.getWishListProc (WishList.mkGetWishListArgs "user-alice" (Some "available"))
      (world0 three_wishes) = (Returns view, w')
    /\ WishList.item_name <$> WishList.wv_items view = ["MacBook Pro"; "Books"]
    /\ WishList.wv_totalItems view = 2
    /\ WishList.wv_totalAllItems view = Some 3.
Proof.
  destruct (getWishListProc_sorted_view
              (WishList.mkGetWishListArgs "user-alice" (Some "available"))
              (world0 three_wishes)
              (WishList.mkList "user-alice" [books; headphones; macbook]
                 1700000000000 1700000000003) eq_refl eq_refl)
    as (view & Hrun & _ & _ & Htotal & Hall & _).
  - repeat constructor; unfold ordinary_priority; apply (bool_decide_unpack _);
      vm_compute; exact I.
  - eexists view, _. split; [exact Hrun |].
    assert (Hitems : WishList.wv_items view = [macbook; books]).
    { apply (f_equal (fun r => match fst r with
                               | Returns v => WishList.wv_items v
                               | Fails _ => []
                               end)) in Hrun.
      vm_compute in Hrun. symmetry. exact Hrun. }
    rewrite Htotal, Hall, Hitems. repeat split.
Defined.

(** X21: [getWishListProc] is a query. Whatever it returns, it leaves the
    store and the chain as they were and saves nothing. It throws exactly
    when the user id is empty, with 'Missing required field: userId' and
    before it reads; for a user without a list it returns no item, with
    [totalItems] 0 and without [totalAllItems]. *)
Theorem getWishListProc_is_a_query (args : WishList.GetWishListArgs)
    (w w' : World WishList.Store) (out : result WishList.WishListView) :
  let userId := WishList.gw_userId args in
  WishList.getWishListProc args w = (out, w') ->
  storage w' = storage w /\ chain w' = chain w
  /\ writes (events_since w w') = 0 /\ appended (events_since w w') = 0
  /\ ((exists e, out = Fails e) <-> Js.truthy userId = false)
  /\ (Js.truthy userId = false -> out = Fails (MissingRequiredField "userId") /\ w' = w)
  /\ (Js.truthy userId = true ->
      WishList.wishlists (storage w) !! WishList.wishlist_key userId = None ->
      exists view,
        out = Returns view /\ WishList.wv_userId view = userId
        /\ WishList.wv_items view = [] /\ WishList.wv_totalItems view = 0
        /\ WishList.wv_totalAllItems view = None).
Proof.
  intros userId H. subst userId. unfold WishList.getWishListProc in H.
  destruct (Js.truthy (WishList.gw_userId args)) eqn:Huser; cbn [negb] in H.
  - run_query in H.
    destruct (WishList.wishlists (storage w) !! _) as [wl |] eqn:Hwl;
      run_query in H; injection H as <- <-; cbn [storage chain];
      (erewrite events_since_app by (cbn [events]; reflexivity));
      (split; [reflexivity |]); (split; [reflexivity |]);
      (split; [reflexivity |]); (split; [reflexivity |]).
    + split; [split; [intros [e He]; discriminate He | discriminate] |].
      split; [discriminate |]. intros _ Hnone. discriminate Hnone.
    + split; [split; [intros [e He]; discriminate He | discriminate] |].
      split; [discriminate |]. intros _ _. eexists. repeat split.
  - injection H as <- <-. unfold events_since. rewrite drop_all.
    repeat (split; [reflexivity |]).
    split; [split; [reflexivity | eauto] |].
    split; [auto | discriminate].
Qed.

Lemma getWishListProc_is_a_query_witness :
  exists view w',
    WishList.getWishListProc (WishList.mkGetWishListArgs "user-bob" None)
      (world0 alice_wishes) = (Returns view, w')
    /\ storage w' = alice_wishes
    /\ WishList.wv_items view = []
    /\ WishList.wv_totalAllItems view = None.
Proof.
  destruct (WishList.getWishListProc (WishList.mkGetWishListArgs "user-bob" None)
              (world0 alice_wishes)) as [out w'] eqn:E.
  destruct (getWishListProc_is_a_query _ _ _ _ E) as (Hs & _ & _ & _ & _ & _ & Hnone).
  destruct (Hnone eq_refl eq_refl) as (view & -> & _ & Hitems & _ & Hall).
  exists view, w'. split; [reflexivity |].
  split; [exact Hs |]. split; [exact Hitems | exact Hall].
Defined.

(** ** Chat, continued *)

Lemma sendMessageProc_returns (args : ChatAgent.SendArgs) (w : World ChatAgent.Store) :
  let threadId := ChatAgent.s_threadId args in
  let userId := ChatAgent.s_userId args in
  send_missing_fieldsb args = false ->
  ChatAgent.s_role args ∈ ChatAgent.roles ->
  may_write (storage w) threadId userId ->
  exists id timestamp th' uts' d ev tk,
    let message :=
      ChatAgent.mkMessage id threadId (ChatAgent.s_role args)
        (ChatAgent.s_content args) timestamp
        (Js.default_to (Js.Obj []) (ChatAgent.s_metadata args)) in
    ChatAgent.sendMessageProc args w
    = (Ok (ChatAgent.mkSendResult true message threadId
             (length (messages_of (storage w) threadId) + 1)),
       mkWorld
         (ChatAgent.mkStore
            (<[ChatAgent.thread_key threadId := th']> (ChatAgent.threads (storage w)))
            uts')
         (chain w ++ WriteBlock (ChatAgent.thread_key threadId)
                  :: (if bool_decide (threadId ∈ ChatAgent.getUserThreads (storage w) userId)
                      then []
                      else [WriteBlock (ChatAgent.userThreads_key userId)])
                  ++ [DataBlock d])
         (events w ++ ev) tk (clock w) (entropy w))
    /\ ChatAgent.th_messages th' = (messages_of (storage w) threadId ++ [message])%list
    /\ ChatAgent.th_threadId th'
       = match ChatAgent.threads (storage w) !! ChatAgent.thread_key threadId with
         | Some th => ChatAgent.th_threadId th
         | None => threadId
         end
    /\ ChatAgent.th_userId th' = userId
    /\ ChatAgent.th_context th'
       = match ChatAgent.threads (storage w) !! ChatAgent.thread_key threadId with
         | Some th => ChatAgent.th_context th
         | None => Js.Obj []
         end
    /\ (forall th, ChatAgent.threads (storage w) !! ChatAgent.thread_key threadId = Some th ->
          ChatAgent.th_createdAt th' = ChatAgent.th_createdAt th)
    /\ uts'
       = (if bool_decide (threadId ∈ ChatAgent.getUserThreads (storage w) userId)
          then ChatAgent.userThreads (storage w)
          else <[ChatAgent.userThreads_key userId :=
                   ChatAgent.mkUserThreads
                     (ChatAgent.getUserThreads (storage w) userId ++ [threadId])]>
                 (ChatAgent.userThreads (storage w)))
    /\ ev
       = (EGet (ChatAgent.thread_key threadId)
          :: ESave (ChatAgent.thread_key threadId) false
          :: EGet (ChatAgent.userThreads_key userId)
          :: (if bool_decide (threadId ∈ ChatAgent.getUserThreads (storage w) userId)
              then []
              else [ESave (ChatAgent.userThreads_key userId) false])
          ++ [EAddBlock d])%list
    /\ (exists (t : Z) rnd, id = "msg-" +:+ pretty t +:+ "-" +:+ rnd)
    /\ (exists i, timestamp = clock w i)
    /\ Js.get "type" d = Js.Str "chat-message"
    /\ Js.get "messageId" d = Js.Str id.
Proof.
  intros threadId userId Hm Hrole Hmay. subst threadId userId.
  destruct w as [[ths uts] ch ev tk ck en].
  unfold may_write, messages_of, ChatAgent.getUserThreads in *.
  cbn [storage ChatAgent.threads ChatAgent.userThreads chain events clock entropy tick]
    in *.
  unfold ChatAgent.sendMessageProc. unfold send_missing_fieldsb in Hm. rewrite Hm.
  rewrite (bool_decide_eq_true_2 _ Hrole). cbn [negb].
  exec_chat.
  destruct (ths !! ChatAgent.thread_key (ChatAgent.s_threadId args)) as [th |] eqn:Hth;
    cbn [ChatAgent.th_userId]; rewrite ?Hmay, String.eqb_refl; cbn [negb];
    (destruct (uts !! ChatAgent.userThreads_key (ChatAgent.s_userId args))
       as [ut |] eqn:Hut;
     [destruct (bool_decide (ChatAgent.s_threadId args ∈ ChatAgent.ut_threads ut))
     | cbn [ChatAgent.ut_threads];
       destruct (bool_decide (ChatAgent.s_threadId args ∈ []))]);
    cbn [negb]; exec_chat;
    cbn [ChatAgent.th_messages ChatAgent.ut_threads app length Nat.add];
    rewrite ?length_app; cbn [length];
    do 7 eexists;
    (split; [rewrite <- ?app_assoc; cbn [app]; reflexivity |]);
    cbn [ChatAgent.th_messages ChatAgent.th_threadId ChatAgent.th_userId
         ChatAgent.th_context ChatAgent.th_createdAt ChatAgent.ut_threads];
    (split; [reflexivity |]); (split; [reflexivity |]);
    (split; [first [exact Hmay | reflexivity] |]);
    (split; [reflexivity |]);
    (split; [intros th0 Hc; first [discriminate Hc | injection Hc as <-; reflexivity] |]);
    (split; [reflexivity |]); (split; [reflexivity |]);
    (split; [eexists _, _; reflexivity |]); (split; [eexists; reflexivity |]);
    split; reflexivity.
Qed.

Lemma send_success_guards (args : ChatAgent.SendArgs) (w w' : World ChatAgent.Store)
    (res : ChatAgent.SendResult) :
  ChatAgent.sendMessageProc args w = (Ok res, w') ->
  send_missing_fieldsb args = false
  /\ ChatAgent.s_role args ∈ ChatAgent.roles
  /\ may_write (storage w) (ChatAgent.s_threadId args) (ChatAgent.s_userId args).
Proof.
  intros H. destruct w as [[ths uts] ch ev tk ck en].
  unfold ChatAgent.sendMessageProc in H. unfold send_missing_fieldsb, may_write.
  cbn [storage ChatAgent.threads].
  destruct (negb (Js.truthy (ChatAgent.s_threadId args))
            || negb (Js.truthy (ChatAgent.s_userId args))
            || negb (Js.truthy (ChatAgent.s_role args))
            || negb (Js.truthy (ChatAgent.s_content args))); [discriminate H |].
  split; [reflexivity |].
  destruct (bool_decide_reflect (ChatAgent.s_role args ∈ ChatAgent.roles))
    as [Hrole | Hrole]; cbn [negb] in H; [| discriminate H].
  split; [exact Hrole |].
  exec_chat in H.
  destruct (ths !! ChatAgent.thread_key (ChatAgent.s_threadId args)) as [th |];
    [| exact I].
  cbn [ChatAgent.th_userId] in H.
  destruct (String.eqb_spec (ChatAgent.th_userId th) (ChatAgent.s_userId args))
    as [Hown | Hown]; [exact Hown | discriminate H].
Qed.

Lemma thread_key_ne (a b : string) :
  a <> b -> ChatAgent.thread_key a <> ChatAgent.thread_key b.
Proof. intros Hne Heq. apply Hne. exact (append_cancel_l _ _ _ Heq). Qed.

(** X22: a message is appended. When [sendMessageProc] succeeds, the thread
    is saved with the messages it had, in the same order, followed by the
    new message, which carries the role and content of the call and its
    metadata, [{}] when the call gives none ([undefined]);
    [messageCount] is the new number of messages. The thread is owned by the
    caller, other threads are as before, and one 'chat-message' block names
    the message. *)
Theorem sendMessageProc_appends_message (args : ChatAgent.SendArgs)
    (w w' : World ChatAgent.Store) (res : ChatAgent.SendResult) :
  let threadId := ChatAgent.s_threadId args in
  let userId := ChatAgent.s_userId args in
  let message := ChatAgent.sr_message res in
  ChatAgent.sendMessageProc args w = (Ok res, w') ->
  messages_of (storage w') threadId = (messages_of (storage w) threadId ++ [message])%list
  /\ ChatAgent.sr_messageCount res = length (messages_of (storage w') threadId)
  /\ ChatAgent.msg_threadId message = threadId
  /\ ChatAgent.msg_role message = ChatAgent.s_role args
  /\ ChatAgent.msg_content message = ChatAgent.s_content args
  /\ ChatAgent.msg_metadata message
     = match ChatAgent.s_metadata args with
       | Js.Undefined => Js.Obj []
       | _ => ChatAgent.s_metadata args
       end
  /\ (exists th', ChatAgent.threads (storage w') !! ChatAgent.thread_key threadId = Some th'
                  /\ ChatAgent.th_userId th' = userId)
  /\ (forall other, other <> threadId ->
        ChatAgent.threads (storage w') !! ChatAgent.thread_key other
        = ChatAgent.threads (storage w) !! ChatAgent.thread_key other)
  /\ exists d,
       data_blocks (chain_since w w') = [d]
       /\ Js.get "type" d = Js.Str "chat-message"
       /\ Js.get "messageId" d = Js.Str (ChatAgent.msg_id message).
Proof.
  intros threadId userId message H. subst threadId userId message.
  destruct (send_success_guards _ _ _ _ H) as (Hm & Hrole & Hmay).
  destruct (sendMessageProc_returns args w Hm Hrole Hmay)
    as (id & ts & th' & uts' & d & ev & tk & Hrun & Hmsgs & _ & Hown & _ & _ & _ & _
        & _ & _ & Hty & Hid).
  cbv zeta in Hrun. rewrite Hrun in H. injection H as <- <-.
  cbn [ChatAgent.sr_message ChatAgent.sr_messageCount storage ChatAgent.threads
       ChatAgent.msg_threadId ChatAgent.msg_role ChatAgent.msg_content
       ChatAgent.msg_metadata ChatAgent.msg_id].
  assert (Hnew : messages_of
                   (ChatAgent.mkStore
                      (<[ChatAgent.thread_key (ChatAgent.s_threadId args) := th']>
                         (ChatAgent.threads (storage w))) uts')
                   (ChatAgent.s_threadId args)
                 = ChatAgent.th_messages th').
  { unfold messages_of. cbn [ChatAgent.threads]. rewrite lookup_insert_eq. reflexivity. }
  rewrite Hnew, Hmsgs.
  split; [reflexivity |]. split; [rewrite length_app; reflexivity |].
  repeat (split; [reflexivity |]).
  split; [exists th'; rewrite lookup_insert_eq; auto |].
  split; [intros other Hne; apply lookup_insert_ne, thread_key_ne; congruence |].
  exists d. erewrite chain_since_app by (cbn [chain]; reflexivity).
  split; [| auto].
  destruct (bool_decide _); reflexivity.
Qed.

Lemma length_append (a b : string) :
  String.length (a +:+ b) = String.length a + String.length b.
Proof.
  induction a as [| c a IH]; [reflexivity |].
  change (String c a +:+ b) with (String c (a +:+ b)).
  cbn [String.length]. rewrite IH. reflexivity.
Qed.

Lemma append_cancel_r (a b t : string) : a +:+ t = b +:+ t -> a = b.
Proof.
  revert b. induction a as [| c a IH]; intros [| c' b] H.
  - reflexivity.
  - apply (f_equal String.length) in H. rewrite !length_append in H.
    cbn [String.length] in H. lia.
  - apply (f_equal String.length) in H. rewrite !length_append in H.
    cbn [String.length] in H. lia.
  - change (String c (a +:+ t) = String c' (b +:+ t)) in H.
    injection H as -> H. f_equal. apply IH, H.
Qed.

Lemma userThreads_key_ne (a b : string) :
  a <> b -> ChatAgent.userThreads_key a <> ChatAgent.userThreads_key b.
Proof.
  intros Hne Heq. apply Hne. unfold ChatAgent.userThreads_key in Heq.
  apply append_cancel_l in Heq. exact (append_cancel_r _ _ _ Heq).
Qed.

(** X23: a thread is listed once. When [sendMessageProc] succeeds, the
    caller's list of threads holds the thread: the list is saved with the
    thread added at its end if it was not in it, and is not written
    otherwise, so a list without repetition stays without repetition. The
    lists of other users are as before. *)
Theorem sendMessageProc_lists_thread_once (args : ChatAgent.SendArgs)
    (w w' : World ChatAgent.Store) (res : ChatAgent.SendResult) :
  let threadId := ChatAgent.s_threadId args in
  let userId := ChatAgent.s_userId args in
  let listed_before := ChatAgent.getUserThreads (storage w) userId in
  ChatAgent.sendMessageProc args w = (Ok res, w') ->
  ChatAgent.getUserThreads (storage w') userId
  = (if bool_decide (threadId ∈ listed_before) then listed_before
     else listed_before ++ [threadId])%list
  /\ threadId ∈ ChatAgent.getUserThreads (storage w') userId
  /\ (NoDup listed_before -> NoDup (ChatAgent.getUserThreads (storage w') userId))
  /\ writes (events_since w w') = (if bool_decide (threadId ∈ listed_before) then 1 else 2)
  /\ forall other, other <> userId ->
       ChatAgent.getUserThreads (storage w') other
       = ChatAgent.getUserThreads (storage w) other.
Proof.
  intros threadId userId listed_before H. subst threadId userId.
  destruct (send_success_guards _ _ _ _ H) as (Hm & Hrole & Hmay).
  destruct (sendMessageProc_returns args w Hm Hrole Hmay)
    as (id & ts & th' & uts' & d & ev & tk & Hrun & _ & _ & _ & _ & _ & Huts & Hev & _).
  cbv zeta in Hrun. rewrite Hrun in H. injection H as _ <-.
  erewrite events_since_app by (cbn [events]; reflexivity).
  fold listed_before in Huts, Hev. rewrite Hev, Huts. clear Hrun Hev Huts.
  cbn [storage].
  destruct (bool_decide_reflect (ChatAgent.s_threadId args ∈ listed_before))
    as [Hin | Hnin].
  - change (ChatAgent.getUserThreads
              (ChatAgent.mkStore _ (ChatAgent.userThreads (storage w)))
              (ChatAgent.s_userId args)) with listed_before.
    split; [reflexivity |]. split; [exact Hin |]. split; [auto |].
    split; [reflexivity |]. intros other _. reflexivity.
  - assert (Hnew : ChatAgent.getUserThreads
                     (ChatAgent.mkStore
                        (<[ChatAgent.thread_key (ChatAgent.s_threadId args) := th']>
                           (ChatAgent.threads (storage w)))
                        (<[ChatAgent.userThreads_key (ChatAgent.s_userId args) :=
                             ChatAgent.mkUserThreads
                               (listed_before ++ [ChatAgent.s_threadId args])]>
                           (ChatAgent.userThreads (storage w))))
                     (ChatAgent.s_userId args)
                   = (listed_before ++ [ChatAgent.s_threadId args])%list).
    { unfold ChatAgent.getUserThreads at 1. cbn [ChatAgent.userThreads].
      rewrite lookup_insert_eq. reflexivity. }
    rewrite Hnew.
    split; [reflexivity |].
    split; [apply elem_of_app; right; left |].
    split.
    + intros Hnd. apply NoDup_app. split; [exact Hnd |].
      split; [| apply NoDup_singleton].
      intros x Hx Hx'. apply list_elem_of_singleton in Hx'. subst x. contradiction.
    + split; [reflexivity |]. intros other Hne.
      unfold ChatAgent.getUserThreads. cbn [ChatAgent.userThreads].
      rewrite lookup_insert_ne by (apply userThreads_key_ne; congruence). reflexivity.
Qed.

Lemma messages_of_saved (ths : gmap string ChatAgent.Thread)
    (uts : gmap string ChatAgent.UserThreads) (threadId : string) (th : ChatAgent.Thread) :
  messages_of (ChatAgent.mkStore (<[ChatAgent.thread_key threadId := th]> ths) uts) threadId
  = ChatAgent.th_messages th.
Proof.
  unfold messages_of. cbn [ChatAgent.threads]. rewrite lookup_insert_eq. reflexivity.
Qed.

(** The conversation of a thread the caller owns, read without a limit. *)
Lemma getConversationProc_owned (threadId userId : string) (w : World ChatAgent.Store)
    (th : ChatAgent.Thread) :
  Js.truthy threadId = true -> Js.truthy userId = true ->
  ChatAgent.threads (storage w) !! ChatAgent.thread_key threadId = Some th ->
  ChatAgent.th_userId th = userId ->
  ChatAgent.getConversationProc (ChatAgent.mkGetArgs threadId userId None) w
  = match ChatAgent.check_messages ∅ (ChatAgent.sort_by_timestamp (ChatAgent.th_messages th))
    with
    | Ok _ =>
        (Ok (ChatAgent.mkConversation threadId userId
               (ChatAgent.sort_by_timestamp (ChatAgent.th_messages th))
               (Js.or_else (ChatAgent.th_context th) (Js.Obj []))
               (ChatAgent.th_createdAt th) (ChatAgent.th_updatedAt th)
               (length (ChatAgent.th_messages th)) (length (ChatAgent.th_messages th))),
         log (EGet (ChatAgent.thread_key threadId)) w)
    | Throw e => (Throw e, log (EGet (ChatAgent.thread_key threadId)) w)
    end.
Proof.
  intros Hthread Huser Hth Hown.
  destruct w as [[ths uts] ch ev tk ck en]. cbn [storage ChatAgent.threads] in Hth.
  unfold ChatAgent.getConversationProc.
  cbn [ChatAgent.g_threadId ChatAgent.g_userId ChatAgent.g_limit].
  rewrite Hthread, Huser. cbn [negb orb].
  exec_chat. rewrite Hth, Hown, String.eqb_refl. cbn [negb].
  destruct (ChatAgent.check_messages ∅ _) as [[] | e]; reflexivity.
Qed.

(** With distinct ids, the loop stops at the one malformed message. *)
Lemma check_messages_one_malformed (seen : gset string) (l : list ChatAgent.Message)
    (m0 : ChatAgent.Message) :
  NoDup (ChatAgent.msg_id <$> l) ->
  (forall m, m ∈ l -> ChatAgent.msg_id m ∉ seen) ->
  m0 ∈ l -> ChatAgent.malformed m0 = true ->
  (forall m, m ∈ l -> ChatAgent.malformed m = true -> m = m0) ->
  ChatAgent.check_messages seen l = Throw (InvalidMessageFormat (ChatAgent.msg_id m0)).
Proof.
  revert seen. induction l as [| m l IH]; intros seen Hnd Hseen Hin Hbad Honly.
  - inversion Hin.
  - cbn [ChatAgent.check_messages].
    rewrite fmap_cons in Hnd. apply NoDup_cons in Hnd as [Hm Hnd].
    assert (Hhere : m ∈ m :: l) by left.
    rewrite (bool_decide_eq_false_2 _ (Hseen m Hhere)).
    destruct (ChatAgent.malformed m) eqn:Hmal.
    + rewrite (Honly m Hhere Hmal). reflexivity.
    + apply elem_of_cons in Hin as [-> | Hin]; [congruence |].
      apply IH; try assumption.
      * intros m' Hm' Hc. apply elem_of_union in Hc as [Hc | Hc].
        -- apply elem_of_singleton in Hc. apply Hm. rewrite <- Hc.
           apply list_elem_of_fmap. eauto.
        -- apply (Hseen m'); [right; exact Hm' | exact Hc].
      * intros m' Hm'. apply Honly. right. exact Hm'.
Qed.

(** X24: a message sent is read back. After [sendMessageProc] succeeds on a
    thread whose messages have distinct ids and lack no field, and when the
    new message has an id none of them has and a timestamp other than 0,
    [getConversationProc] for the same thread and user, without a limit,
    returns these messages and the new one, ordered by timestamp, and
    [messageCount] is the count the send returned. When the clock read 0
    for the new message, the conversation can no longer be read: the
    consistency check takes the timestamp for a missing field. *)
Theorem sent_message_is_read_back (args : ChatAgent.SendArgs)
    (w w1 : World ChatAgent.Store) (res : ChatAgent.SendResult) :
  let threadId := ChatAgent.s_threadId args in
  let userId := ChatAgent.s_userId args in
  let before := messages_of (storage w) threadId in
  let message := ChatAgent.sr_message res in
  ChatAgent.sendMessageProc args w = (Ok res, w1) ->
  NoDup (ChatAgent.msg_id <$> before) ->
  Forall (fun m => ChatAgent.malformed m = false) before ->
  ChatAgent.msg_id message ∉ ChatAgent.msg_id <$> before ->
  (ChatAgent.msg_timestamp message <> 0%Z ->
   exists cv w2,
     ChatAgent.getConversationProc (ChatAgent.mkGetArgs threadId userId None) w1
     = (Ok cv, w2)
     /\ ChatAgent.cv_messages cv ≡ₚ before ++ [message]
     /\ Sorted by_timestamp (ChatAgent.cv_messages cv)
     /\ ChatAgent.cv_messageCount cv = ChatAgent.sr_messageCount res)
  /\ (ChatAgent.msg_timestamp message = 0%Z ->
      exists w2,
        ChatAgent.getConversationProc (ChatAgent.mkGetArgs threadId userId None) w1
        = (Throw (InvalidMessageFormat (ChatAgent.msg_id message)), w2)).
Proof.
  intros threadId userId before message H Hnd Hwell Hfresh.
  subst threadId userId before message.
  destruct (send_success_guards _ _ _ _ H) as (Hm & Hrole & Hmay).
  destruct (sendMessageProc_returns args w Hm Hrole Hmay)
    as (id & ts & th' & uts' & d & ev & tk & Hrun & Hmsgs & _ & Hown & _).
  cbv zeta in Hrun. rewrite Hrun in H. injection H as <- <-.
  cbn [ChatAgent.sr_message ChatAgent.sr_messageCount ChatAgent.msg_id
       ChatAgent.msg_timestamp] in *.
  unfold send_missing_fieldsb in Hm.
  apply orb_false_iff in Hm as [Hm Hcontent]. apply orb_false_iff in Hm as [Hm Hrolet].
  apply orb_false_iff in Hm as [Hthread Huser].
  apply negb_false_iff in Hthread, Huser, Hrolet, Hcontent.
  set (message := ChatAgent.mkMessage id (ChatAgent.s_threadId args)
                    (ChatAgent.s_role args) (ChatAgent.s_content args) ts
                    (Js.default_to (Js.Obj []) (ChatAgent.s_metadata args))) in *.
  set (before := messages_of (storage w) (ChatAgent.s_threadId args)) in *.
  rewrite (getConversationProc_owned _ _ _ th' Hthread Huser)
    by (first [apply lookup_insert_eq | exact Hown]).
  rewrite Hmsgs.
  assert (Hnd' : NoDup (ChatAgent.msg_id <$> (before ++ [message])%list)).
  { rewrite fmap_app. apply NoDup_app. split; [exact Hnd |].
    split; [| apply NoDup_singleton].
    intros x Hx Hx'. apply list_elem_of_singleton in Hx'. subst x. exact (Hfresh Hx). }
  split.
  - intros Hts.
    assert (Hok : ChatAgent.check_messages ∅
                    (ChatAgent.sort_by_timestamp (before ++ [message])) = Ok tt).
    { apply check_messages_Ok. rewrite (sort_by_timestamp_perm (before ++ [message])).
      split; [exact Hnd' |]. split; [intros m _; apply not_elem_of_empty |].
      apply Forall_app. split; [exact Hwell |]. constructor; [| constructor].
      unfold ChatAgent.malformed, message. cbn [ChatAgent.msg_timestamp
        ChatAgent.msg_role ChatAgent.msg_content].
      rewrite Hrolet, Hcontent. unfold Js.truthy_int.
      destruct (Z.eqb_spec ts 0); [contradiction | reflexivity]. }
    rewrite Hok. eexists _, _. split; [reflexivity |].
    cbn [ChatAgent.cv_messages ChatAgent.cv_messageCount].
    split; [apply sort_by_timestamp_perm |].
    split; [apply sort_by_timestamp_sorted |].
    rewrite length_app. reflexivity.
  - intros Hts.
    rewrite (check_messages_one_malformed ∅ _ message).
    + eexists. reflexivity.
    + rewrite (sort_by_timestamp_perm (before ++ [message])). exact Hnd'.
    + intros m _. apply not_elem_of_empty.
    + rewrite (sort_by_timestamp_perm (before ++ [message])).
      apply elem_of_app. right. left.
    + unfold ChatAgent.malformed, message. cbn [ChatAgent.msg_timestamp].
      rewrite Hts. reflexivity.
    + intros m Hin Hbad. rewrite (sort_by_timestamp_perm (before ++ [message])) in Hin.
      apply elem_of_app in Hin as [Hin | Hin].
      * rewrite Forall_forall in Hwell. rewrite (Hwell m Hin) in Hbad. discriminate Hbad.
      * apply list_elem_of_singleton in Hin. exact Hin.
Qed.

Lemma slice_positive {A} (k : Z) (a : list A) :
  (0 < k)%Z -> ChatAgent.slice k a = drop (Z.to_nat k) a.
Proof.
  intros Hk. unfold ChatAgent.slice.
  destruct (Z.ltb_spec k 0); [lia |].
  destruct (Z.le_gt_cases k (Z.of_nat (length a))).
  - rewrite Z.min_l by lia. reflexivity.
  - rewrite Z.min_r by lia. rewrite Nat2Z.id, drop_all.
    symmetry. apply drop_ge. lia.
Qed.

(** X25: a negative limit. [slice(-limit)] with a negative [limit] is a slice
    from a positive start: a conversation asked for with limit [-n] comes
    back without its [n] oldest messages (all the others, in timestamp
    order), while [messageCount] still counts every stored message. *)
Theorem getConversationProc_negative_limit (args : ChatAgent.GetArgs)
    (w w' : World ChatAgent.Store) (cv : ChatAgent.Conversation) (l : Z) :
  ChatAgent.getConversationProc args w = (Ok cv, w') ->
  ChatAgent.g_limit args = Some l ->
  (l < 0)%Z ->
  ChatAgent.cv_messages cv
  = drop (Z.to_nat (- l))
      (ChatAgent.sort_by_timestamp (messages_of (storage w) (ChatAgent.g_threadId args)))
  /\ ChatAgent.cv_messageCount cv
     = length (messages_of (storage w) (ChatAgent.g_threadId args)).
Proof.
  intros H Hl Hneg. destruct w as [[ths uts] ch ev tk ck en].
  unfold messages_of. cbn [storage ChatAgent.threads].
  unfold ChatAgent.getConversationProc in H. rewrite Hl in H.
  destruct (negb _ || negb _); [discriminate H |].
  exec_chat in H.
  destruct (ths !! ChatAgent.thread_key (ChatAgent.g_threadId args)) as [th |];
    [| discriminate H].
  destruct (negb (String.eqb _ _)); [discriminate H |].
  destruct (ChatAgent.check_messages ∅ _) as [[] | e]; [| discriminate H].
  injection H as <- <-. cbn [ChatAgent.cv_messages ChatAgent.cv_messageCount].
  unfold Js.truthy_int. destruct (Z.eqb_spec l 0); [lia |]. cbn [negb].
  split; [apply slice_positive; lia | reflexivity].
Qed.

(** X26: reading a conversation changes nothing. Whatever its outcome,
    [getConversationProc] leaves the store and the chain as they were. A
    call without thread id or user id is refused before anything is read;
    otherwise the thread record is read once, a thread that is not stored
    is reported as not found by its id, and a thread of another user is
    refused. *)
Theorem getConversationProc_is_a_query (args : ChatAgent.GetArgs)
    (w : World ChatAgent.Store) :
  let threadId := ChatAgent.g_threadId args in
  let userId := ChatAgent.g_userId args in
  let run := ChatAgent.getConversationProc args w in
  storage (snd run) = storage w
  /\ chain (snd run) = chain w
  /\ (Js.truthy threadId && Js.truthy userId = false ->
      run = (Throw (MissingRequiredFields "threadId, userId"), w))
  /\ (Js.truthy threadId && Js.truthy userId = true ->
      events (snd run) = (events w ++ [EGet (ChatAgent.thread_key threadId)])%list
      /\ (ChatAgent.threads (storage w) !! ChatAgent.thread_key threadId = None ->
          fst run = Throw (ThreadNotFound threadId))
      /\ forall th,
           ChatAgent.threads (storage w) !! ChatAgent.thread_key threadId = Some th ->
           ChatAgent.th_userId th <> userId ->
           fst run = Throw ThreadNotOwned).
Proof.
  intros threadId userId run. subst threadId userId run.
  destruct w as [[ths uts] ch ev tk ck en]. cbn [storage ChatAgent.threads chain events].
  unfold ChatAgent.getConversationProc.
  destruct (Js.truthy (ChatAgent.g_threadId args)), (Js.truthy (ChatAgent.g_userId args));
    cbn [negb orb andb];
    try (split; [reflexivity |]; split; [reflexivity |];
         split; [intros _; reflexivity | intros Hc; discriminate Hc]).
  exec_chat.
  destruct (ths !! ChatAgent.thread_key (ChatAgent.g_threadId args)) as [th |].
  - destruct (String.eqb_spec (ChatAgent.th_userId th) (ChatAgent.g_userId args))
      as [Hown | Hown]; cbn [negb].
    + destruct (ChatAgent.check_messages ∅ _) as [[] | e];
        (split; [reflexivity |]); (split; [reflexivity |]);
        (split; [intros Hc; discriminate Hc |]); intros _;
        (split; [reflexivity |]); (split; [intros Hc; discriminate Hc |]);
        intros th0 Hth0 Hne; injection Hth0 as <-; contradiction.
    + (split; [reflexivity |]); (split; [reflexivity |]);
        (split; [intros Hc; discriminate Hc |]); intros _;
        (split; [reflexivity |]); (split; [intros Hc; discriminate Hc |]).
      intros th0 Hth0 Hne. reflexivity.
  - (split; [reflexivity |]); (split; [reflexivity |]);
      (split; [intros Hc; discriminate Hc |]); intros _;
      (split; [reflexivity |]); (split; [reflexivity |]).
    intros th0 Hc0. discriminate Hc0.
Qed.

(** *** The context *)

Lemma get_set_eq (k : string) (v : Js.value) (o : Js.object) :
  Js.get k (Js.set k v o) = v.
Proof.
  induction o as [| [k' v'] o IH]; cbn [Js.set Js.get].
  - rewrite String.eqb_refl. reflexivity.
  - destruct (String.eqb_spec k k') as [Heq | Hne]; cbn [Js.get].
    + rewrite String.eqb_refl. reflexivity.
    + destruct (String.eqb_spec k k'); [contradiction | exact IH].
Qed.

Lemma get_set_ne (k k' : string) (v : Js.value) (o : Js.object) :
  k <> k' -> Js.get k (Js.set k' v o) = Js.get k o.
Proof.
  intros Hne. induction o as [| [k0 v0] o IH]; cbn [Js.set Js.get].
  - destruct (String.eqb_spec k k'); [contradiction | reflexivity].
  - destruct (String.eqb_spec k' k0) as [Heq | Hne0]; cbn [Js.get].
    + subst k0. destruct (String.eqb_spec k k'); [contradiction | reflexivity].
    + destruct (String.eqb_spec k k0); [reflexivity | exact IH].
Qed.

Lemma merge_into_cons (target : Js.object) (key : string) (v : Js.value)
    (rest : list (string * Js.value)) :
  ChatAgent.merge_into target (Js.Obj ((key, v) :: rest))
  = ChatAgent.merge_into
      (match v, Js.get key target with
       | Js.Obj _, Js.Obj inner =>
           Js.set key (Js.Obj (ChatAgent.merge_into inner v)) target
       | _, _ => Js.set key v target
       end)
      (Js.Obj rest).
Proof. reflexivity. Qed.

Lemma get_merge_step (target : Js.object) (key k : string) (v : Js.value) :
  Js.get k
    (match v, Js.get key target with
     | Js.Obj _, Js.Obj inner =>
         Js.set key (Js.Obj (ChatAgent.merge_into inner v)) target
     | _, _ => Js.set key v target
     end)
  = if String.eqb k key then merged_value v (Js.get key target) else Js.get k target.
Proof.
  unfold merged_value, ChatAgent.mergeContext.
  destruct (String.eqb_spec k key) as [-> | Hne].
  - destruct v; try apply get_set_eq.
    destruct (Js.get key target); apply get_set_eq.
  - destruct v; try (apply get_set_ne; exact Hne).
    destruct (Js.get key target); apply get_set_ne; exact Hne.
Qed.

Lemma get_absent (k : string) (o : Js.object) :
  k ∉ o.*1 -> Js.get k o = Js.Undefined.
Proof.
  induction o as [| [k' v'] o IH]; intros Hk; cbn [Js.get]; [reflexivity |].
  rewrite fmap_cons in Hk. cbn [fst] in Hk.
  apply not_elem_of_cons in Hk as [Hne Hk].
  destruct (String.eqb_spec k k'); [contradiction | exact (IH Hk)].
Qed.

(** The merge, key by key, for a source with distinct keys. *)
Lemma mergeContext_get (target source : Js.object) (key : string) :
  NoDup source.*1 ->
  Js.get key (ChatAgent.mergeContext target source)
  = if bool_decide (key ∈ source.*1)
    then merged_value (Js.get key source) (Js.get key target)
    else Js.get key target.
Proof.
  unfold ChatAgent.mergeContext. revert target.
  induction source as [| [k v] rest IH]; intros target Hnd.
  - reflexivity.
  - rewrite fmap_cons in Hnd. cbn [fst] in Hnd.
    apply NoDup_cons in Hnd as [Hk Hnd].
    rewrite merge_into_cons, (IH _ Hnd), !get_merge_step.
    rewrite fmap_cons. cbn [fst Js.get].
    destruct (String.eqb_spec key k) as [-> | Hne].
    + rewrite (bool_decide_eq_false_2 _ Hk).
      rewrite (bool_decide_eq_true_2 (k ∈ k :: rest.*1)) by left.
      reflexivity.
    + destruct (bool_decide_reflect (key ∈ rest.*1)) as [Hin | Hin].
      * rewrite (bool_decide_eq_true_2 (key ∈ k :: rest.*1)) by (right; exact Hin).
        reflexivity.
      * rewrite (bool_decide_eq_false_2 (key ∈ k :: rest.*1)); [reflexivity |].
        intros Hc. apply elem_of_cons in Hc as [Hc | Hc]; contradiction.
Qed.

Lemma plain_NoDup (fields : Js.object) : Js.plain (Js.Obj fields) -> NoDup fields.*1.
Proof. intros [Hnd _]. exact Hnd. Qed.

(** X27: the merged context, key by key. Let the source be a plain object:
    at every depth its keys are distinct, none is a name inherited from
    [Object.prototype] ([__proto__] among them) and none is integer-like.
    Then under a key that is not an inherited name, a key the source does
    not have keeps the target's value; a key the source has takes the
    source's value, except where source and target both hold a plain object
    there: then it holds the merge of the two, computed by the same rule. *)
Theorem mergeContext_lookup (target source : Js.object) (key : string) :
  Js.plain (Js.Obj source) ->
  key ∉ Js.inherited_names ->
  Js.get key (ChatAgent.mergeContext target source)
  = if bool_decide (key ∈ source.*1)
    then merged_value (Js.get key source) (Js.get key target)
    else Js.get key target.
Proof.
  intros Hplain _. apply mergeContext_get, plain_NoDup, Hplain.
Qed.

Lemma set_absent (k : string) (v : Js.value) (o : Js.object) :
  k ∉ o.*1 -> Js.set k v o = (o ++ [(k, v)])%list.
Proof.
  induction o as [| [k' v'] o IH]; intros Hk; cbn [Js.set app]; [reflexivity |].
  rewrite fmap_cons in Hk. cbn [fst] in Hk.
  apply not_elem_of_cons in Hk as [Hne Hk].
  destruct (String.eqb_spec k k'); [contradiction |].
  rewrite (IH Hk). reflexivity.
Qed.

Lemma merge_into_fresh (target source : Js.object) :
  NoDup source.*1 ->
  (forall k, k ∈ source.*1 -> k ∉ target.*1) ->
  ChatAgent.merge_into target (Js.Obj source) = (target ++ source)%list.
Proof.
  revert target. induction source as [| [k v] rest IH]; intros target Hnd Hfresh.
  - cbn [ChatAgent.merge_into]. rewrite app_nil_r. reflexivity.
  - rewrite fmap_cons in Hnd, Hfresh. cbn [fst] in Hnd, Hfresh.
    apply NoDup_cons in Hnd as [Hk Hnd].
    assert (Hkt : k ∉ target.*1) by (apply Hfresh; left).
    rewrite merge_into_cons, (get_absent _ _ Hkt).
    assert (Hstep : match v with
                    | Js.Obj _ => Js.set k v target
                    | _ => Js.set k v target
                    end = (target ++ [(k, v)])%list)
      by (destruct v; apply set_absent, Hkt).
    rewrite Hstep, IH; [rewrite <- app_assoc; reflexivity | exact Hnd |].
    intros k' Hk'. rewrite fmap_app. cbn [fmap list_fmap fst].
    intros Hc. apply elem_of_app in Hc as [Hc | Hc].
    + apply (Hfresh k'); [right; exact Hk' | exact Hc].
    + apply list_elem_of_singleton in Hc. subst k'. contradiction.
Qed.

Lemma mergeContext_empty (source : Js.object) :
  NoDup source.*1 -> ChatAgent.mergeContext [] source = source.
Proof.
  intros Hnd. unfold ChatAgent.mergeContext.
  rewrite merge_into_fresh; [reflexivity | exact Hnd |].
  intros k _ Hc. inversion Hc.
Qed.

(** X28: what a context update changes. Take a thread whose stored context
    is an object, or a thread with none ([{}] stands for the context of a
    new thread and for a falsy one). When [updateContextProc] succeeds on
    it, the thread is saved under its key with the messages it had and the
    caller as owner. Where the stored and the given context are plain
    objects (distinct keys at every depth, none inherited from
    [Object.prototype], none integer-like), the saved context is the merge
    of the given context into the stored one, and it is the context
    returned. Other threads are as before, one write is registered and one
    'chat-context-update' block appended. The user's list of threads is not
    touched: a thread created by a context update is not added to it. *)
Theorem updateContextProc_merges_context (args : ChatAgent.ContextArgs)
    (w w' : World ChatAgent.Store) (res : ChatAgent.ContextResult)
    (target : Js.object) :
  let threadId := ChatAgent.c_threadId args in
  let userId := ChatAgent.c_userId args in
  ChatAgent.updateContextProc args w = (Ok res, w') ->
  Js.or_else (context_of (storage w) threadId) (Js.Obj []) = Js.Obj target ->
  exists context th',
    ChatAgent.c_context args = Some context
    /\ ChatAgent.threads (storage w') !! ChatAgent.thread_key threadId = Some th'
    /\ (Js.plain (Js.Obj target) ->
        Js.plain (Js.Obj context) ->
        ChatAgent.th_context th' = Js.Obj (ChatAgent.mergeContext target context)
        /\ ChatAgent.cr_context res = ChatAgent.th_context th')
    /\ ChatAgent.th_messages th' = messages_of (storage w) threadId
    /\ ChatAgent.th_userId th' = userId
    /\ (forall other, other <> threadId ->
          ChatAgent.threads (storage w') !! ChatAgent.thread_key other
          = ChatAgent.threads (storage w) !! ChatAgent.thread_key other)
    /\ ChatAgent.userThreads (storage w') = ChatAgent.userThreads (storage w)
    /\ exists d,
         chain_since w w' = [WriteBlock (ChatAgent.thread_key threadId); DataBlock d]
         /\ Js.get "type" d = Js.Str "chat-context-update".
Proof.
  intros threadId userId H. subst threadId userId.
  destruct w as [[ths uts] ch ev tk ck en].
  unfold context_of, messages_of. cbn [storage ChatAgent.threads ChatAgent.userThreads].
  unfold ChatAgent.updateContextProc in H.
  destruct (ChatAgent.c_context args) as [context |]; [| discriminate H].
  destruct (negb _ || negb _); [discriminate H |].
  exec_chat in H.
  destruct (ths !! ChatAgent.thread_key (ChatAgent.c_threadId args)) as [th |] eqn:Hth;
    cbn [ChatAgent.th_userId ChatAgent.th_context ChatAgent.th_messages
         ChatAgent.th_threadId ChatAgent.th_createdAt] in H.
  - destruct (String.eqb_spec (ChatAgent.th_userId th) (ChatAgent.c_userId args))
      as [Hown | Hown]; [| discriminate H].
    cbn [negb] in H. injection H as <- <-.
    cbn [storage ChatAgent.threads ChatAgent.userThreads ChatAgent.cr_context].
    intros Ht.
    eexists context, _. split; [reflexivity |].
    split; [apply lookup_insert_eq |].
    cbn [ChatAgent.th_context ChatAgent.th_messages ChatAgent.th_userId].
    split; [intros _ _; unfold ChatAgent.merged_context; rewrite Ht;
            split; reflexivity |].
    repeat (split; [first [reflexivity | exact Hown] |]).
    split; [intros other Hne; apply lookup_insert_ne, thread_key_ne; congruence |].
    split; [reflexivity |].
    eexists. erewrite chain_since_app
      by (cbn [chain]; rewrite <- !app_assoc; cbn [app]; reflexivity).
    split; reflexivity.
  - rewrite String.eqb_refl in H. cbn [negb] in H. injection H as <- <-.
    cbn [storage ChatAgent.threads ChatAgent.userThreads ChatAgent.cr_context].
    intros Ht.
    eexists context, _. split; [reflexivity |].
    split; [apply lookup_insert_eq |].
    cbn [ChatAgent.th_context ChatAgent.th_messages ChatAgent.th_userId].
    split; [intros _ _; unfold ChatAgent.merged_context; rewrite Ht;
            split; reflexivity |].
    repeat (split; [reflexivity |]).
    split; [intros other Hne; apply lookup_insert_ne, thread_key_ne; congruence |].
    split; [reflexivity |].
    eexists. erewrite chain_since_app
      by (cbn [chain]; rewrite <- !app_assoc; cbn [app]; reflexivity).
    split; reflexivity.
Qed.

(** X29: metadata after a message. After a successful [sendMessageProc],
    [getThreadMetadata] gives the thread's owner its metadata with the
    message count the send returned, and throws 'Thread does not belong to
    this user' for every other user. *)
Theorem getThreadMetadata_after_send (args : ChatAgent.SendArgs)
    (w w' : World ChatAgent.Store) (res : ChatAgent.SendResult) :
  let threadId := ChatAgent.s_threadId args in
  let userId := ChatAgent.s_userId args in
  ChatAgent.sendMessageProc args w = (Ok res, w') ->
  (exists md,
     ChatAgent.getThreadMetadata (storage w') threadId userId = Ok (Some md)
     /\ ChatAgent.tm_userId md = userId
     /\ ChatAgent.tm_messageCount md = ChatAgent.sr_messageCount res
     /\ ChatAgent.tm_messageCount md = length (messages_of (storage w) threadId) + 1
     /\ ChatAgent.tm_context md
        = Js.or_else (context_of (storage w) threadId) (Js.Obj []))
  /\ forall other,
       other <> userId ->
       ChatAgent.getThreadMetadata (storage w') threadId other = Throw ThreadNotOwned.
Proof.
  intros threadId userId H. subst threadId userId.
  destruct (send_success_guards _ _ _ _ H) as (Hm & Hrole & Hmay).
  destruct (sendMessageProc_returns args w Hm Hrole Hmay)
    as (id & ts & th' & uts' & d & ev & tk & Hrun & Hmsgs & _ & Hown & Hctx & _).
  cbv zeta in Hrun. rewrite Hrun in H. injection H as <- <-.
  unfold ChatAgent.getThreadMetadata, context_of.
  cbn [storage ChatAgent.threads ChatAgent.sr_messageCount].
  rewrite lookup_insert_eq, Hown. split.
  - rewrite String.eqb_refl. cbn [negb]. eexists. split; [reflexivity |].
    cbn [ChatAgent.tm_userId ChatAgent.tm_messageCount ChatAgent.tm_context].
    rewrite Hmsgs, length_app, Hctx. cbn [length].
    repeat split; reflexivity.
  - intros other Hne.
    destruct (String.eqb_spec (ChatAgent.s_userId args) other) as [Heq | _];
      [congruence | reflexivity].
Qed.

Lemma thread_id_truthy (rest : string) : Js.truthy ("thread-" +:+ rest) = true.
Proof. reflexivity. Qed.

(** X30: creating a thread. With an empty initial context [createThread]
    only makes up an identifier: nothing is read, stored or appended. With
    a context that is a plain object (distinct keys at every depth, none
    inherited from [Object.prototype], none integer-like), for a user id
    that is not empty and an identifier not in use, the thread is stored
    with exactly that context and no message, and is not added to the
    user's list of threads. With a context that is not empty and an empty
    user id the call throws 'Missing required fields'. *)
Theorem createThread_stores_context_only (userId : string)
    (initialContext : Js.object) (w : World ChatAgent.Store) :
  let run := ChatAgent.createThread userId initialContext w in
  (initialContext = [] ->
   exists created,
     fst run = Ok created
     /\ ChatAgent.ct_threadId created = next_thread_id w
     /\ storage (snd run) = storage w
     /\ chain (snd run) = chain w
     /\ events (snd run) = events w)
  /\ (initialContext <> [] -> Js.truthy userId = false ->
      fst run = Throw (MissingRequiredFields "threadId, userId, context")
      /\ storage (snd run) = storage w /\ chain (snd run) = chain w)
  /\ (initialContext <> [] -> Js.truthy userId = true ->
      Js.plain (Js.Obj initialContext) ->
      ChatAgent.threads (storage w) !! ChatAgent.thread_key (next_thread_id w) = None ->
      exists created th,
        fst run = Ok created
        /\ ChatAgent.ct_threadId created = next_thread_id w
        /\ ChatAgent.threads (storage (snd run))
             !! ChatAgent.thread_key (next_thread_id w) = Some th
        /\ ChatAgent.th_userId th = userId
        /\ ChatAgent.th_messages th = []
        /\ ChatAgent.th_context th = Js.Obj initialContext
        /\ ChatAgent.getUserThreads (storage (snd run)) userId
           = ChatAgent.getUserThreads (storage w) userId).
Proof.
  intros run. subst run. destruct w as [[ths uts] ch ev tk ck en].
  unfold next_thread_id. cbn [storage chain events clock tick entropy ChatAgent.threads].
  unfold ChatAgent.createThread, ChatAgent.updateContext, ChatAgent.execute.
  split; [| split].
  - intros ->. cbn [length Nat.ltb Nat.leb]. exec_chat.
    eexists. repeat split; reflexivity.
  - intros Hne Huser. destruct initialContext as [| kv rest]; [contradiction |].
    cbn [length Nat.ltb Nat.leb]. unfold ChatAgent.updateContextProc.
    cbn [ChatAgent.c_context ChatAgent.c_userId ChatAgent.c_threadId].
    exec_chat. rewrite Huser, thread_id_truthy. cbn [negb orb].
    repeat split; reflexivity.
  - intros Hne Huser Hnd Hfree. destruct initialContext as [| kv rest]; [contradiction |].
    cbn [length Nat.ltb Nat.leb]. unfold ChatAgent.updateContextProc.
    cbn [ChatAgent.c_context ChatAgent.c_userId ChatAgent.c_threadId].
    exec_chat. rewrite Huser, thread_id_truthy. cbn [negb orb].
    rewrite Hfree. cbn [ChatAgent.th_userId].
    rewrite String.eqb_refl. cbn [negb].
    eexists _, _. split; [reflexivity |]. split; [reflexivity |].
    split; [apply lookup_insert_eq |].
    cbn [ChatAgent.th_userId ChatAgent.th_messages ChatAgent.th_context].
    split; [reflexivity |]. split; [reflexivity |].
    split; [| reflexivity].
    unfold ChatAgent.merged_context. cbn [Js.or_else Js.is_truthy].
    rewrite (mergeContext_empty _ (plain_NoDup _ Hnd)). reflexivity.
Qed.

Lemma sendMessageProc_appends_message_witness :
  exists res w',
    ChatAgent.sendMessageProc ask_more (world0 one_thread) = (Ok res, w')
    /\ messages_of (storage w') "thread-1"
       = [reply; followup; hello; ChatAgent.sr_message res]
    /\ ChatAgent.sr_messageCount res = 4.
Proof.
  destruct (ChatAgent.sendMessageProc ask_more (world0 one_thread))
    as [[res | e] w'] eqn:E; [| absurd_run E].
  exists res, w'. split; [reflexivity |].
  destruct (sendMessageProc_appends_message _ _ _ _ E) as (Hm & Hc & _).
  split; [exact Hm |]. rewrite Hc, Hm. reflexivity.
Defined.

Lemma sendMessageProc_lists_thread_once_witness :
  exists res w',
    ChatAgent.sendMessageProc ask_more (world0 one_thread) = (Ok res, w')
    /\ ChatAgent.getUserThreads (storage w') "user-123" = ["thread-1"].
Proof.
  destruct (ChatAgent.sendMessageProc ask_more (world0 one_thread))
    as [[res | e] w'] eqn:E; [| absurd_run E].
  exists res, w'. split; [reflexivity |].
  destruct (sendMessageProc_lists_thread_once _ _ _ _ E) as (Hl & _).
  exact Hl.
Defined.

Lemma sent_message_is_read_back_witness :
  exists res w1 cv w2,
    ChatAgent.sendMessageProc ask_more (world0 one_thread) = (Ok res, w1)
    /\ ChatAgent.getConversationProc (ChatAgent.mkGetArgs "thread-1" "user-123" None) w1
       = (Ok cv, w2)
    /\ ChatAgent.cv_messages cv ≡ₚ [reply; followup; hello; ChatAgent.sr_message res]
    /\ ChatAgent.cv_messageCount cv = 4.
Proof.
  destruct (ChatAgent.sendMessageProc ask_more (world0 one_thread))
    as [[res | e] w1] eqn:E; [| absurd_run E].
  pose proof (f_equal sent_message E) as Em.
  change (sent_message (Ok res, w1)) with (Some (ChatAgent.sr_message res)) in Em.
  set (sent := sent_message _) in Em. vm_compute in sent. subst sent.
  injection Em as Em.
  destruct (sent_message_is_read_back ask_more (world0 one_thread) w1 res E)
    as [Hread _].
  - apply (bool_decide_unpack _). vm_compute. exact I.
  - repeat constructor.
  - rewrite <- Em. apply (bool_decide_unpack _). vm_compute. exact I.
  - destruct Hread as (cv & w2 & Hrun & Hperm & _ & Hcount).
    + rewrite <- Em. discriminate.
    + exists res, w1, cv, w2. split; [reflexivity |]. split; [exact Hrun |].
      split; [exact Hperm |]. rewrite Hcount.
      apply (f_equal (fun r => match fst r with
                               | Ok s => ChatAgent.sr_messageCount s
                               | Throw _ => 0
                               end)) in E.
      vm_compute in E. symmetry. exact E.
Defined.

Lemma getConversationProc_negative_limit_witness :
  exists cv w',
    ChatAgent.getConversationProc
      (ChatAgent.mkGetArgs "thread-1" "user-123" (Some (-1)%Z)) (world0 one_thread)
    = (Ok cv, w')
    /\ ChatAgent.cv_messages cv = [reply; followup]
    /\ ChatAgent.cv_messageCount cv = 3.
Proof.
  destruct (ChatAgent.getConversationProc
              (ChatAgent.mkGetArgs "thread-1" "user-123" (Some (-1)%Z))
              (world0 one_thread)) as [[cv | e] w'] eqn:E; [| absurd_run E].
  exists cv, w'. split; [reflexivity |].
  destruct (getConversationProc_negative_limit _ _ _ _ (-1)%Z E eq_refl) as [Hm Hc];
    [lia |].
  split; [exact Hm | exact Hc].
Defined.

Ltac ordinary :=
  split; [apply (bool_decide_unpack _); vm_compute; exact I | reflexivity].

Lemma language_update_plain : Js.plain (Js.Obj language_update).
Proof.
  split; [apply (bool_decide_unpack _); vm_compute; exact I |].
  split; [ordinary |]. split; [| split; [ordinary | split; exact I]].
  split; [apply (bool_decide_unpack _); vm_compute; exact I |].
  split; [ordinary | split; exact I].
Qed.

Lemma mergeContext_lookup_witness :
  Js.get "user" (ChatAgent.mergeContext profile_context language_update)
  = Js.Obj [("name", Js.Str "alice"); ("language", Js.Str "fr")]
  /\ Js.get "topic" (ChatAgent.mergeContext profile_context language_update)
     = Js.Str "storage".
Proof.
  rewrite !(mergeContext_lookup profile_context language_update _
              language_update_plain) by (apply (bool_decide_unpack _); vm_compute; exact I).
  split; reflexivity.
Defined.

Lemma updateContextProc_merges_context_witness :
  exists res w' th',
    ChatAgent.updateContextProc
      (ChatAgent.mkContextArgs "thread-1" "user-123" (Some language_update))
      (world0 one_thread) = (Ok res, w')
    /\ ChatAgent.threads (storage w') !! ChatAgent.thread_key "thread-1" = Some th'
    /\ ChatAgent.th_context th' = Js.Obj language_update
    /\ ChatAgent.th_messages th' = [reply; followup; hello]
    /\ ChatAgent.userThreads (storage w') = ChatAgent.userThreads one_thread.
Proof.
  destruct (ChatAgent.updateContextProc
              (ChatAgent.mkContextArgs "thread-1" "user-123" (Some language_update))
              (world0 one_thread)) as [[res | e] w'] eqn:E; [| absurd_run E].
  destruct (updateContextProc_merges_context _ _ _ _ [] E eq_refl)
    as (context & th' & Hc & Hth & Hctx & Hm & _ & _ & Hut & _).
  injection Hc as <-.
  exists res, w', th'. split; [reflexivity |]. split; [exact Hth |].
  assert (Hempty : Js.plain (Js.Obj [])) by (split; [constructor | exact I]).
  split; [exact (proj1 (Hctx Hempty language_update_plain)) |].
  split; [exact Hm | exact Hut].
Defined.

Lemma getThreadMetadata_after_send_witness :
  exists res w' md,
    ChatAgent.sendMessageProc ask_more (world0 no_threads) = (Ok res, w')
    /\ ChatAgent.getThreadMetadata (storage w') "thread-1" "user-123" = Ok (Some md)
    /\ ChatAgent.tm_messageCount md = 1
    /\ ChatAgent.getThreadMetadata (storage w') "thread-1" "user-999"
       = Throw ThreadNotOwned.
Proof.
  destruct (ChatAgent.sendMessageProc ask_more (world0 no_threads))
    as [[res | e] w'] eqn:E; [| absurd_run E].
  destruct (getThreadMetadata_after_send _ _ _ _ E) as [(md & Hmd & _ & _ & Hc & _) Ho].
  exists res, w', md. split; [reflexivity |]. split; [exact Hmd |].
  split; [exact Hc |]. apply Ho. discriminate.
Defined.
